(** * FreqShow application model (model.py): a shallow embedding

    The Python class [FreqShowModel] holds the tuner configuration of an
    RTL-SDR receiver and the intensity scaling of a spectrogram display.
    Its methods are embedded as functions in a state-and-exception monad
    over a record of the object's attributes.  The radio driver
    ([rtlsdr.RtlSdr]) and the numeric routines of numpy that the class
    calls are external to the repository: they are interfaces here, and
    the methods are written once for every implementation of them.

    Python floats are IEEE-754 binary64 values; the arithmetic of the
    methods is written against a small interface whose instance is
    binary64, what the interpreter computes.  Where a statement bounds
    a rounding error, the floats are read as the rationals they denote.

    The builtin [str.format] that three getters use to show a number
    is an interface too, with its binary64 instance. *)

From Stdlib Require Import ZArith List String Bool Lia.
From Stdlib Require Import QArith Qpower Qabs Lqa.
From Stdlib Require Import Floats.SpecFloat.
From Stdlib Require Import DecimalString.
Import ListNotations.

Set Implicit Arguments.
Local Open Scope string_scope.
Local Open Scope nat_scope.

(** ** Exceptions and results *)

Inductive exn : Type :=
| IOError (detail : string)
| ValueError
| OverflowError
| TypeError
| RecursionError.

Inductive result (A : Type) : Type :=
| Ok (a : A)
| Raise (e : exn).

Arguments Ok {A} a.
Arguments Raise {A} e.

(** ** Numbers

    [of_int] is the conversion of a Python int to float, also used for
    the float literals with an integral value ([1000000.0], [20.0]);
    [to_int] is the builtin [int], which truncates toward zero and
    raises on NaN and on the infinities.  [flt] and [fle] are [<] and
    [<=].  The model divides by the constant [1000000.0] only, so the
    ZeroDivisionError of Python's [/] never arises. *)

Class PyFloat (F : Type) : Type := {
  of_int : Z -> F;
  fadd : F -> F -> F;
  fsub : F -> F -> F;
  fmul : F -> F -> F;
  fdiv : F -> F -> F;
  flt : F -> F -> bool;
  fle : F -> F -> bool;
  isnan : F -> bool;
  to_int : F -> result Z
}.

(** *** IEEE-754 binary64 *)

Module B64.

Definition prec : Z := 53.
Definition emax : Z := 1024.

Definition of_Z (z : Z) : spec_float := binary_normalize prec emax z 0 false.
Definition add : spec_float -> spec_float -> spec_float := SFadd prec emax.
Definition sub : spec_float -> spec_float -> spec_float := SFsub prec emax.
Definition mul : spec_float -> spec_float -> spec_float := SFmul prec emax.
Definition div : spec_float -> spec_float -> spec_float := SFdiv prec emax.

Definition is_nan (x : spec_float) : bool :=
  match x with S754_nan => true | _ => false end.

Definition infinity : spec_float := S754_infinity false.

(** [int(x)]: the integer part of [x], toward zero. *)
Definition trunc (x : spec_float) : result Z :=
  match x with
  | S754_zero _ => Ok 0%Z
  | S754_finite s m e =>
      let mag := match e with
                 | Zneg p => Z.shiftr (Zpos m) (Zpos p)
                 | _ => Z.shiftl (Zpos m) e
                 end in
      Ok (if s then Z.opp mag else mag)
  | S754_infinity _ => Raise OverflowError
  | S754_nan => Raise ValueError
  end.

(** The float nearest to the decimal [n / d] (both exactly
    representable): what a literal such as [2.4] denotes. *)
Definition decimal (n d : Z) : spec_float := div (of_Z n) (of_Z d).

End B64.

#[export] Instance binary64 : PyFloat spec_float := {|
  of_int := B64.of_Z;
  fadd := B64.add;
  fsub := B64.sub;
  fmul := B64.mul;
  fdiv := B64.div;
  flt := SFltb;
  fle := SFleb;
  isnan := B64.is_nan;
  to_int := B64.trunc
|}.

(** ** The numeric routines of numpy

    [np.fft.fft], [np.absolute] and [np.log10] are external.  The k-th
    coefficient of the transform of a block is [fft_bin block k]; the
    transform of a block has one coefficient per sample. *)

Class Numpy (F : Type) : Type := {
  complex : Type;
  fft_bin : list complex -> nat -> complex;
  absolute : complex -> F;
  log10 : F -> F
}.

(** ** The radio driver

    [Dev] is the state of the driver and of the device behind it.  A
    call that changes the device may raise; the device state after the
    call is returned in both cases.  [RtlSdr] is the constructor
    [RtlSdr()], which opens the device afresh. *)

Definition hw (Dev A : Type) : Type := Dev -> result A * Dev.

Class Driver (F C Dev : Type) : Type := {
  RtlSdr : hw Dev unit;
  sdr_get_center_freq : Dev -> F;
  sdr_set_center_freq : F -> hw Dev unit;
  sdr_get_sample_rate : Dev -> F;
  sdr_set_sample_rate : Z -> hw Dev unit;
  sdr_get_gain : Dev -> F;
  sdr_set_gain : F -> hw Dev unit;
  sdr_set_manual_gain_enabled : bool -> hw Dev unit;
  sdr_read_samples : nat -> hw Dev (list C)
}.

(** ** The object *)

Record FreqShowModel (F Dev : Type) : Type := mkModel {
  width : nat;
  height : nat;
  min_auto_scale : bool;
  max_auto_scale : bool;
  min_intensity : option F;
  max_intensity : option F;
  range : option F;
  sdr : Dev;
  offsetted : bool;
  auto_gain : bool;
  stdout : list string
}.

(** The argument of [set_gain], [set_min_intensity] and
    [set_max_intensity]: the string ['AUTO'] or a number. *)
Inductive setting (F : Type) : Type :=
| AUTO
| Value (v : F).

Arguments AUTO {F}.
Arguments Value {F} v.

(** What [float] makes of an argument that is ['AUTO'] (left alone) or
    a number (the number itself, no exception). *)
Definition converted (F : Type) (intensity : setting F) : setting (result F) :=
  match intensity with
  | AUTO => AUTO
  | Value v => Value (Ok v)
  end.

Arguments converted {F} intensity.

Declare Scope py_scope.
Delimit Scope py_scope with py.

Section Model.

Context {F Dev : Type}.
Context {num : PyFloat F} {np : Numpy F} {drv : Driver F complex Dev}.

(** [freqshow.SDR_SAMPLE_SIZE], a constant of the application module. *)
Variable SDR_SAMPLE_SIZE : nat.

Abbreviation model := (FreqShowModel F Dev).

Definition with_min_auto_scale (b : bool) (s : model) : model :=
  mkModel (width s) (height s) b (max_auto_scale s) (min_intensity s)
    (max_intensity s) (range s) (sdr s) (offsetted s) (auto_gain s) (stdout s).

Definition with_max_auto_scale (b : bool) (s : model) : model :=
  mkModel (width s) (height s) (min_auto_scale s) b (min_intensity s)
    (max_intensity s) (range s) (sdr s) (offsetted s) (auto_gain s) (stdout s).

Definition with_min_intensity (v : option F) (s : model) : model :=
  mkModel (width s) (height s) (min_auto_scale s) (max_auto_scale s) v
    (max_intensity s) (range s) (sdr s) (offsetted s) (auto_gain s) (stdout s).

Definition with_max_intensity (v : option F) (s : model) : model :=
  mkModel (width s) (height s) (min_auto_scale s) (max_auto_scale s)
    (min_intensity s) v (range s) (sdr s) (offsetted s) (auto_gain s) (stdout s).

Definition with_range (v : option F) (s : model) : model :=
  mkModel (width s) (height s) (min_auto_scale s) (max_auto_scale s)
    (min_intensity s) (max_intensity s) v (sdr s) (offsetted s) (auto_gain s)
    (stdout s).

Definition with_sdr (d : Dev) (s : model) : model :=
  mkModel (width s) (height s) (min_auto_scale s) (max_auto_scale s)
    (min_intensity s) (max_intensity s) (range s) d (offsetted s) (auto_gain s)
    (stdout s).

Definition with_offsetted (b : bool) (s : model) : model :=
  mkModel (width s) (height s) (min_auto_scale s) (max_auto_scale s)
    (min_intensity s) (max_intensity s) (range s) (sdr s) b (auto_gain s)
    (stdout s).

Definition with_auto_gain (b : bool) (s : model) : model :=
  mkModel (width s) (height s) (min_auto_scale s) (max_auto_scale s)
    (min_intensity s) (max_intensity s) (range s) (sdr s) (offsetted s) b
    (stdout s).

Definition with_stdout (o : list string) (s : model) : model :=
  mkModel (width s) (height s) (min_auto_scale s) (max_auto_scale s)
    (min_intensity s) (max_intensity s) (range s) (sdr s) (offsetted s)
    (auto_gain s) o.

(** ** Methods run in a state-and-exception monad

    A method takes the object and returns a value or a raised
    exception, together with the object as the method left it: an
    exception does not undo the assignments made before it. *)

Definition M (A : Type) : Type := model -> result A * model.

Definition ret {A} (a : A) : M A := fun s => (Ok a, s).

Definition raise {A} (e : exn) : M A := fun s => (Raise e, s).

Definition bind {A B} (c : M A) (k : A -> M B) : M B :=
  fun s => match c s with
           | (Ok a, s') => k a s'
           | (Raise e, s') => (Raise e, s')
           end.

Definition get : M model := fun s => (Ok s, s).

Definition modify (f : model -> model) : M unit := fun s => (Ok tt, f s).

Definition lift {A} (r : result A) : M A := fun s => (r, s).

(** A call of a driver method on [self.sdr]. *)
Definition call {A} (op : hw Dev A) : M A :=
  fun s => let (r, d) := op (sdr s) in (r, with_sdr d s).

(** [try: body  except IOError as error: handler]. *)
Definition try_except_IOError {A} (body : M A) (handler : string -> M A) : M A :=
  fun s => match body s with
           | (Raise (IOError detail), s') => handler detail s'
           | other => other
           end.

Definition when (b : bool) (c : M unit) : M unit := if b then c else ret tt.

Definition print (line : string) : M unit :=
  modify (fun s => with_stdout (stdout s ++ [line]) s).

Notation "x <- c ;; k" := (bind c (fun x => k))
  (at level 61, c at next level, right associativity) : py_scope.
Notation "c ;; k" := (bind c (fun _ => k))
  (at level 61, right associativity) : py_scope.

Local Open Scope py_scope.

(** ** Pure helpers of the acquisition pipeline *)

(** [np.fft.fft(samples)]: one coefficient per sample; numpy raises
    ValueError on an empty block. *)
Definition np_fft (samples : list complex) : result (list complex) :=
  match samples with
  | [] => Raise ValueError
  | _ => Ok (map (fft_bin samples) (seq 0 (List.length samples)))
  end.

(** [a[1:-1]]. *)
Definition slice_1_m1 {A} (a : list A) : list A :=
  firstn (List.length a - 2) (skipn 1 a).

(** [np.fft.fftshift(a)] on a one-dimensional array: [np.roll(a, n // 2)],
    the element at index [i] moves to index [(i + n // 2) mod n]. *)
Definition fftshift {A} (a : list A) : list A :=
  let n := List.length a in
  skipn (n - n / 2) a ++ firstn (n - n / 2) a.

(** numpy's reduction step for [np.min] and [np.max]: the accumulator
    is kept when it compares [<=] (resp. [>=]) or is NaN, so a NaN in
    the array reaches the result. *)
Definition np_minimum (acc x : F) : F :=
  if fle acc x || isnan acc then acc else x.

Definition np_maximum (acc x : F) : F :=
  if fle x acc || isnan acc then acc else x.

(** [np.min(a)] and [np.max(a)]; ValueError on an empty array. *)
Definition np_min (a : list F) : result F :=
  match a with
  | [] => Raise ValueError
  | x :: rest => Ok (fold_left np_minimum rest x)
  end.

Definition np_max (a : list F) : result F :=
  match a with
  | [] => Raise ValueError
  | x :: rest => Ok (fold_left np_maximum rest x)
  end.

(** The builtins [min(a, b)] and [max(a, b)]: the first argument is
    kept unless the second is strictly smaller (resp. greater). *)
Definition py_min (a b : F) : F := if flt b a then b else a.

Definition py_max (a b : F) : F := if flt a b then b else a.

(** [20.0 * np.log10(m)]. *)
Definition decibels (m : F) : F := fmul (of_int 20) (log10 m).

(** ** Methods *)

Definition _clear_intensity : M unit :=
  s <- get ;;
  when (min_auto_scale s) (modify (with_min_intensity None)) ;;
  when (max_auto_scale s) (modify (with_max_intensity None)) ;;
  modify (with_range None).

Definition is_offsetted (s : model) : bool := offsetted s.

Definition get_offset_mhz (s : model) : Z :=
  if is_offsetted s then 125%Z else 0%Z.

Definition get_nominal_center_freq (s : model) : F :=
  fsub (fdiv (sdr_get_center_freq (sdr s)) (of_int 1000000))
       (of_int (get_offset_mhz s)).


(** The legal sample rates, in hertz. *)
Definition sample_rate_ok (sample_rate : Z) : bool :=
  ((225001 <=? sample_rate)%Z && (sample_rate <=? 300000)%Z)
  || ((900001 <=? sample_rate)%Z && (sample_rate <=? 3200000)%Z).

Definition sample_rate_error : string * string :=
  ("Specified sample rate out of range!",
   "Valid sample rates are 0.226 - 0.3 MHz and 0.901 - 3.2 MHz.").

(** The setters, [_initialize_rtlsdr] and [report_error] call one
    another.  The setters are first written over the [report_error]
    they call; [report_error] then closes the loop by recursion on the
    number of nested recoveries the interpreter still allows, raising
    RecursionError when none is left. *)
Section Setters.

Variable report_error : string -> string -> M (string * string).

Definition set_nominal_center_freq_with (freq_mhz : F)
  : M (option (string * string)) :=
  try_except_IOError
    (s <- get ;;
     call (sdr_set_center_freq
             (fmul (fadd freq_mhz (of_int (get_offset_mhz s)))
                   (of_int 1000000))) ;;
     _clear_intensity ;;
     ret None)
    (fun error =>
       e <- report_error "set center frequency" error ;; ret (Some e)).

Definition set_sample_rate_with (sample_rate_mhz : F)
  : M (option (string * string)) :=
  sample_rate <- lift (to_int (fmul sample_rate_mhz (of_int 1000000))) ;;
  if negb (sample_rate_ok sample_rate) then ret (Some sample_rate_error)
  else
    try_except_IOError
      (call (sdr_set_sample_rate sample_rate) ;; ret None)
      (fun error =>
         e <- report_error "set sample rate" error ;; ret (Some e)).

Definition set_gain_with (gain_db : setting F)
  : M (option (string * string)) :=
  match gain_db with
  | AUTO =>
      call (sdr_set_manual_gain_enabled false) ;;
      modify (with_auto_gain true) ;;
      _clear_intensity ;;
      ret None
  | Value g =>
      modify (with_auto_gain false) ;;
      _clear_intensity ;;
      try_except_IOError
        (call (sdr_set_gain g) ;; ret None)
        (fun error => e <- report_error "set gain" error ;; ret (Some e))
  end.

Definition _initialize_rtlsdr_with : M unit :=
  call RtlSdr ;;
  modify (with_offsetted false) ;;
  set_nominal_center_freq_with (of_int 145) ;;
  set_sample_rate_with (fdiv (of_int 24) (of_int 10)) ;;
  set_gain_with AUTO ;;
  ret tt.

End Setters.

Fixpoint report_error (depth : nat) (action error : string)
  : M (string * string) :=
  match depth with
  | O => raise RecursionError
  | S d =>
      let message := "Can't " ++ action in
      let detail := error in
      print (message ++ ": " ++ detail) ;;
      _initialize_rtlsdr_with (report_error d) ;;
      ret (message, detail)
  end.

Definition _initialize_rtlsdr (depth : nat) : M unit :=
  _initialize_rtlsdr_with (report_error depth).

Definition set_nominal_center_freq (depth : nat) (freq_mhz : F)
  : M (option (string * string)) :=
  set_nominal_center_freq_with (report_error depth) freq_mhz.

Definition set_sample_rate (depth : nat) (sample_rate_mhz : F)
  : M (option (string * string)) :=
  set_sample_rate_with (report_error depth) sample_rate_mhz.

Definition set_gain (depth : nat) (gain_db : setting F)
  : M (option (string * string)) :=
  set_gain_with (report_error depth) gain_db.

Definition set_offsetted (depth : nat) (enabled : bool)
  : M (option (string * string)) :=
  s <- get ;;
  let frequency := get_nominal_center_freq s in
  modify (with_offsetted enabled) ;;
  set_nominal_center_freq depth frequency.

(** The intensity setters.  For an argument other than ['AUTO'],
    [outcome] is what [float(intensity)] does: it returns a number, or
    raises (ValueError for a string that is no number, TypeError for
    [None]).  The flag is assigned before the conversion, so a
    conversion that raises leaves it assigned and skips the rest of the
    method. *)
Definition set_min_intensity_of (intensity : setting (result F)) : M unit :=
  match intensity with
  | AUTO => modify (with_min_auto_scale true)
  | Value outcome =>
      modify (with_min_auto_scale false) ;;
      v <- lift outcome ;;
      modify (with_min_intensity (Some v))
  end ;;
  _clear_intensity.

Definition set_max_intensity_of (intensity : setting (result F)) : M unit :=
  match intensity with
  | AUTO => modify (with_max_auto_scale true)
  | Value outcome =>
      modify (with_max_auto_scale false) ;;
      v <- lift outcome ;;
      modify (with_max_intensity (Some v))
  end ;;
  _clear_intensity.

(** The same on ['AUTO'] or a number. *)
Definition set_min_intensity (intensity : setting F) : M unit :=
  set_min_intensity_of (converted intensity).

Definition set_max_intensity (intensity : setting F) : M unit :=
  set_max_intensity_of (converted intensity).

Definition get_data : M (list F) :=
  s <- get ;;
  block <- call (sdr_read_samples SDR_SAMPLE_SIZE) ;;
  let samples := firstn (width s + 2) block in
  spectrum <- lift (np_fft samples) ;;
  let freqs := map absolute spectrum in
  let freqs := slice_1_m1 freqs in
  let freqs := fftshift freqs in
  let freqs := map decibels freqs in
  when (min_auto_scale s)
    (lo <- lift (np_min freqs) ;;
     s1 <- get ;;
     modify (with_min_intensity
               (Some match min_intensity s1 with
                     | None => lo
                     | Some previous => py_min lo previous
                     end))) ;;
  when (max_auto_scale s)
    (hi <- lift (np_max freqs) ;;
     s1 <- get ;;
     modify (with_max_intensity
               (Some match max_intensity s1 with
                     | None => hi
                     | Some previous => py_max hi previous
                     end))) ;;
  s2 <- get ;;
  match max_intensity s2, min_intensity s2 with
  | Some hi, Some lo => modify (with_range (Some (fsub hi lo)))
  | _, _ => raise TypeError
  end ;;
  ret freqs.

(** [FreqShowModel(width, height)] on a device in state [dev]. *)
Definition init (depth : nat) (w h : nat) (dev : Dev) : result unit * model :=
  (set_min_intensity AUTO ;;
   set_max_intensity AUTO ;;
   _initialize_rtlsdr depth)
    (mkModel w h true true None None None dev false false []).

End Model.

(** ** The getters that show a number

    [format_f p x] is ['{0:0.pf}'.format(x)]: [x] in fixed-point
    notation with [p] digits after the point. *)

Class PyFormat (F : Type) : Type := {
  format_f : nat -> F -> string
}.

Section Getters.

Context {F Dev : Type}.
Context {num : PyFloat F} {fmt : PyFormat F}.
Context {np : Numpy F} {drv : Driver F complex Dev}.

Definition get_gain (s : FreqShowModel F Dev) : string :=
  if auto_gain s then "AUTO" else format_f 1 (sdr_get_gain (sdr s)).

(** Formatting [None] with a float format raises TypeError. *)
Definition get_min_string (s : FreqShowModel F Dev) : result string :=
  if min_auto_scale s then Ok "AUTO"
  else match min_intensity s with
       | Some v => Ok (format_f 0 v)
       | None => Raise TypeError
       end.

Definition get_max_string (s : FreqShowModel F Dev) : result string :=
  if max_auto_scale s then Ok "AUTO"
  else match max_intensity s with
       | Some v => Ok (format_f 0 v)
       | None => Raise TypeError
       end.

End Getters.

(** *** Fixed-point notation of a binary64 value

    The decimal printed is the one nearest to the exact value of the
    float, ties going to the even digit; the sign is kept when the
    digits are all zero. *)

Module B64Format.

Definition digits (n : Z) : string :=
  NilZero.string_of_uint (N.to_uint (Z.to_N n)).

Fixpoint zeros (k : nat) : string :=
  match k with
  | O => ""
  | S k' => "0" ++ zeros k'
  end.

Definition pad (k : nat) (text : string) : string :=
  zeros (k - String.length text) ++ text.

(** The integer nearest to [num / den], ties to even ([den > 0]). *)
Definition round_half_even (num den : Z) : Z :=
  let q := (num / den)%Z in
  let r := (num mod den)%Z in
  match (2 * r ?= den)%Z with
  | Lt => q
  | Gt => (q + 1)%Z
  | Eq => if Z.even q then q else (q + 1)%Z
  end.

(** [scaled / 10^p] written with [p] digits after the point. *)
Definition fixed_point (p : nat) (scaled : Z) : string :=
  let unit := (10 ^ Z.of_nat p)%Z in
  digits (scaled / unit)
  ++ match p with
     | O => ""
     | _ => "." ++ pad p (digits (scaled mod unit))
     end.

Definition format (p : nat) (x : spec_float) : string :=
  let sign (s : bool) := if s then "-" else "" in
  match x with
  | S754_nan => "nan"
  | S754_infinity s => sign s ++ "inf"
  | S754_zero s => sign s ++ fixed_point p 0
  | S754_finite s m e =>
      let num := (Zpos m * 10 ^ Z.of_nat p)%Z in
      sign s ++ fixed_point p
                  match e with
                  | Zneg k => round_half_even num (2 ^ Zpos k)
                  | _ => (num * 2 ^ e)%Z
                  end
  end.

End B64Format.

#[export] Instance binary64_format : PyFormat spec_float := {|
  format_f := B64Format.format
|}.

(** ** A bench to run the model on

    A simulated receiver and a loop-back numeric backend, in the way a
    unit test of the class would inject them.  The simulated receiver
    keeps the registers the driver exposes, a log of the calls made on
    it and a schedule of faults: each call that can fail takes the next
    entry of the schedule and raises IOError when it is [true]; once
    the schedule is used up the calls succeed, or all fail when
    [sim_broken] is set.  The theorems below hold for every driver and
    every backend; the bench only serves to evaluate the methods on
    concrete inputs. *)

Module Bench.

Inductive call_record (F : Type) : Type :=
| Open
| SetCenterFreq (hz : F)
| SetSampleRate (hz : Z)
| SetGain (db : F)
| SetManualGain (enabled : bool)
| ReadSamples (count : nat).

Arguments Open {F}.
Arguments SetSampleRate {F} hz.
Arguments SetManualGain {F} enabled.
Arguments ReadSamples {F} count.

Record sim (F : Type) : Type := mkSim {
  sim_center_freq : F;
  sim_sample_rate : Z;
  sim_gain : F;
  sim_manual_gain : bool;
  sim_faults : list bool;
  sim_broken : bool;
  sim_log : list (call_record F)
}.

Section Sim.

Context {F : Type} {num : PyFloat F}.

Definition fault_detail : string := "LIBUSB_ERROR_IO".

(** One call on the device: log it, consume one entry of the fault
    schedule, and apply [effect] to the registers when it succeeds. *)
Definition attempt (c : call_record F) (effect : sim F -> sim F) : hw (sim F) unit :=
  fun d =>
    let logged := mkSim (sim_center_freq d) (sim_sample_rate d) (sim_gain d)
                    (sim_manual_gain d) (tl (sim_faults d)) (sim_broken d)
                    (sim_log d ++ [c]) in
    if match sim_faults d with
       | fault :: _ => fault
       | [] => sim_broken d
       end
    then (Raise (IOError fault_detail), logged)
    else (Ok tt, effect logged).

Definition put_center_freq (hz : F) (d : sim F) : sim F :=
  mkSim hz (sim_sample_rate d) (sim_gain d) (sim_manual_gain d)
    (sim_faults d) (sim_broken d) (sim_log d).

Definition put_sample_rate (hz : Z) (d : sim F) : sim F :=
  mkSim (sim_center_freq d) hz (sim_gain d) (sim_manual_gain d)
    (sim_faults d) (sim_broken d) (sim_log d).

Definition put_gain (db : F) (d : sim F) : sim F :=
  mkSim (sim_center_freq d) (sim_sample_rate d) db (sim_manual_gain d)
    (sim_faults d) (sim_broken d) (sim_log d).

Definition put_manual_gain (b : bool) (d : sim F) : sim F :=
  mkSim (sim_center_freq d) (sim_sample_rate d) (sim_gain d) b
    (sim_faults d) (sim_broken d) (sim_log d).

(** A freshly opened device: 100 MHz, 2.048 MHz, automatic gain. *)
Definition reset (d : sim F) : sim F :=
  mkSim (of_int 100000000) 2048000%Z (of_int 0) false
    (sim_faults d) (sim_broken d) (sim_log d).

(** The sample stream: the k-th sample of every block is [k + 1]. *)
Definition signal (k : nat) : F := of_int (Z.of_nat (S k)).

Definition read (count : nat) : hw (sim F) (list F) :=
  fun d =>
    match attempt (ReadSamples count) (fun d => d) d with
    | (Ok _, d') => (Ok (map signal (seq 0 count)), d')
    | (Raise e, d') => (Raise e, d')
    end.

#[export] Instance sim_driver : Driver F F (sim F) := {|
  RtlSdr := attempt Open reset;
  sdr_get_center_freq := @sim_center_freq F;
  sdr_set_center_freq := fun hz => attempt (SetCenterFreq hz) (put_center_freq hz);
  sdr_get_sample_rate := fun d => of_int (sim_sample_rate d);
  sdr_set_sample_rate := fun hz => attempt (SetSampleRate hz) (put_sample_rate hz);
  sdr_get_gain := @sim_gain F;
  sdr_set_gain := fun db => attempt (SetGain db) (put_gain db);
  sdr_set_manual_gain_enabled :=
    fun b => attempt (SetManualGain b) (put_manual_gain b);
  sdr_read_samples := read
|}.

(** The loop-back backend: samples are real, the transform returns the
    block itself, magnitude and logarithm are the identity. *)
#[export] Instance loopback : Numpy F := {|
  complex := F;
  fft_bin := fun block k => nth k block (of_int 0);
  absolute := fun z => z;
  log10 := fun m => m
|}.

(** A device with the given fault schedule, tuned to [hz]. *)
Definition device (hz : F) (faults : list bool) (broken : bool) : sim F :=
  mkSim hz 2400000%Z (of_int 0) false faults broken [].

(** An object of the given width on a device, automatic scaling on
    both bounds, nothing observed yet. *)
Definition fresh (w : nat) (d : sim F) : FreqShowModel F (sim F) :=
  mkModel w 240 true true None None None d false true [].

End Sim.

End Bench.

Unset Implicit Arguments.

(** * Vocabulary of the statements *)

Section Vocabulary.

Context {F Dev : Type}.
Context {num : PyFloat F} {np : Numpy F} {drv : Driver F complex Dev}.

Abbreviation model := (FreqShowModel F Dev).

(** The object after [_clear_intensity]: automatic bounds absent, fixed
    bounds kept, no range. *)
Definition cleared (s : model) : model :=
  mkModel (width s) (height s) (min_auto_scale s) (max_auto_scale s)
    (if min_auto_scale s then None else min_intensity s)
    (if max_auto_scale s then None else max_intensity s)
    None (sdr s) (offsetted s) (auto_gain s) (stdout s).

(** The value [set_nominal_center_freq] hands to the driver. *)
Definition actual_hz (freq_mhz : F) (s : model) : F :=
  fmul (fadd freq_mhz (of_int (get_offset_mhz s))) (of_int 1000000).

(** The object after the [print] of [report_error]. *)
Definition reported (action detail : string) (s : model) : model :=
  with_stdout (stdout s ++ [("Can't " ++ action) ++ ": " ++ detail]) s.

(** The object after a completed [_initialize_rtlsdr] that left the
    device in [d]. *)
Definition defaults (d : Dev) (s : model) : model :=
  mkModel (width s) (height s) (min_auto_scale s) (max_auto_scale s)
    (if min_auto_scale s then None else min_intensity s)
    (if max_auto_scale s then None else max_intensity s)
    None d false true (stdout s).

End Vocabulary.

Section VocabularyBinary64.

Context {Dev : Type}.
Context {np : Numpy spec_float} {drv : Driver spec_float complex Dev}.

(** A bound, or [default] when it is absent. *)
Definition previous_or (default : spec_float) (bound : option spec_float)
  : spec_float :=
  match bound with
  | Some previous => previous
  | None => default
  end.

(** [lo] is the minimum of [frame] as [np.min] returns it: the least
    element of a frame of numbers, NaN for a frame that holds a NaN. *)
Definition frame_minimum (frame : list spec_float) (lo : spec_float) : Prop :=
  ((forall x, In x frame -> B64.is_nan x = false) ->
   In lo frame /\ forall x, In x frame -> SFleb lo x = true)
  /\ ((exists x, In x frame /\ B64.is_nan x = true) -> B64.is_nan lo = true).

(** [hi] is the maximum of [frame] as [np.max] returns it. *)
Definition frame_maximum (frame : list spec_float) (hi : spec_float) : Prop :=
  ((forall x, In x frame -> B64.is_nan x = false) ->
   In hi frame /\ forall x, In x frame -> SFleb x hi = true)
  /\ ((exists x, In x frame /\ B64.is_nan x = true) -> B64.is_nan hi = true).

(** The driver calls of [_initialize_rtlsdr] all succeed from [d0] and
    leave the device in [d4]: opened afresh, tuned to 145 MHz, sampling
    at 2.4 MHz, automatic gain. *)
Definition reopened (d0 d4 : Dev) : Prop :=
  exists d1 d2 d3 : Dev,
    RtlSdr d0 = (Ok tt, d1)
    /\ sdr_set_center_freq (B64.of_Z 145000000) d1 = (Ok tt, d2)
    /\ sdr_set_sample_rate 2400000%Z d2 = (Ok tt, d3)
    /\ sdr_set_manual_gain_enabled false d3 = (Ok tt, d4).

End VocabularyBinary64.

(** ** Floats as the rationals they denote *)

Section VocabularyRationals.

Local Open Scope Z_scope.

(** 2 to the power [e]. *)
Definition pow2 (e : Z) : Q := (2 ^ e)%Q.

Arguments pow2 : simpl never.

(** The rational a finite float denotes: plus or minus [m * 2^e]; 0 for
    the zeros and, by convention, for NaN and the infinities. *)
Definition value (x : spec_float) : Q :=
  match x with
  | S754_finite s m e =>
      (inject_Z (if s then Zneg m else Zpos m) * pow2 e)%Q
  | _ => 0%Q
  end.

(** A zero or a finite number: not NaN, not an infinity. *)
Definition finite (x : spec_float) : bool :=
  match x with
  | S754_zero _ | S754_finite _ _ _ => true
  | _ => false
  end.

(** [x] is a value of the binary64 format: a finite number has the
    mantissa and the exponent of a double. *)
Definition representable (x : spec_float) : bool :=
  valid_binary B64.prec B64.emax x.

(** A positive normal number of binary64: 53 digits of mantissa. *)
Definition normal (x : spec_float) : Prop :=
  match x with
  | S754_finite false m e => 2 ^ 52 <= Zpos m < 2 ^ 53 /\ -1074 <= e <= 971
  | _ => False
  end.

(** The position of the rational [t] between the integers [m] and
    [m + 1], as the rounding of [SpecFloat] records it: on [m], below
    the middle, on the middle or above it. *)
Definition located (m : Z) (l : location) (t : Q) : Prop :=
  match l with
  | loc_Exact => (t == inject_Z m)%Q
  | loc_Inexact Lt => (inject_Z m < t /\ t < inject_Z m + (1 # 2))%Q
  | loc_Inexact Eq => (t == inject_Z m + (1 # 2))%Q
  | loc_Inexact Gt => (inject_Z m + (1 # 2) < t /\ t < inject_Z m + 1)%Q
  end.

Definition located_rec (mrs : shr_record) (t : Q) : Prop :=
  located (shr_m mrs) (loc_of_shr_record mrs) t.

End VocabularyRationals.

(** Objects and devices of the bench. *)

Import Bench.

Abbreviation f64 := spec_float.

(** A receiver tuned to 7.1 MHz that works. *)
Definition working : sim f64 := device (B64.of_Z 7100000) [] false.

(** A receiver whose next call fails and which works afterwards. *)
Definition glitching : sim f64 := device (B64.of_Z 7100000) [true] false.

(** A receiver that was unplugged: every call fails. *)
Definition unplugged : sim f64 := device (B64.of_Z 7100000) [] true.

(** An object with bounds observed: automatic minimum at 50 dB, fixed
    maximum at 90 dB. *)
Definition observed (d : sim f64) : FreqShowModel f64 (sim f64) :=
  mkModel 4 240 true false (Some (B64.of_Z 50)) (Some (B64.of_Z 90))
    (Some (B64.of_Z 40)) d false true [].

(** The device after a completed re-initialisation started in [d]. *)
Definition reinitialised (d : sim f64) : sim f64 :=
  snd (sdr_set_manual_gain_enabled false
         (snd (sdr_set_sample_rate 2400000%Z
                 (snd (sdr_set_center_freq (B64.of_Z 145000000)
                         (snd (RtlSdr d))))))).

(** What every method but the two intensity setters keeps: the size of
    the display, the two scaling modes, and each bound that is fixed. *)
Definition scaling_kept {F Dev : Type} (s s' : FreqShowModel F Dev) : Prop :=
  width s' = width s
  /\ height s' = height s
  /\ min_auto_scale s' = min_auto_scale s
  /\ max_auto_scale s' = max_auto_scale s
  /\ (min_auto_scale s = false -> min_intensity s' = min_intensity s)
  /\ (max_auto_scale s = false -> max_intensity s' = max_intensity s).

(** The method [c] relates, by [R], the object it is run on to the
    object it leaves, however it ends. *)
Definition keeps {F Dev A : Type}
  (R : FreqShowModel F Dev -> FreqShowModel F Dev -> Prop)
  (c : FreqShowModel F Dev -> result A * FreqShowModel F Dev) : Prop :=
  forall s, R s (snd (c s)).

(** A fixed bound has a value. *)
Definition well_scaled {F Dev : Type} (s : FreqShowModel F Dev) : Prop :=
  (min_auto_scale s = false -> min_intensity s <> None)
  /\ (max_auto_scale s = false -> max_intensity s <> None).

(** The attributes a completed [_initialize_rtlsdr] leaves. *)
Definition at_defaults {F Dev : Type} (s : FreqShowModel F Dev) : Prop :=
  offsetted s = false
  /\ auto_gain s = true
  /\ range s = None
  /\ (min_auto_scale s = true -> min_intensity s = None)
  /\ (max_auto_scale s = true -> max_intensity s = None).

(** Once the offset is off it stays off. *)
Definition offset_stays_off {F Dev : Type} (s s' : FreqShowModel F Dev) : Prop :=
  offsetted s = false -> offsetted s' = false.

(** A receiver that can be opened but whose tuner rejects every
    frequency; its state is the number of calls made on it. *)
Definition stuck_tuner : Driver f64 f64 nat := {|
  RtlSdr := fun calls => (Ok tt, S calls);
  sdr_get_center_freq := fun _ => B64.of_Z 100000000;
  sdr_set_center_freq :=
    fun _ calls => (Raise (IOError "Error code -1 when setting center freq"),
                    S calls);
  sdr_get_sample_rate := fun _ => B64.of_Z 2048000;
  sdr_set_sample_rate := fun _ calls => (Ok tt, S calls);
  sdr_get_gain := fun _ => B64.of_Z 0;
  sdr_set_gain := fun _ calls => (Ok tt, S calls);
  sdr_set_manual_gain_enabled := fun _ calls => (Ok tt, S calls);
  sdr_read_samples := fun count calls => (Ok (map signal (seq 0 count)), S calls)
|}.

(** A tuner that accepts every frequency and reads back what was
    written; its state is the frequency it is tuned to. *)
Definition ideal_tuner : Driver f64 f64 f64 := {|
  RtlSdr := fun _ => (Ok tt, B64.of_Z 100000000);
  sdr_get_center_freq := fun hz => hz;
  sdr_set_center_freq := fun hz _ => (Ok tt, hz);
  sdr_get_sample_rate := fun _ => B64.of_Z 2048000;
  sdr_set_sample_rate := fun _ hz => (Ok tt, hz);
  sdr_get_gain := fun _ => B64.of_Z 0;
  sdr_set_gain := fun _ hz => (Ok tt, hz);
  sdr_set_manual_gain_enabled := fun _ hz => (Ok tt, hz);
  sdr_read_samples := fun count hz => (Ok (map signal (seq 0 count)), hz)
|}.

(** Equality of two floats as data (same class, sign, mantissa and
    exponent). *)
Definition same_float (x y : spec_float) : bool :=
  match x, y with
  | S754_zero s, S754_zero s' => Bool.eqb s s'
  | S754_infinity s, S754_infinity s' => Bool.eqb s s'
  | S754_nan, S754_nan => true
  | S754_finite s m e, S754_finite s' m' e' =>
      Bool.eqb s s' && Pos.eqb m m' && Z.eqb e e'
  | _, _ => false
  end.

(** For [n] MHz and an offset of [offset] MHz: the hertz handed to the
    driver are exactly [(n + offset) * 1000000], and reading them back
    gives exactly [n]. *)
Definition whole_megahertz_exact (offset : Z) (n : nat) : bool :=
  let f := B64.of_Z (Z.of_nat n) in
  let hz := B64.mul (B64.add f (B64.of_Z offset)) (B64.of_Z 1000000) in
  same_float hz (B64.of_Z ((Z.of_nat n + offset) * 1000000))
  && same_float (B64.sub (B64.div hz (B64.of_Z 1000000)) (B64.of_Z offset)) f.

(** The object after [n] calls of [get_data], however each ended. *)
Fixpoint acquire {F Dev : Type} {num : PyFloat F} {np : Numpy F}
  {drv : Driver F complex Dev} (SDR_SAMPLE_SIZE : nat) (n : nat)
  (s : FreqShowModel F Dev) : FreqShowModel F Dev :=
  match n with
  | O => s
  | S k => snd (get_data SDR_SAMPLE_SIZE (acquire SDR_SAMPLE_SIZE k s))
  end.

(** A receiver whose first block of samples is no number (NaN) and
    whose later blocks are the signal of the bench; its state is the
    number of blocks read. *)
Definition dropout : Driver f64 f64 nat := {|
  RtlSdr := fun reads => (Ok tt, reads);
  sdr_get_center_freq := fun _ => B64.of_Z 100000000;
  sdr_set_center_freq := fun _ reads => (Ok tt, reads);
  sdr_get_sample_rate := fun _ => B64.of_Z 2048000;
  sdr_set_sample_rate := fun _ reads => (Ok tt, reads);
  sdr_get_gain := fun _ => B64.of_Z 0;
  sdr_set_gain := fun _ reads => (Ok tt, reads);
  sdr_set_manual_gain_enabled := fun _ reads => (Ok tt, reads);
  sdr_read_samples :=
    fun count reads =>
      (Ok match reads with
          | O => repeat S754_nan count
          | S _ => map signal (seq 0 count)
          end,
       S reads)
|}.

(** An object on that receiver after [n] calls of [get_data], started
    with both bounds automatic, at 10 dB and 2000 dB. *)
Definition after_dropout (n : nat) : FreqShowModel f64 nat :=
  acquire (np := @loopback f64 binary64) (drv := dropout) 8 n
    (mkModel 4 240 true true (Some (B64.of_Z 10)) (Some (B64.of_Z 2000))
       (Some (B64.of_Z 1990)) 0 false true []).

(** An object with both bounds automatic and observed: 50 dB and
    90 dB. *)
Definition scanning (d : sim f64) : FreqShowModel f64 (sim f64) :=
  mkModel 4 240 true true (Some (B64.of_Z 50)) (Some (B64.of_Z 90))
    (Some (B64.of_Z 40)) d false true [].

(** A receiver tuned to 145 MHz that works. *)
Definition tuned_145 : sim f64 := device (B64.of_Z 145000000) [] false.

(** An object on the receiver whose tuner is stuck. *)
Definition on_stuck_tuner : FreqShowModel f64 nat :=
  mkModel 320 240 true true None None None 0 false true [].

(** An object on the ideal tuner, at 433 MHz. *)
Definition on_ideal_tuner : FreqShowModel f64 f64 :=
  mkModel 320 240 true true None None None (B64.of_Z 433000000)
    false true [].

(** * Properties *)

Ltac unfold_monad :=
  unfold bind, ret, raise, get, modify, lift, call, when, print,
    try_except_IOError in *.

Section Lists.

Context {A : Type}.

Lemma length_slice_1_m1 (a : list A) :
  List.length (slice_1_m1 a) = List.length a - 2.
Proof.
  unfold slice_1_m1. rewrite length_firstn, length_skipn. lia.
Qed.

Lemma nth_error_slice_1_m1 (a : list A) (i : nat) :
  i < List.length a - 2 -> nth_error (slice_1_m1 a) i = nth_error a (S i).
Proof.
  intros Hi. unfold slice_1_m1.
  rewrite nth_error_firstn.
  destruct (Nat.ltb_spec i (List.length a - 2)) as [_|Hge]; [|lia].
  rewrite nth_error_skipn. reflexivity.
Qed.

Lemma length_fftshift (a : list A) : List.length (fftshift a) = List.length a.
Proof.
  unfold fftshift.
  rewrite length_app, length_skipn, length_firstn.
  pose proof (Nat.Div0.mul_div_le (List.length a) 2). lia.
Qed.

(** [fftshift] is the circular shift by half the length. *)
Lemma nth_error_fftshift (a : list A) (i : nat) :
  i < List.length a ->
  nth_error (fftshift a) ((i + List.length a / 2) mod List.length a)
  = nth_error a i.
Proof.
  intros Hi. unfold fftshift.
  set (n := List.length a) in *.
  assert (Hhalf : 2 * (n / 2) <= n) by (apply Nat.Div0.mul_div_le).
  assert (Hhalf' : n < 2 * (n / 2) + 2).
  { pose proof (Nat.mod_upper_bound n 2). pose proof (Nat.div_mod_eq n 2). lia. }
  destruct (Nat.lt_ge_cases i (n - n / 2)) as [Hlow|Hhigh].
  - rewrite Nat.mod_small by lia.
    rewrite nth_error_app2 by (rewrite length_skipn; fold n; lia).
    rewrite length_skipn. fold n.
    rewrite nth_error_firstn.
    replace (i + n / 2 - (n - (n - n / 2))) with i by lia.
    destruct (Nat.ltb_spec i (n - n / 2)); [reflexivity|lia].
  - replace ((i + n / 2) mod n) with (i - (n - n / 2)).
    + rewrite nth_error_app1 by (rewrite length_skipn; fold n; lia).
      rewrite nth_error_skipn. f_equal. lia.
    + apply Nat.mod_unique with (q := 1); lia.
Qed.

End Lists.

Section Configuration.

Context {F Dev : Type}.
Context {num : PyFloat F} {np : Numpy F} {drv : Driver F complex Dev}.

Abbreviation model := (FreqShowModel F Dev).

Lemma clear_intensity_run (s : model) :
  _clear_intensity s = (Ok tt, cleared s).
Proof.
  unfold _clear_intensity, cleared. unfold_monad.
  destruct s as [w h mn mx lo hi r d o g out]; simpl.
  destruct mn, mx; reflexivity.
Qed.

Lemma set_nominal_center_freq_accepted
  (report : string -> string -> M (string * string))
  (freq_mhz : F) (s : model) (d' : Dev) :
  sdr_set_center_freq (actual_hz freq_mhz s) (sdr s) = (Ok tt, d') ->
  set_nominal_center_freq_with report freq_mhz s
  = (Ok None, cleared (with_sdr d' s)).
Proof.
  intros Hset. unfold set_nominal_center_freq_with.
  unfold try_except_IOError, bind at 1 2, get, call.
  fold (actual_hz freq_mhz s). rewrite Hset.
  unfold bind. rewrite clear_intensity_run. reflexivity.
Qed.

Lemma set_nominal_center_freq_failed
  (depth : nat) (freq_mhz : F) (s : model) (detail : string) (d0 : Dev) :
  sdr_set_center_freq (actual_hz freq_mhz s) (sdr s)
  = (Raise (IOError detail), d0) ->
  set_nominal_center_freq depth freq_mhz s
  = bind (report_error depth "set center frequency" detail)
      (fun e => ret (Some e)) (with_sdr d0 s).
Proof.
  intros Hset. unfold set_nominal_center_freq, set_nominal_center_freq_with.
  unfold try_except_IOError, bind at 1 2, get, call.
  fold (actual_hz freq_mhz s). rewrite Hset. reflexivity.
Qed.

Lemma set_sample_rate_rejected
  (depth : nat) (sample_rate_mhz : F) (s : model) (n : Z) :
  to_int (fmul sample_rate_mhz (of_int 1000000)) = Ok n ->
  sample_rate_ok n = false ->
  set_sample_rate depth sample_rate_mhz s = (Ok (Some sample_rate_error), s).
Proof.
  intros Hint Hbad. unfold set_sample_rate, set_sample_rate_with.
  unfold bind at 1, lift. rewrite Hint, Hbad. reflexivity.
Qed.

Lemma set_sample_rate_accepted
  (report : string -> string -> M (string * string))
  (sample_rate_mhz : F) (s : model) (n : Z) (d' : Dev) :
  to_int (fmul sample_rate_mhz (of_int 1000000)) = Ok n ->
  sample_rate_ok n = true ->
  sdr_set_sample_rate n (sdr s) = (Ok tt, d') ->
  set_sample_rate_with report sample_rate_mhz s = (Ok None, with_sdr d' s).
Proof.
  intros Hint Hok Hset. unfold set_sample_rate_with.
  unfold bind at 1, lift. rewrite Hint, Hok. simpl.
  unfold try_except_IOError, bind, call. rewrite Hset. reflexivity.
Qed.

Lemma set_sample_rate_failed
  (depth : nat) (sample_rate_mhz : F) (s : model) (n : Z)
  (detail : string) (d0 : Dev) :
  to_int (fmul sample_rate_mhz (of_int 1000000)) = Ok n ->
  sample_rate_ok n = true ->
  sdr_set_sample_rate n (sdr s) = (Raise (IOError detail), d0) ->
  set_sample_rate depth sample_rate_mhz s
  = bind (report_error depth "set sample rate" detail)
      (fun e => ret (Some e)) (with_sdr d0 s).
Proof.
  intros Hint Hok Hset. unfold set_sample_rate, set_sample_rate_with.
  unfold bind at 1, lift. rewrite Hint, Hok. simpl.
  unfold try_except_IOError, bind at 1, call. rewrite Hset. reflexivity.
Qed.

Lemma set_sample_rate_raised
  (depth : nat) (sample_rate_mhz : F) (s : model) (n : Z) (e : exn) (d0 : Dev) :
  to_int (fmul sample_rate_mhz (of_int 1000000)) = Ok n ->
  sample_rate_ok n = true ->
  sdr_set_sample_rate n (sdr s) = (Raise e, d0) ->
  (forall detail, e <> IOError detail) ->
  set_sample_rate depth sample_rate_mhz s = (Raise e, with_sdr d0 s).
Proof.
  intros Hint Hok Hset He. unfold set_sample_rate, set_sample_rate_with.
  unfold bind at 1, lift. rewrite Hint, Hok. simpl.
  unfold try_except_IOError, bind at 1, call. rewrite Hset.
  destruct e; try reflexivity. exfalso. eapply He. reflexivity.
Qed.

Lemma set_gain_auto_accepted
  (report : string -> string -> M (string * string)) (s : model) (d' : Dev) :
  sdr_set_manual_gain_enabled false (sdr s) = (Ok tt, d') ->
  set_gain_with report AUTO s
  = (Ok None, cleared (with_auto_gain true (with_sdr d' s))).
Proof.
  intros Hset. unfold set_gain_with.
  unfold bind at 1, call. rewrite Hset.
  unfold bind at 1, modify. unfold bind. rewrite clear_intensity_run.
  reflexivity.
Qed.

Lemma set_gain_auto_raised (depth : nat) (s : model) (e : exn) (d0 : Dev) :
  sdr_set_manual_gain_enabled false (sdr s) = (Raise e, d0) ->
  set_gain depth AUTO s = (Raise e, with_sdr d0 s).
Proof.
  intros Hset. unfold set_gain, set_gain_with.
  unfold bind at 1, call. rewrite Hset. reflexivity.
Qed.

Lemma set_gain_value_accepted
  (depth : nat) (g : F) (s : model) (d' : Dev) :
  sdr_set_gain g (sdr s) = (Ok tt, d') ->
  set_gain depth (Value g) s
  = (Ok None, with_sdr d' (cleared (with_auto_gain false s))).
Proof.
  intros Hset. unfold set_gain, set_gain_with.
  unfold bind at 1, modify. unfold bind at 1. rewrite clear_intensity_run.
  unfold try_except_IOError, bind, call.
  replace (sdr (cleared (with_auto_gain false s))) with (sdr s) by reflexivity.
  rewrite Hset. reflexivity.
Qed.

Lemma set_gain_value_failed
  (depth : nat) (g : F) (s : model) (detail : string) (d0 : Dev) :
  sdr_set_gain g (sdr s) = (Raise (IOError detail), d0) ->
  set_gain depth (Value g) s
  = bind (report_error depth "set gain" detail) (fun e => ret (Some e))
      (with_sdr d0 (cleared (with_auto_gain false s))).
Proof.
  intros Hset. unfold set_gain, set_gain_with.
  unfold bind at 1, modify. unfold bind at 1. rewrite clear_intensity_run.
  unfold try_except_IOError, bind at 1, call.
  replace (sdr (cleared (with_auto_gain false s))) with (sdr s) by reflexivity.
  rewrite Hset. reflexivity.
Qed.

(** One level of [report_error]: print, re-initialise, return the pair. *)
Lemma report_error_step (d : nat) (action error : string) (s : model) :
  report_error (S d) action error s
  = match _initialize_rtlsdr_with (report_error d)
            (with_stdout (stdout s ++ [("Can't " ++ action) ++ ": " ++ error]) s)
    with
    | (Ok _, s') => (Ok ("Can't " ++ action, error), s')
    | (Raise e, s') => (Raise e, s')
    end.
Proof. reflexivity. Qed.

(** [report_error] either raises or returns the summary and detail. *)
Lemma report_error_result (depth : nat) (action error : string) (s : model) :
  (exists e s', report_error depth action error s = (Raise e, s'))
  \/ (exists s', report_error depth action error s
                 = (Ok ("Can't " ++ action, error), s')).
Proof.
  destruct depth as [|d].
  - left. eexists _, _. reflexivity.
  - rewrite report_error_step.
    destruct (_initialize_rtlsdr_with _ _) as [[u|e] s1].
    + right. eexists. reflexivity.
    + left. eexists _, _. reflexivity.
Qed.

(** C9.  [set_min_intensity] with a number switches the minimum to
    fixed and stores the number; with ['AUTO'] it switches the minimum
    to automatic and clears it.  In both cases the range is cleared,
    and the maximum is cleared when the maximum is automatic.
    [set_max_intensity] is the same with the two bounds exchanged. *)
Theorem set_intensity_effects (s : model) (v : F) :
  set_min_intensity (Value v) s
  = (Ok tt,
     mkModel (width s) (height s) false (max_auto_scale s) (Some v)
       (if max_auto_scale s then None else max_intensity s)
       None (sdr s) (offsetted s) (auto_gain s) (stdout s))
  /\ set_max_intensity (Value v) s
     = (Ok tt,
        mkModel (width s) (height s) (min_auto_scale s) false
          (if min_auto_scale s then None else min_intensity s) (Some v)
          None (sdr s) (offsetted s) (auto_gain s) (stdout s))
  /\ set_min_intensity AUTO s
     = (Ok tt,
        mkModel (width s) (height s) true (max_auto_scale s) None
          (if max_auto_scale s then None else max_intensity s)
          None (sdr s) (offsetted s) (auto_gain s) (stdout s))
  /\ set_max_intensity AUTO s
     = (Ok tt,
        mkModel (width s) (height s) (min_auto_scale s) true
          (if min_auto_scale s then None else min_intensity s) None
          None (sdr s) (offsetted s) (auto_gain s) (stdout s)).
Proof.
  unfold set_min_intensity, set_max_intensity, set_min_intensity_of,
    set_max_intensity_of, converted.
  repeat split; unfold bind, modify, lift; rewrite clear_intensity_run;
    unfold cleared; simpl; reflexivity.
Qed.

(** C4, on the code as it is.  A [set_sample_rate] that the validation
    and the driver accept returns [None] and changes the device only:
    both intensity bounds and the range are what they were; the
    scaling state is not cleared. *)
Theorem set_sample_rate_keeps_scaling
  (depth : nat) (sample_rate_mhz : F) (s : model) (n : Z) (d' : Dev) :
  to_int (fmul sample_rate_mhz (of_int 1000000)) = Ok n ->
  sample_rate_ok n = true ->
  sdr_set_sample_rate n (sdr s) = (Ok tt, d') ->
  exists s' : model,
    set_sample_rate depth sample_rate_mhz s = (Ok None, s')
    /\ sdr s' = d'
    /\ min_intensity s' = min_intensity s
    /\ max_intensity s' = max_intensity s
    /\ range s' = range s.
Proof.
  intros Hint Hok Hset. exists (with_sdr d' s).
  split; [|repeat split].
  exact (set_sample_rate_accepted _ sample_rate_mhz s n d' Hint Hok Hset).
Qed.

End Configuration.

Section Acquisition.

Context {F Dev : Type}.
Context {num : PyFloat F} {np : Numpy F} {drv : Driver F complex Dev}.
Variable SDR_SAMPLE_SIZE : nat.

Abbreviation model := (FreqShowModel F Dev).

Lemma np_min_nonempty (a : list F) :
  a <> [] -> exists lo, np_min a = Ok lo.
Proof. destruct a; [congruence|]. intros _. eexists. reflexivity. Qed.

Lemma np_max_nonempty (a : list F) :
  a <> [] -> exists hi, np_max a = Ok hi.
Proof. destruct a; [congruence|]. intros _. eexists. reflexivity. Qed.

Lemma np_fft_nonempty (samples : list complex) :
  samples <> [] ->
  np_fft samples = Ok (map (fft_bin samples) (seq 0 (List.length samples))).
Proof. destruct samples; [congruence|]. reflexivity. Qed.

(** The frame [get_data] builds from the block read. *)
Lemma get_data_returns (s : model) (block : list complex) (d' : Dev) :
  sdr_read_samples SDR_SAMPLE_SIZE (sdr s) = (Ok block, d') ->
  firstn (width s + 2) block <> [] ->
  forall frame,
  frame = map decibels (fftshift (slice_1_m1 (map absolute
            (map (fft_bin (firstn (width s + 2) block))
               (seq 0 (List.length (firstn (width s + 2) block))))))) ->
  frame <> [] ->
  (min_auto_scale s = false -> min_intensity s <> None) ->
  (max_auto_scale s = false -> max_intensity s <> None) ->
  exists s', get_data SDR_SAMPLE_SIZE s = (Ok frame, s') /\ sdr s' = d'.
Proof.
  intros Hread Hsamples frame Hframe Hne Hlo Hhi.
  unfold get_data. unfold_monad. rewrite Hread.
  rewrite (np_fft_nonempty _ Hsamples). cbv zeta. rewrite <- Hframe.
  destruct (np_min_nonempty _ Hne) as [lo Hmin].
  destruct (np_max_nonempty _ Hne) as [hi Hmax].
  rewrite Hmin, Hmax.
  destruct s as [w h mn mx mi ma r d o g out]; simpl in *.
  destruct mn, mx, mi, ma; simpl;
    try (exfalso; (apply Hlo + apply Hhi); reflexivity);
    eexists; split; reflexivity.
Qed.

(** C8.  When [read_samples] raises, [get_data] raises the same
    exception: no [(summary, detail)] pair is returned, and the object
    is left as it was but for the device, which is in the state the
    failed read left it in (it is not opened again, and no setter is
    called on it). *)
Theorem get_data_read_failure (s : model) (e : exn) (d' : Dev) :
  sdr_read_samples SDR_SAMPLE_SIZE (sdr s) = (Raise e, d') ->
  get_data SDR_SAMPLE_SIZE s = (Raise e, with_sdr d' s).
Proof.
  intros Hread. unfold get_data. unfold_monad. rewrite Hread. reflexivity.
Qed.

(** C1, as the code has it.  [get_data] asks the driver for
    [SDR_SAMPLE_SIZE] samples and keeps the first [width + 2] of the
    block it gets.  When the block holds that many samples, the width
    is positive and the fixed bounds are set, the call returns the
    frame made of the magnitudes of the transform of these samples,
    without the first and the last, shifted circularly by half the
    width and converted to decibels.  The frame has [width] values: the
    value at index [(i + width / 2) mod width] comes from coefficient
    [i + 1] of the transform, so that the first coefficient kept,
    coefficient 1, is at the middle index. *)
Theorem get_data_frame (s : model) (block : list complex) (d' : Dev) :
  sdr_read_samples SDR_SAMPLE_SIZE (sdr s) = (Ok block, d') ->
  width s + 2 <= List.length block ->
  0 < width s ->
  (min_auto_scale s = false -> min_intensity s <> None) ->
  (max_auto_scale s = false -> max_intensity s <> None) ->
  let samples := firstn (width s + 2) block in
  exists (frame : list F) (s' : model),
    get_data SDR_SAMPLE_SIZE s = (Ok frame, s')
    /\ sdr s' = d'
    /\ List.length samples = width s + 2
    /\ frame = map decibels (fftshift (slice_1_m1 (map absolute
                 (map (fft_bin samples) (seq 0 (List.length samples))))))
    /\ List.length frame = width s
    /\ forall i, i < width s ->
         nth_error frame ((i + width s / 2) mod width s)
         = Some (decibels (absolute (fft_bin samples (S i)))).
Proof.
  intros Hread Hlen Hw Hlo Hhi samples.
  assert (Hs : List.length samples = width s + 2).
  { unfold samples. rewrite length_firstn. lia. }
  set (mags := map absolute (map (fft_bin samples) (seq 0 (List.length samples)))).
  assert (Hm : List.length mags = width s + 2).
  { unfold mags. rewrite !length_map, length_seq. exact Hs. }
  set (frame := map decibels (fftshift (slice_1_m1 mags))).
  assert (Hf : List.length frame = width s).
  { unfold frame. rewrite length_map, length_fftshift, length_slice_1_m1. lia. }
  assert (Hsne : samples <> []).
  { intros E. rewrite E in Hs. simpl in Hs. lia. }
  assert (Hfne : frame <> []).
  { intros E. rewrite E in Hf. simpl in Hf. lia. }
  destruct (get_data_returns s block d' Hread Hsne frame eq_refl Hfne Hlo Hhi)
    as [s' [Hrun Hdev]].
  exists frame, s'. repeat split; try assumption; try reflexivity.
  intros i Hi. unfold frame.
  rewrite nth_error_map.
  assert (Hsl : List.length (slice_1_m1 mags) = width s).
  { rewrite length_slice_1_m1. lia. }
  rewrite <- Hsl at 1 2.
  rewrite nth_error_fftshift by lia.
  rewrite nth_error_slice_1_m1 by lia.
  unfold mags. rewrite !nth_error_map.
  rewrite nth_error_seq.
  destruct (Nat.ltb_spec (S i) (List.length samples)) as [_|Hge]; [|lia].
  reflexivity.
Qed.

End Acquisition.

Section AutoScale.

Context {Dev : Type}.
Context {np : Numpy spec_float} {drv : Driver spec_float complex Dev}.
Variable SDR_SAMPLE_SIZE : nat.

Lemma compare_cont_refl (m : positive) : Pos.compare_cont Eq m m = Eq.
Proof. exact (Pos.compare_refl m). Qed.

Lemma SFltb_irrefl (x : spec_float) : SFltb x x = false.
Proof.
  unfold SFltb.
  destruct x as [s|s| |s m e]; simpl; try reflexivity.
  - destruct s; reflexivity.
  - rewrite Z.compare_refl, compare_cont_refl. destruct s; reflexivity.
Qed.

Lemma py_min_infinity (lo : spec_float) : py_min lo B64.infinity = lo.
Proof.
  unfold py_min. simpl. unfold SFltb.
  destruct lo as [s|s| |s m e]; try reflexivity; destruct s; reflexivity.
Qed.

Lemma py_max_neg_infinity (hi : spec_float) :
  py_max hi (SFopp B64.infinity) = hi.
Proof.
  unfold py_max. simpl. unfold SFltb.
  destruct hi as [s|s| |s m e]; try reflexivity; destruct s; reflexivity.
Qed.

Lemma py_min_not_above (lo previous : spec_float) :
  SFltb previous (py_min lo previous) = false.
Proof.
  unfold py_min. simpl.
  destruct (SFltb previous lo) eqn:E; [apply SFltb_irrefl|exact E].
Qed.

Lemma py_max_not_below (hi previous : spec_float) :
  SFltb (py_max hi previous) previous = false.
Proof.
  unfold py_max. simpl.
  destruct (SFltb hi previous) eqn:E; [apply SFltb_irrefl|exact E].
Qed.

(** One call of [get_data]: a bound that is not automatic is left as it
    is, however the call ends; when the call returns a frame, an
    automatic minimum becomes [min] of [np.min] of the frame and the
    previous minimum, an absent one counting as plus infinity, and
    symmetrically for the maximum. *)
Lemma get_data_bounds
  (s s' : FreqShowModel spec_float Dev) (r : result (list spec_float)) :
  get_data SDR_SAMPLE_SIZE s = (r, s') ->
  (min_auto_scale s = false -> min_intensity s' = min_intensity s)
  /\ (max_auto_scale s = false -> max_intensity s' = max_intensity s)
  /\ (forall frame, r = Ok frame -> min_auto_scale s = true ->
        exists lo, np_min frame = Ok lo
          /\ min_intensity s'
             = Some (py_min lo (previous_or B64.infinity (min_intensity s))))
  /\ (forall frame, r = Ok frame -> max_auto_scale s = true ->
        exists hi, np_max frame = Ok hi
          /\ max_intensity s'
             = Some (py_max hi
                       (previous_or (SFopp B64.infinity) (max_intensity s))))
  /\ (forall p, min_intensity s = Some p ->
        exists q, min_intensity s' = Some q /\ SFltb p q = false)
  /\ (forall p, max_intensity s = Some p ->
        exists q, max_intensity s' = Some q /\ SFltb q p = false).
Proof.
  unfold get_data. unfold_monad. intros Hrun.
  destruct (sdr_read_samples SDR_SAMPLE_SIZE (sdr s)) as [[block|e] d].
  2:{ inversion Hrun; subst; clear Hrun. simpl.
      repeat split; try reflexivity; intros; try discriminate;
        (eexists; split; [eassumption|apply SFltb_irrefl]). }
  destruct (np_fft (firstn (width s + 2) block)) as [spectrum|e].
  2:{ inversion Hrun; subst; clear Hrun. simpl.
      repeat split; try reflexivity; intros; try discriminate;
        (eexists; split; [eassumption|apply SFltb_irrefl]). }
  cbv zeta in Hrun.
  set (frame := map decibels _) in Hrun.
  destruct s as [w h mn mx mi ma rg d0 o g out]; simpl in *.
  destruct mn, mx; simpl in Hrun;
    destruct (np_min frame) as [lo|e1] eqn:Hmin;
    destruct (np_max frame) as [hi|e2] eqn:Hmax;
    destruct mi as [p1|], ma as [p2|]; simpl in Hrun;
    inversion Hrun; subst; clear Hrun; simpl;
    (repeat split; try reflexivity; intros; try discriminate;
     repeat match goal with
       | H : Ok _ = Ok _ |- _ => inversion H; subst; clear H
       | H : Some _ = Some _ |- _ => inversion H; subst; clear H
       end;
     eexists; split;
     first [ eassumption | reflexivity
           | rewrite py_min_infinity; reflexivity
           | rewrite py_max_neg_infinity; reflexivity
           | apply SFltb_irrefl | apply py_min_not_above
           | apply py_max_not_below ]).
Qed.

End AutoScale.

Section Binary64.

Context {Dev : Type}.
Context {np : Numpy spec_float} {drv : Driver spec_float complex Dev}.

Abbreviation model := (FreqShowModel spec_float Dev).

Lemma initialize_rtlsdr_run
  (report : string -> string -> M (string * string)) (s : model) (d4 : Dev) :
  reopened (sdr s) d4 ->
  _initialize_rtlsdr_with report s = (Ok tt, defaults d4 s).
Proof.
  intros (d1 & d2 & d3 & Hopen & Hfreq & Hrate & Hgain).
  unfold _initialize_rtlsdr_with.
  unfold bind at 1, call. rewrite Hopen.
  unfold bind at 1, modify.
  unfold bind at 1.
  rewrite (set_nominal_center_freq_accepted report (of_int 145)
             (with_offsetted false (with_sdr d1 s)) d2) by exact Hfreq.
  unfold bind at 1.
  rewrite (set_sample_rate_accepted report (fdiv (of_int 24) (of_int 10))
             (cleared (with_sdr d2 (with_offsetted false (with_sdr d1 s))))
             2400000%Z d3) by (reflexivity || exact Hrate).
  unfold bind at 1.
  rewrite (set_gain_auto_accepted report _ d4) by exact Hgain.
  unfold ret, defaults, cleared.
  destruct s as [w h mn mx lo hi r d o g out]; simpl.
  destruct mn, mx; reflexivity.
Qed.

Lemma report_error_recovers
  (depth : nat) (action detail : string) (s : model) (d4 : Dev) :
  reopened (sdr s) d4 ->
  report_error (S depth) action detail s
  = (Ok ("Can't " ++ action, detail), defaults d4 (reported action detail s)).
Proof.
  intros Hre. rewrite report_error_step.
  rewrite initialize_rtlsdr_run with (d4 := d4) by exact Hre.
  reflexivity.
Qed.

Lemma initialize_rtlsdr_cannot_open
  (report : string -> string -> M (string * string)) (s : model)
  (e : exn) (d1 : Dev) :
  RtlSdr (sdr s) = (Raise e, d1) ->
  _initialize_rtlsdr_with report s = (Raise e, with_sdr d1 s).
Proof.
  intros Hopen. unfold _initialize_rtlsdr_with.
  unfold bind at 1, call. rewrite Hopen. reflexivity.
Qed.

Lemma sample_rate_ok_iff (n : Z) :
  sample_rate_ok n = true
  <-> ((225001 <= n <= 300000)%Z \/ (900001 <= n <= 3200000)%Z).
Proof.
  unfold sample_rate_ok.
  rewrite orb_true_iff, !andb_true_iff, !Z.leb_le. tauto.
Qed.

Lemma set_sample_rate_no_validation_error
  (depth : nat) (r : spec_float) (s : model) (n : Z) :
  to_int (fmul r (of_int 1000000)) = Ok n ->
  sample_rate_ok n = true ->
  fst (set_sample_rate depth r s) <> Ok (Some sample_rate_error).
Proof.
  intros Hint Hok.
  destruct (sdr_set_sample_rate n (sdr s)) as [[[]|e] d0] eqn:Hset.
  - unfold set_sample_rate.
    rewrite (set_sample_rate_accepted _ r s n d0 Hint Hok Hset). discriminate.
  - destruct e as [detail| | | |];
      try (rewrite (set_sample_rate_raised depth r s n _ d0 Hint Hok Hset);
           [discriminate|intros detail; discriminate]).
    rewrite (set_sample_rate_failed depth r s n detail d0 Hint Hok Hset).
    unfold bind, ret.
    destruct (report_error_result depth "set sample rate" detail (with_sdr d0 s))
      as [(e & s' & H)|(s' & H)]; rewrite H; simpl; discriminate.
Qed.

(** C3, as the code has it.  With [n = int(r * 1000000.0)],
    [set_sample_rate r] returns the validation error exactly when [n]
    is outside 225001..300000 and 900001..3200000, and then the
    object, the device included, is untouched.  [0.3] gives 300000 and
    is handed to the driver; so is [0.3000001], which [int] truncates
    to 300000; [0.300001] gives 300001 and is rejected. *)
Theorem set_sample_rate_validation (depth : nat) (r : spec_float) (s : model) :
  (forall n : Z,
     to_int (fmul r (of_int 1000000)) = Ok n ->
     (fst (set_sample_rate depth r s) = Ok (Some sample_rate_error)
      <-> ~ ((225001 <= n <= 300000)%Z \/ (900001 <= n <= 3200000)%Z))
     /\ (~ ((225001 <= n <= 300000)%Z \/ (900001 <= n <= 3200000)%Z) ->
         snd (set_sample_rate depth r s) = s))
  /\ (forall d' : Dev,
        sdr_set_sample_rate 300000%Z (sdr s) = (Ok tt, d') ->
        set_sample_rate depth (B64.decimal 3 10) s = (Ok None, with_sdr d' s)
        /\ set_sample_rate depth (B64.decimal 3000001 10000000) s
           = (Ok None, with_sdr d' s))
  /\ set_sample_rate depth (B64.decimal 300001 1000000) s
     = (Ok (Some sample_rate_error), s).
Proof.
  split; [|split].
  - intros n Hint. rewrite <- sample_rate_ok_iff.
    destruct (sample_rate_ok n) eqn:Hok.
    + split; [split|].
      * intros Hres. exfalso.
        exact (set_sample_rate_no_validation_error depth r s n Hint Hok Hres).
      * intros Hno. exfalso. apply Hno. reflexivity.
      * intros Hno. exfalso. apply Hno. reflexivity.
    + rewrite (set_sample_rate_rejected depth r s n Hint Hok).
      split; [split|]; intros; try reflexivity. discriminate.
  - intros d' Hset. split.
    + apply (set_sample_rate_accepted _ (B64.decimal 3 10) s 300000%Z d');
        [reflexivity|reflexivity|exact Hset].
    + apply (set_sample_rate_accepted _ (B64.decimal 3000001 10000000) s
               300000%Z d'); [reflexivity|reflexivity|exact Hset].
  - apply (set_sample_rate_rejected depth (B64.decimal 300001 1000000) s
             300001%Z); reflexivity.
Qed.

(** C7, as the code has it.  When the driver call guarded by the
    setter ([set_center_freq], [set_sample_rate] or [set_gain]) raises
    IOError and the driver calls of the re-initialisation succeed, the
    setter returns the pair of ["Can't "] followed by the action and of
    the detail of the error, having printed them, opened the device
    again and applied the defaults (offset off, 145 MHz, 2.4 MHz,
    automatic gain, scaling cleared).  When the driver accepts the
    call, each setter returns [None]. *)
Theorem setters_report_hardware_failure (depth : nat) (s : model) :
  (forall (f : spec_float) (detail : string) (d0 d4 : Dev),
     sdr_set_center_freq (actual_hz f s) (sdr s) = (Raise (IOError detail), d0) ->
     reopened d0 d4 ->
     set_nominal_center_freq (S depth) f s
     = (Ok (Some ("Can't set center frequency", detail)),
        defaults d4 (reported "set center frequency" detail s)))
  /\ (forall (r : spec_float) (n : Z) (detail : string) (d0 d4 : Dev),
     to_int (fmul r (of_int 1000000)) = Ok n ->
     sample_rate_ok n = true ->
     sdr_set_sample_rate n (sdr s) = (Raise (IOError detail), d0) ->
     reopened d0 d4 ->
     set_sample_rate (S depth) r s
     = (Ok (Some ("Can't set sample rate", detail)),
        defaults d4 (reported "set sample rate" detail s)))
  /\ (forall (g : spec_float) (detail : string) (d0 d4 : Dev),
     sdr_set_gain g (sdr s) = (Raise (IOError detail), d0) ->
     reopened d0 d4 ->
     set_gain (S depth) (Value g) s
     = (Ok (Some ("Can't set gain", detail)),
        defaults d4 (reported "set gain" detail s)))
  /\ (forall (f : spec_float) (d' : Dev),
     sdr_set_center_freq (actual_hz f s) (sdr s) = (Ok tt, d') ->
     fst (set_nominal_center_freq depth f s) = Ok None)
  /\ (forall (r : spec_float) (n : Z) (d' : Dev),
     to_int (fmul r (of_int 1000000)) = Ok n ->
     sample_rate_ok n = true ->
     sdr_set_sample_rate n (sdr s) = (Ok tt, d') ->
     fst (set_sample_rate depth r s) = Ok None)
  /\ (forall (g : spec_float) (d' : Dev),
     sdr_set_gain g (sdr s) = (Ok tt, d') ->
     fst (set_gain depth (Value g) s) = Ok None)
  /\ (forall d' : Dev,
     sdr_set_manual_gain_enabled false (sdr s) = (Ok tt, d') ->
     fst (set_gain depth AUTO s) = Ok None).
Proof.
  repeat split.
  - intros f detail d0 d4 Hset Hre.
    rewrite (set_nominal_center_freq_failed (S depth) f s detail d0 Hset).
    unfold bind at 1.
    rewrite report_error_recovers with (d4 := d4) by exact Hre.
    reflexivity.
  - intros r n detail d0 d4 Hint Hok Hset Hre.
    rewrite (set_sample_rate_failed (S depth) r s n detail d0 Hint Hok Hset).
    unfold bind at 1.
    rewrite report_error_recovers with (d4 := d4) by exact Hre.
    reflexivity.
  - intros g detail d0 d4 Hset Hre.
    rewrite (set_gain_value_failed (S depth) g s detail d0 Hset).
    unfold bind at 1.
    rewrite report_error_recovers with (d4 := d4) by exact Hre.
    unfold ret, defaults, reported, cleared.
    destruct s as [w h mn mx lo hi rg d o a out]; simpl.
    destruct mn, mx; reflexivity.
  - intros f d' Hset. unfold set_nominal_center_freq.
    rewrite (set_nominal_center_freq_accepted _ f s d' Hset). reflexivity.
  - intros r n d' Hint Hok Hset. unfold set_sample_rate.
    rewrite (set_sample_rate_accepted _ r s n d' Hint Hok Hset). reflexivity.
  - intros g d' Hset.
    rewrite (set_gain_value_accepted depth g s d' Hset). reflexivity.
  - intros d' Hset. unfold set_gain.
    rewrite (set_gain_auto_accepted _ s d' Hset). reflexivity.
Qed.


End Binary64.

(** ** Rounding in binary64

    The operations of [SpecFloat] round to nearest.  For positive normal
    operands and a result away from underflow and overflow, the float
    returned is within a relative error of 2^-53 of the exact result. *)

Section Rounding.

Local Open Scope Z_scope.

(** *** Powers of two and digits *)

Lemma pow2_pos (e : Z) : (0 < pow2 e)%Q.
Proof. apply Qpower_0_lt. reflexivity. Qed.

Lemma pow2_add (a b : Z) : (pow2 (a + b) == pow2 a * pow2 b)%Q.
Proof. apply Qpower_plus. discriminate. Qed.

Lemma pow2_inject (n : Z) : 0 <= n -> (pow2 n == inject_Z (2 ^ n))%Q.
Proof. intros H. symmetry. apply (Zpower_Qpower 2 n H). Qed.

Lemma pow2_succ (e : Z) : (pow2 (e + 1) == 2 * pow2 e)%Q.
Proof. rewrite pow2_add. change (pow2 1) with 2%Q. ring. Qed.

Lemma pow2_le (a b : Z) : a <= b -> (pow2 a <= pow2 b)%Q.
Proof.
  intros H. replace b with (a + (b - a)) by lia. rewrite pow2_add.
  rewrite (pow2_inject (b - a)) by lia.
  assert (1 <= 2 ^ (b - a)) by (apply (Z.pow_le_mono_r 2 0 (b - a)); lia).
  pose proof (pow2_pos a).
  assert (inject_Z 1 <= inject_Z (2 ^ (b - a)))%Q by (rewrite <- Zle_Qle; lia).
  change (inject_Z 1) with 1%Q in *. nra.
Qed.

Lemma pow2_lt (a b : Z) : a < b -> (pow2 a < pow2 b)%Q.
Proof.
  intros H. pose proof (pow2_le (a + 1) b ltac:(lia)) as Hle.
  rewrite pow2_succ in Hle. pose proof (pow2_pos a). lra.
Qed.

Lemma inject_Z_double (p : positive) :
  (inject_Z (Zpos p~0) == 2 * inject_Z (Zpos p))%Q.
Proof. unfold Qeq. simpl. lia. Qed.

Lemma inject_Z_double_1 (p : positive) :
  (inject_Z (Zpos p~1) == 2 * inject_Z (Zpos p) + 1)%Q.
Proof. unfold Qeq. simpl. lia. Qed.

(** A mantissa of [d] binary digits lies between 2^(d-1) and 2^d. *)
Lemma digits2_pos_spec (m : positive) :
  2 ^ (Zpos (digits2_pos m) - 1) <= Zpos m < 2 ^ Zpos (digits2_pos m).
Proof.
  induction m as [m IH|m IH|]; simpl digits2_pos.
  - rewrite Pos2Z.inj_succ.
    replace (Z.succ (Zpos (digits2_pos m)) - 1) with (Z.succ (Zpos (digits2_pos m) - 1)) by lia.
    rewrite !Z.pow_succ_r by lia. lia.
  - rewrite Pos2Z.inj_succ.
    replace (Z.succ (Zpos (digits2_pos m)) - 1) with (Z.succ (Zpos (digits2_pos m) - 1)) by lia.
    rewrite !Z.pow_succ_r by lia. lia.
  - simpl. lia.
Qed.

Lemma digits2_pos_unique (m : positive) (d : Z) :
  2 ^ (d - 1) <= Zpos m < 2 ^ d -> Zpos (digits2_pos m) = d.
Proof.
  intros [Hlo Hhi]. pose proof (digits2_pos_spec m) as [Hlo' Hhi'].
  assert (0 < d).
  { destruct (Z_lt_le_dec 0 d) as [|Hd]; [assumption|].
    exfalso. destruct (Z.eq_dec d 0) as [->|]; [simpl in Hhi; lia|].
    rewrite Z.pow_neg_r in Hhi by lia. lia. }
  destruct (Z.lt_trichotomy (Zpos (digits2_pos m)) d) as [Hlt|[Heq|Hgt]];
    [|assumption|].
  - exfalso.
    assert (2 ^ Zpos (digits2_pos m) <= 2 ^ (d - 1))
      by (apply Z.pow_le_mono_r; lia). lia.
  - exfalso.
    assert (2 ^ d <= 2 ^ (Zpos (digits2_pos m) - 1))
      by (apply Z.pow_le_mono_r; lia). lia.
Qed.

(** One step of the right shift halves the located value. *)
Lemma shr_1_located (m : Z) (r s : bool) (t : Q) :
  0 <= m ->
  located m (loc_of_shr_record (Build_shr_record m r s)) t ->
  0 <= shr_m (shr_1 (Build_shr_record m r s))
  /\ located (shr_m (shr_1 (Build_shr_record m r s)))
       (loc_of_shr_record (shr_1 (Build_shr_record m r s))) (t * (1 # 2)).
Proof.
  intros Hm Hloc.
  destruct m as [|p|p]; [| |lia].
  - destruct r, s; simpl in *; (split; [lia|]);
      change (inject_Z 0) with 0%Q in *; lra.
  - destruct p as [p|p|].
    + pose proof (inject_Z_double_1 p) as E.
      destruct r, s; simpl in *; (split; [lia|]); lra.
    + pose proof (inject_Z_double p) as E.
      destruct r, s; simpl in *; (split; [lia|]); lra.
    + destruct r, s; simpl in *; (split; [lia|]);
        change (inject_Z 1) with 1%Q in *; change (inject_Z 0) with 0%Q in *; lra.
Qed.
Lemma located_proper (m : Z) (l : location) (t t' : Q) :
  (t == t')%Q -> located m l t -> located m l t'.
Proof.
  intros E. unfold located. destruct l as [|[| |]]; intros H; lra.
Qed.

Lemma located_within (m : Z) (l : location) (t : Q) :
  located m l t -> (inject_Z m <= t /\ t < inject_Z m + 1)%Q.
Proof. unfold located. destruct l as [|[| |]]; intros H; lra. Qed.

Lemma shr_1_located_rec (mrs : shr_record) (t : Q) :
  0 <= shr_m mrs -> located_rec mrs t ->
  0 <= shr_m (shr_1 mrs) /\ located_rec (shr_1 mrs) (t * (1 # 2)).
Proof. destruct mrs as [m r s]. apply shr_1_located. Qed.

Lemma pow2_opp_double (p : positive) :
  (pow2 (- Zpos p~0) == pow2 (- Zpos p) * pow2 (- Zpos p))%Q.
Proof. rewrite <- pow2_add. replace (- Zpos p~0) with (- Zpos p + - Zpos p) by lia. reflexivity. Qed.

Lemma pow2_opp_double_1 (p : positive) :
  (pow2 (- Zpos p~1) == (1 # 2) * pow2 (- Zpos p) * pow2 (- Zpos p))%Q.
Proof.
  replace (- Zpos p~1) with (-1 + (- Zpos p + - Zpos p)) by lia.
  rewrite !pow2_add. change (pow2 (-1)) with (1 # 2)%Q. ring.
Qed.

(** Shifting right by [p] places divides the located value by 2^p. *)
Lemma iter_shr_located (p : positive) :
  forall (mrs : shr_record) (t : Q),
    0 <= shr_m mrs -> located_rec mrs t ->
    0 <= shr_m (iter_pos shr_1 p mrs)
    /\ located_rec (iter_pos shr_1 p mrs) (t * pow2 (- Zpos p)).
Proof.
  induction p as [p IH|p IH|]; intros mrs t Hm Hloc; simpl iter_pos.
  - destruct (shr_1_located_rec mrs t Hm Hloc) as [H1 L1].
    destruct (IH _ _ H1 L1) as [H2 L2].
    destruct (IH _ _ H2 L2) as [H3 L3].
    split; [exact H3|].
    eapply located_proper; [|exact L3].
    rewrite pow2_opp_double_1. ring.
  - destruct (IH _ _ Hm Hloc) as [H2 L2].
    destruct (IH _ _ H2 L2) as [H3 L3].
    split; [exact H3|].
    eapply located_proper; [|exact L3].
    rewrite pow2_opp_double. ring.
  - destruct (shr_1_located_rec mrs t Hm Hloc) as [H1 L1].
    split; [exact H1|].
    eapply located_proper; [|exact L1].
    change (pow2 (-1)) with (1 # 2)%Q. reflexivity.
Qed.

Lemma located_record_of_loc (m : Z) (l : location) (t : Q) :
  located m l t ->
  shr_m (shr_record_of_loc m l) = m /\ located_rec (shr_record_of_loc m l) t.
Proof.
  unfold located_rec. destruct l as [|[| |]]; simpl; intros H; (split; [reflexivity|exact H]).
Qed.

(** Rounding to nearest moves a located value by at most one half. *)
Lemma round_nearest_even_located (m : Z) (l : location) (t : Q) :
  located m l t ->
  m <= round_nearest_even m l <= m + 1
  /\ (inject_Z (round_nearest_even m l) - (1 # 2) <= t
      /\ t <= inject_Z (round_nearest_even m l) + (1 # 2))%Q.
Proof.
  unfold located, round_nearest_even.
  assert (E : (inject_Z (m + 1) == inject_Z m + 1)%Q)
    by (rewrite inject_Z_plus; reflexivity).
  destruct l as [|[| |]]; intros H.
  - split; [lia|lra].
  - destruct (Z.even m); (split; [lia|lra]).
  - split; [lia|lra].
  - split; [lia|lra].
Qed.

Lemma fexp_normal (x : Z) : -1074 <= x - 53 -> fexp 53 1024 x = x - 53.
Proof. unfold fexp, emin. lia. Qed.

(** The first shift of [binary_round_aux] on a mantissa of at least 53
    digits, away from underflow: 53 digits are kept. *)
Lemma shr_fexp_spec (m : positive) (e : Z) (l : location) (t : Q) :
  located (Zpos m) l t ->
  53 <= Zpos (digits2_pos m) ->
  -1074 <= Zpos (digits2_pos m) + e - 53 ->
  exists mrs : shr_record,
    shr_fexp 53 1024 (Zpos m) e l = (mrs, Zpos (digits2_pos m) + e - 53)
    /\ 0 <= shr_m mrs
    /\ located_rec mrs (t * pow2 (53 - Zpos (digits2_pos m))).
Proof.
  intros Hloc Hd He. unfold shr_fexp. simpl Zdigits2.
  rewrite fexp_normal by lia.
  destruct (located_record_of_loc _ _ _ Hloc) as [Hm Hrec].
  remember (Zpos (digits2_pos m)) as d eqn:Ed.
  destruct (Z.eq_dec d 53) as [->|Hne].
  - replace (53 + e - 53 - e) with 0 by lia. simpl shr.
    eexists. split; [f_equal; lia|]. split; [rewrite Hm; lia|].
    eapply located_proper; [|exact Hrec].
    change (pow2 (53 - 53)) with 1%Q. ring.
  - assert (Hn : d + e - 53 - e = Zpos (Z.to_pos (d - 53)))
      by (rewrite Z2Pos.id; lia).
    rewrite Hn. simpl shr.
    destruct (iter_shr_located (Z.to_pos (d - 53)) _ t
                ltac:(rewrite Hm; lia) Hrec) as [H1 L1].
    eexists. split; [f_equal; rewrite Z2Pos.id; lia|]. split; [exact H1|].
    eapply located_proper; [|exact L1].
    rewrite Z2Pos.id by lia. replace (- (d - 53)) with (53 - d) by lia.
    reflexivity.
Qed.
Lemma pow2_exponent_lt (a b : Z) : (pow2 a < pow2 b)%Q -> a < b.
Proof.
  intros H. destruct (Z_lt_le_dec a b) as [|Hge]; [assumption|].
  pose proof (pow2_le b a Hge). lra.
Qed.

Lemma inject_Z_pow2 (n : Z) : 0 <= n -> (inject_Z (2 ^ n) == pow2 n)%Q.
Proof. intros H. symmetry. apply pow2_inject. exact H. Qed.

(** The second shift of [binary_round_aux]: a mantissa that the
    rounding carried to 2^53 is brought back to 53 digits. *)
Lemma renormalise (m1 e1 : Z) :
  2 ^ 52 <= m1 <= 2 ^ 53 -> -1074 <= e1 ->
  exists (mrs : shr_record) (e2 : Z) (m2 : positive),
    shr_fexp 53 1024 m1 e1 loc_Exact = (mrs, e2)
    /\ shr_m mrs = Zpos m2
    /\ 2 ^ 52 <= Zpos m2 < 2 ^ 53
    /\ -1074 <= e2
    /\ (inject_Z (Zpos m2) * pow2 e2 == inject_Z m1 * pow2 e1)%Q.
Proof.
  intros Hm He. destruct m1 as [|q|q]; [lia| |lia].
  destruct (Z.eq_dec (Zpos q) (2 ^ 53)) as [E|Hne].
  - inversion E; subst q. exists (Build_shr_record (2 ^ 52) false false), (e1 + 1), (Z.to_pos (2 ^ 52)).
    split.
    { unfold shr_fexp. simpl Zdigits2.
      change (Zpos (digits2_pos 9007199254740992)) with 54.
      rewrite fexp_normal by lia.
      replace (54 + e1 - 53 - e1) with 1 by lia. reflexivity. }
    split; [reflexivity|]. split; [simpl; lia|]. split; [lia|].
    rewrite pow2_succ. change (inject_Z (Zpos (Z.to_pos (2 ^ 52)))) with (inject_Z (2 ^ 52)).
    change (inject_Z (2 ^ 52)) with (4503599627370496 # 1)%Q.
    change (inject_Z 9007199254740992) with (9007199254740992 # 1)%Q.
    ring.
  - exists (Build_shr_record (Zpos q) false false), e1, q.
    split.
    { unfold shr_fexp. simpl Zdigits2.
      rewrite (digits2_pos_unique q 53) by (change (53 - 1) with 52; lia).
      rewrite fexp_normal by lia.
      replace (53 + e1 - 53 - e1) with 0 by lia. reflexivity. }
    split; [reflexivity|]. split; [lia|]. split; [lia|]. reflexivity.
Qed.

(** Rounding to nearest of a located value whose mantissa has at least
    53 digits, away from underflow and overflow: the result is a normal
    number within a relative error of 2^-53. *)
Lemma round_aux_normal (s : bool) (m : positive) (e : Z) (l : location) (t : Q) :
  located (Zpos m) l t ->
  53 <= Zpos (digits2_pos m) ->
  -1074 <= Zpos (digits2_pos m) + e - 53 ->
  (t * pow2 e * (1 + pow2 (-53)) < pow2 1024)%Q ->
  exists (m' : positive) (e' : Z),
    binary_round_aux 53 1024 s (Zpos m) e l = S754_finite s m' e'
    /\ 2 ^ 52 <= Zpos m' < 2 ^ 53
    /\ -1074 <= e' <= 971
    /\ (Qabs (inject_Z (Zpos m') * pow2 e' - t * pow2 e)
        <= pow2 (-53) * (t * pow2 e))%Q.
Proof.
  intros Hloc Hd He Hover.
  destruct (shr_fexp_spec m e l t Hloc Hd He) as (mrs & Hshr & Hpos & Hrec).
  pose proof (digits2_pos_spec m) as [Hlo Hhi].
  remember (Zpos (digits2_pos m)) as d eqn:Ed.
  set (T := (t * pow2 (53 - d))%Q) in *.
  set (e1 := d + e - 53) in *.
  (* the scaled value lies between 2^52 and 2^53 *)
  assert (Ht : (t * pow2 e == T * pow2 e1)%Q).
  { unfold T, e1. rewrite <- Qmult_assoc, <- pow2_add.
    replace (53 - d + (d + e - 53)) with e by lia. reflexivity. }
  destruct (located_within _ _ _ Hloc) as [Htlo Hthi].
  assert (HT : (pow2 52 <= T /\ T < pow2 53)%Q).
  { unfold T.
    assert (Hlo' : (pow2 (d - 1) <= t)%Q).
    { rewrite pow2_inject by lia. rewrite Zle_Qle in Hlo. lra. }
    assert (Hhi' : (t < pow2 d)%Q).
    { rewrite pow2_inject by lia.
      assert (Zpos m + 1 <= 2 ^ d) as H by lia.
      rewrite Zle_Qle, inject_Z_plus in H. change (inject_Z 1) with 1%Q in H. lra. }
    pose proof (pow2_pos (53 - d)) as Hp.
    assert (E52 : (pow2 52 == pow2 (d - 1) * pow2 (53 - d))%Q)
      by (rewrite <- pow2_add; replace (d - 1 + (53 - d)) with 52 by lia;
          reflexivity).
    assert (E53 : (pow2 53 == pow2 d * pow2 (53 - d))%Q)
      by (rewrite <- pow2_add; replace (d + (53 - d)) with 53 by lia;
          reflexivity).
    rewrite E52, E53. split; nra. }
  unfold located_rec in Hrec.
  destruct (located_within _ _ _ Hrec) as [Hrlo Hrhi].
  destruct (round_nearest_even_located _ _ _ Hrec) as [Hm1 [Hr1 Hr2]].
  set (m1 := round_nearest_even (shr_m mrs) (loc_of_shr_record mrs)) in *.
  assert (Hmrs : 2 ^ 52 <= shr_m mrs < 2 ^ 53).
  { rewrite <- (inject_Z_pow2 52), <- (inject_Z_pow2 53) in HT by lia.
    split.
    - assert (2 ^ 52 < shr_m mrs + 1); [|lia].
      rewrite Zlt_Qlt, inject_Z_plus. change (inject_Z 1) with 1%Q. lra.
    - rewrite Zlt_Qlt. lra. }
  destruct (renormalise m1 e1 ltac:(lia) ltac:(unfold e1; lia))
    as (mrs2 & e2 & m2 & Hshr2 & Hm2 & Hb2 & He2 & Hv2).
  assert (Hbound : (inject_Z m1 * pow2 e1 <= t * pow2 e * (1 + pow2 (-53)))%Q).
  { rewrite Ht. pose proof (pow2_pos e1).
    change (pow2 (-53)) with (1 # 9007199254740992)%Q.
    change (pow2 52) with (4503599627370496 # 1)%Q in HT.
    assert (inject_Z m1 <= T * (1 + (1 # 9007199254740992)))%Q by lra.
    nra. }
  assert (He2' : e2 <= 971).
  { assert (pow2 (52 + e2) < pow2 1024)%Q; [|apply pow2_exponent_lt in H; lia].
    rewrite pow2_add. rewrite <- (inject_Z_pow2 52) by lia.
    assert (inject_Z (2 ^ 52) <= inject_Z (Zpos m2))%Q by (rewrite <- Zle_Qle; lia).
    pose proof (pow2_pos e2). 
    assert (inject_Z (2 ^ 52) * pow2 e2 <= inject_Z (Zpos m2) * pow2 e2)%Q by nra.
    lra. }
  exists m2, e2. split.
  { unfold binary_round_aux. rewrite Hshr. fold m1. rewrite Hshr2, Hm2.
    replace (e2 <=? 1024 - 53) with true by (symmetry; apply Z.leb_le; lia).
    reflexivity. }
  split; [exact Hb2|]. split; [lia|].
  rewrite Hv2, Ht. apply Qabs_Qle_condition.
  pose proof (pow2_pos e1).
  change (pow2 (-53)) with (1 # 9007199254740992)%Q.
  change (pow2 52) with (4503599627370496 # 1)%Q in HT.
  split; nra.
Qed.
Lemma iter_xO_spec (d : positive) (m : positive) :
  Zpos (Pos.iter xO m d) = Zpos m * 2 ^ Zpos d.
Proof.
  induction d as [|d IH] using Pos.peano_ind.
  - simpl. lia.
  - rewrite Pos.iter_succ, Pos2Z.inj_succ, Z.pow_succ_r by lia.
    rewrite Pos2Z.inj_xO, IH. lia.
Qed.

(** Aligning a mantissa on a smaller exponent keeps the value. *)
Lemma shl_align_spec (m : positive) (e e' : Z) :
  e' <= e ->
  shl_align m e e' = (Z.to_pos (Zpos m * 2 ^ (e - e')), e').
Proof.
  intros H. unfold shl_align.
  destruct (e' - e) as [|p|p] eqn:E; [|lia|].
  - replace (e - e') with 0 by lia. replace e' with e by lia.
    rewrite Z.mul_1_r. reflexivity.
  - f_equal. apply Pos2Z.inj. rewrite iter_xO_spec.
    replace (e - e') with (Zpos p) by lia.
    rewrite Z2Pos.id; [reflexivity|].
    assert (0 < 2 ^ Zpos p) by (apply Z.pow_pos_nonneg; lia). lia.
Qed.

Lemma aligned_pos (m : positive) (k : Z) :
  0 <= k -> Zpos (Z.to_pos (Zpos m * 2 ^ k)) = Zpos m * 2 ^ k.
Proof.
  intros H. apply Z2Pos.id.
  assert (0 < 2 ^ k) by (apply Z.pow_pos_nonneg; lia). lia.
Qed.

Lemma aligned_value (m : positive) (e e' : Z) :
  e' <= e ->
  (inject_Z (Zpos m * 2 ^ (e - e')) * pow2 e' == inject_Z (Zpos m) * pow2 e)%Q.
Proof.
  intros H. rewrite inject_Z_mult, inject_Z_pow2 by lia.
  rewrite <- Qmult_assoc, <- pow2_add.
  replace (e - e' + e') with e by lia. reflexivity.
Qed.

(** A mantissa below 2^52 at the least exponent is kept as it is. *)
Lemma round_aux_subnormal (s : bool) (m : positive) :
  Zpos m < 2 ^ 52 ->
  binary_round_aux 53 1024 s (Zpos m) (-1074) loc_Exact
  = S754_finite s m (-1074).
Proof.
  intros H. pose proof (digits2_pos_spec m) as [Hlo Hhi].
  assert (Hd : Zpos (digits2_pos m) <= 52).
  { destruct (Z_le_gt_dec (Zpos (digits2_pos m)) 52) as [|Hgt]; [assumption|].
    assert (2 ^ 52 <= 2 ^ (Zpos (digits2_pos m) - 1))
      by (apply Z.pow_le_mono_r; lia). lia. }
  assert (Hshr : shr_fexp 53 1024 (Zpos m) (-1074) loc_Exact
                 = (Build_shr_record (Zpos m) false false, -1074)).
  { unfold shr_fexp. simpl Zdigits2.
    replace (fexp 53 1024 (Zpos (digits2_pos m) + -1074)) with (-1074)
      by (unfold fexp, emin; lia).
    reflexivity. }
  unfold binary_round_aux. rewrite Hshr. simpl round_nearest_even.
  rewrite Hshr. reflexivity.
Qed.

(** [binary_round] of an integer multiple of 2^e, e at least the least
    exponent: the result is finite, with a mantissa below 2^53, within
    a relative error of 2^-53; it is a normal number or the multiple
    itself. *)
Lemma round_spec (s : bool) (m : positive) (e : Z) :
  -1074 <= e ->
  (inject_Z (Zpos m) * pow2 e * (1 + pow2 (-53)) < pow2 1024)%Q ->
  exists (m' : positive) (e' : Z),
    binary_round 53 1024 s m e = S754_finite s m' e'
    /\ Zpos m' < 2 ^ 53
    /\ -1074 <= e' <= 971
    /\ (2 ^ 52 <= Zpos m'
        \/ (Zpos m' < 2 ^ 52 /\ e' = -1074
            /\ (inject_Z (Zpos m') * pow2 e' == inject_Z (Zpos m) * pow2 e)%Q))
    /\ (Qabs (inject_Z (Zpos m') * pow2 e' - inject_Z (Zpos m) * pow2 e)
        <= pow2 (-53) * (inject_Z (Zpos m) * pow2 e))%Q.
Proof.
  intros He Hover. unfold binary_round.
  pose proof (digits2_pos_spec m) as [Hlo Hhi].
  remember (Zpos (digits2_pos m)) as d eqn:Ed.
  destruct (Z_le_gt_dec 53 d) as [Hd|Hd].
  - (* enough digits: rounded as it is *)
    assert (Hal : shl_align m e (fexp 53 1024 (d + e)) = (m, e)).
    { unfold shl_align. rewrite fexp_normal by lia.
      destruct (d + e - 53 - e) eqn:E; try reflexivity. lia. }
    rewrite Hal.
    destruct (round_aux_normal s m e loc_Exact (inject_Z (Zpos m)))
      as (m' & e' & Hrun & Hm' & He' & Herr);
      [simpl; reflexivity|lia|lia|exact Hover|].
    exists m', e'. split; [exact Hrun|]. split; [lia|]. split; [lia|].
    split; [left; lia|exact Herr].
  - destruct (Z_le_gt_dec (-1074) (d + e - 53)) as [Hn|Hn].
    + (* shifted left to 53 digits *)
      rewrite fexp_normal by lia.
      rewrite shl_align_spec by lia.
      replace (e - (d + e - 53)) with (53 - d) by lia.
      set (mz := Z.to_pos (Zpos m * 2 ^ (53 - d))).
      assert (Hmz : Zpos mz = Zpos m * 2 ^ (53 - d))
        by (apply aligned_pos; lia).
      assert (Hv : (inject_Z (Zpos mz) * pow2 (d + e - 53)
                    == inject_Z (Zpos m) * pow2 e)%Q).
      { rewrite Hmz. replace (53 - d) with (e - (d + e - 53)) by lia.
        apply aligned_value. lia. }
      assert (Hdz : Zpos (digits2_pos mz) = 53).
      { apply digits2_pos_unique. rewrite Hmz.
        replace (2 ^ (53 - 1)) with (2 ^ (d - 1) * 2 ^ (53 - d))
          by (rewrite <- Z.pow_add_r by lia; f_equal; lia).
        replace (2 ^ 53) with (2 ^ d * 2 ^ (53 - d))
          by (rewrite <- Z.pow_add_r by lia; f_equal; lia).
        assert (0 < 2 ^ (53 - d)) by (apply Z.pow_pos_nonneg; lia).
        split; nia. }
      destruct (round_aux_normal s mz (d + e - 53) loc_Exact (inject_Z (Zpos mz)))
        as (m' & e' & Hrun & Hm' & He' & Herr);
        [simpl; reflexivity|lia|lia|rewrite Hv; exact Hover|].
      exists m', e'. split; [exact Hrun|]. split; [lia|]. split; [lia|].
      split; [left; lia|]. rewrite Hv in Herr. exact Herr.
    + (* below the normal range: exact *)
      replace (fexp 53 1024 (d + e)) with (-1074) by (unfold fexp, emin; lia).
      rewrite shl_align_spec by lia.
      set (mz := Z.to_pos (Zpos m * 2 ^ (e - -1074))).
      assert (Hmz : Zpos mz = Zpos m * 2 ^ (e - -1074))
        by (apply aligned_pos; lia).
      assert (Hv : (inject_Z (Zpos mz) * pow2 (-1074)
                    == inject_Z (Zpos m) * pow2 e)%Q).
      { rewrite Hmz. apply aligned_value. lia. }
      assert (Hsmall : Zpos mz < 2 ^ 52).
      { rewrite Hmz.
        assert (Zpos m * 2 ^ (e - -1074) < 2 ^ d * 2 ^ (e - -1074)).
        { apply Z.mul_lt_mono_pos_r; [apply Z.pow_pos_nonneg; lia|lia]. }
        rewrite <- Z.pow_add_r in H by lia.
        assert (2 ^ (d + (e - -1074)) <= 2 ^ 52)
          by (apply Z.pow_le_mono_r; lia).
        lia. }
      rewrite round_aux_subnormal by exact Hsmall.
      exists mz, (-1074). split; [reflexivity|]. split; [lia|].
      split; [lia|]. split; [right; split; [exact Hsmall|split; [reflexivity|exact Hv]]|].
      rewrite Hv. apply Qabs_Qle_condition.
      pose proof (pow2_pos e).
      assert (0 < inject_Z (Zpos m))%Q by (rewrite Zlt_Qlt in *; reflexivity).
      change (pow2 (-53)) with (1 # 9007199254740992)%Q.
      split; nra.
Qed.
Lemma digits_exponent (m : positive) (e k : Z) :
  (pow2 k <= inject_Z (Zpos m) * pow2 e)%Q -> k < Zpos (digits2_pos m) + e.
Proof.
  intros H. pose proof (digits2_pos_spec m) as [_ Hhi].
  apply pow2_exponent_lt. rewrite pow2_add.
  rewrite <- (inject_Z_pow2 (Zpos (digits2_pos m))) by lia.
  rewrite Zlt_Qlt in Hhi. pose proof (pow2_pos e). 
  assert (inject_Z (Zpos m) * pow2 e < inject_Z (2 ^ Zpos (digits2_pos m)) * pow2 e)%Q
    by nra.
  lra.
Qed.

Lemma digits_at_least (m : positive) (k : Z) :
  2 ^ k <= Zpos m -> k < Zpos (digits2_pos m).
Proof.
  intros H. pose proof (digits2_pos_spec m) as [_ Hhi].
  destruct (Z_lt_le_dec k (Zpos (digits2_pos m))) as [|Hge]; [assumption|].
  assert (2 ^ Zpos (digits2_pos m) <= 2 ^ k) by (apply Z.pow_le_mono_r; lia).
  lia.
Qed.

Lemma value_normal (x : spec_float) :
  normal x -> (pow2 (-1022) <= value x /\ value x * (1 + pow2 (-53)) < pow2 1024)%Q.
Proof.
  intros Hx. destruct x as [| | |[|] m e]; try (exfalso; exact Hx).
  destruct Hx as [[Hlo Hhi] [He1 He2]]. unfold value.
  pose proof (pow2_pos e) as Hp.
  pose proof (pow2_le (-1074) e He1) as Hl.
  pose proof (pow2_le e 971 He2) as Hu.
  assert (Hlo' : (inject_Z (2 ^ 52) <= inject_Z (Zpos m))%Q)
    by (rewrite <- Zle_Qle; exact Hlo).
  assert (Hhi' : (inject_Z (Zpos m) <= inject_Z (2 ^ 53 - 1))%Q)
    by (rewrite <- Zle_Qle; lia).
  change (inject_Z (2 ^ 52)) with (4503599627370496 # 1)%Q in Hlo'.
  change (inject_Z (2 ^ 53 - 1)) with (9007199254740991 # 1)%Q in Hhi'.
  assert (E1 : (pow2 (-1022) == (4503599627370496 # 1) * pow2 (-1074))%Q).
  { change (4503599627370496 # 1)%Q with (pow2 52). rewrite <- pow2_add.
    reflexivity. }
  assert (E2 : (pow2 1024 == (9007199254740992 # 1) * pow2 971)%Q).
  { change (9007199254740992 # 1)%Q with (pow2 53). rewrite <- pow2_add.
    reflexivity. }
  rewrite E1, E2. change (pow2 (-53)) with (1 # 9007199254740992)%Q.
  pose proof (pow2_pos (-1074)). pose proof (pow2_pos 971).
  assert (X1 : ((4503599627370496 # 1) * pow2 e <= inject_Z (Zpos m) * pow2 e)%Q)
    by nra.
  assert (X2 : (inject_Z (Zpos m) * pow2 e <= (9007199254740991 # 1) * pow2 e)%Q)
    by nra.
  split; lra.
Qed.

(** *** Multiplication *)

(** The product of two normal numbers, when it lies in the normal
    range: a normal number within 2^-53 of the exact product. *)
Lemma mul_spec (x y : spec_float) :
  normal x -> normal y ->
  (pow2 (-1021) <= value x * value y)%Q ->
  (value x * value y * (1 + pow2 (-53)) < pow2 1024)%Q ->
  normal (SFmul 53 1024 x y)
  /\ (Qabs (value (SFmul 53 1024 x y) - value x * value y)
      <= pow2 (-53) * (value x * value y))%Q.
Proof.
  intros Hx Hy.
  destruct x as [| | |[|] mx ex]; try (exfalso; exact Hx).
  destruct y as [| | |[|] my ey]; try (exfalso; exact Hy).
  destruct Hx as [Hmx Hex]. destruct Hy as [Hmy Hey].
  unfold value. intros Hunder Hover.
  assert (Hv : (inject_Z (Zpos mx) * pow2 ex * (inject_Z (Zpos my) * pow2 ey)
                == inject_Z (Zpos (mx * my)) * pow2 (ex + ey))%Q).
  { rewrite Pos2Z.inj_mul, inject_Z_mult, pow2_add. ring. }
  rewrite Hv in *.
  assert (Hd : 2 ^ 53 <= Zpos (mx * my)).
  { rewrite Pos2Z.inj_mul. nia. }
  apply digits_at_least in Hd.
  pose proof (digits_exponent _ _ _ Hunder) as Hde.
  destruct (round_aux_normal false (mx * my) (ex + ey) loc_Exact
              (inject_Z (Zpos (mx * my))))
    as (m' & e' & Hrun & Hm' & He' & Herr);
    [simpl; reflexivity|lia|lia|exact Hover|].
  unfold SFmul. change (xorb false false) with false.
  rewrite Hrun. unfold normal, value. split; [split; assumption|exact Herr].
Qed.

(** *** Addition *)

(** The sum of two normal numbers, short of overflow. *)
Lemma add_spec (x y : spec_float) :
  normal x -> normal y ->
  ((value x + value y) * (1 + pow2 (-53)) < pow2 1024)%Q ->
  normal (SFadd 53 1024 x y)
  /\ (Qabs (value (SFadd 53 1024 x y) - (value x + value y))
      <= pow2 (-53) * (value x + value y))%Q.
Proof.
  intros Hx Hy.
  destruct x as [| | |[|] mx ex]; try (exfalso; exact Hx).
  destruct y as [| | |[|] my ey]; try (exfalso; exact Hy).
  destruct Hx as [Hmx Hex]. destruct Hy as [Hmy Hey].
  unfold value. intros Hover. unfold SFadd. cbv zeta. unfold cond_Zopp.
  set (ez := Z.min ex ey) in *.
  rewrite !shl_align_spec by (unfold ez; lia). cbn [fst].
  rewrite !aligned_pos by (unfold ez; lia).
  assert (Hpx : 0 < 2 ^ (ex - ez)) by (apply Z.pow_pos_nonneg; unfold ez; lia).
  assert (Hpy : 0 < 2 ^ (ey - ez)) by (apply Z.pow_pos_nonneg; unfold ez; lia).
  destruct (Zpos mx * 2 ^ (ex - ez) + Zpos my * 2 ^ (ey - ez)) as [|p|p] eqn:E;
    [lia| |lia].
  assert (Hv : (inject_Z (Zpos mx) * pow2 ex + inject_Z (Zpos my) * pow2 ey
                == inject_Z (Zpos p) * pow2 ez)%Q).
  { rewrite <- E, inject_Z_plus, Qmult_plus_distr_l.
    rewrite !aligned_value by (unfold ez; lia). reflexivity. }
  rewrite Hv in *. unfold binary_normalize.
  destruct (round_spec false p ez ltac:(unfold ez; lia) Hover)
    as (m' & e' & Hrun & Hm' & He' & Hnorm & Herr).
  rewrite Hrun. unfold normal, value. split; [|exact Herr].
  split; [|exact He']. split; [|exact Hm'].
  destruct Hnorm as [|(Hsmall & -> & Hexact)]; [assumption|]. exfalso.
  (* the sum of two normal numbers is not below the normal range *)
  assert (Hbig : 2 ^ 52 <= Zpos p) by nia.
  assert (H1 : (inject_Z (Zpos m') < inject_Z (2 ^ 52))%Q)
    by (rewrite <- Zlt_Qlt; lia).
  assert (H2 : (inject_Z (2 ^ 52) <= inject_Z (Zpos p))%Q)
    by (rewrite <- Zle_Qle; lia).
  pose proof (pow2_le (-1074) ez ltac:(unfold ez; lia)).
  pose proof (pow2_pos (-1074)). pose proof (pow2_pos ez).
  assert (X1 : (inject_Z (Zpos m') * pow2 (-1074)
                < inject_Z (2 ^ 52) * pow2 (-1074))%Q) by nra.
  assert (X2 : (inject_Z (2 ^ 52) * pow2 (-1074)
                <= inject_Z (2 ^ 52) * pow2 ez)%Q).
  { change (inject_Z (2 ^ 52)) with (4503599627370496 # 1)%Q. lra. }
  assert (X3 : (inject_Z (2 ^ 52) * pow2 ez <= inject_Z (Zpos p) * pow2 ez)%Q)
    by nra.
  lra.
Qed.
(** *** Division *)

(** The location [SFdiv] computes from the remainder [r] of a division
    by [n] is that of the exact quotient. *)
Lemma new_location_located (n q r : Z) (t : Q) :
  0 < n -> 0 <= r < n ->
  (t * inject_Z n == inject_Z (q * n + r))%Q ->
  located q (new_location n r) t.
Proof.
  intros Hn Hr Ht.
  rewrite inject_Z_plus, inject_Z_mult in Ht.
  assert (Hn' : (0 < inject_Z n)%Q) by (rewrite Zlt_Qlt in Hn; exact Hn).
  assert (Hr0 : (0 <= inject_Z r)%Q) by (rewrite <- (Zle_Qle 0); lia).
  unfold new_location, new_location_even, new_location_odd.
  destruct (Z.even n) eqn:Hpar.
  - destruct (Z.eqb_spec r 0) as [->|Hne].
    + change (inject_Z 0) with 0%Q in Ht. simpl. nra.
    + assert (Hr1 : (0 < inject_Z r)%Q) by (rewrite <- (Zlt_Qlt 0); lia).
      destruct (Z.compare_spec (2 * r) n) as [E|E|E]; simpl.
      * assert (E' : (2 * inject_Z r == inject_Z n)%Q).
        { rewrite <- E, inject_Z_mult. reflexivity. }
        nra.
      * assert (E' : (2 * inject_Z r < inject_Z n)%Q).
        { rewrite Zlt_Qlt, inject_Z_mult in E. exact E. }
        assert (Hrn : (inject_Z r < inject_Z n)%Q) by (rewrite <- Zlt_Qlt; lia).
        split; nra.
      * assert (E' : (inject_Z n < 2 * inject_Z r)%Q).
        { rewrite Zlt_Qlt, inject_Z_mult in E. exact E. }
        assert (Hrn : (inject_Z r < inject_Z n)%Q) by (rewrite <- Zlt_Qlt; lia).
        split; nra.
  - destruct (Z.eqb_spec r 0) as [->|Hne].
    + change (inject_Z 0) with 0%Q in Ht. simpl. nra.
    + assert (Hr1 : (0 < inject_Z r)%Q) by (rewrite <- (Zlt_Qlt 0); lia).
      assert (Hrn : (inject_Z r < inject_Z n)%Q) by (rewrite <- Zlt_Qlt; lia).
      assert (Hodd : 2 * r <> n).
      { intros E. rewrite <- E, Z.even_mul in Hpar. discriminate. }
      destruct (Z.compare_spec (2 * r + 1) n) as [E|E|E]; simpl.
      * assert (E' : (2 * inject_Z r < inject_Z n)%Q).
        { assert (2 * r < n) as H by lia.
          rewrite Zlt_Qlt, inject_Z_mult in H. exact H. }
        split; nra.
      * assert (E' : (2 * inject_Z r < inject_Z n)%Q).
        { assert (2 * r < n) as H by lia.
          rewrite Zlt_Qlt, inject_Z_mult in H. exact H. }
        split; nra.
      * assert (E' : (inject_Z n < 2 * inject_Z r)%Q).
        { assert (n < 2 * r) as H by lia.
          rewrite Zlt_Qlt, inject_Z_mult in H. exact H. }
        split; nra.
Qed.

Lemma div_core_spec (mx my : positive) (ex ey : Z) :
  2 ^ 52 <= Zpos mx < 2 ^ 53 -> 2 ^ 52 <= Zpos my < 2 ^ 53 ->
  -1021 <= ex - ey ->
  SFdiv_core_binary 53 1024 (Zpos mx) ex (Zpos my) ey
  = (Zpos mx * 2 ^ 53 / Zpos my, ex - ey - 53,
     new_location (Zpos my) ((Zpos mx * 2 ^ 53) mod Zpos my)).
Proof.
  intros Hmx Hmy He. unfold SFdiv_core_binary. simpl Zdigits2.
  rewrite (digits2_pos_unique mx 53), (digits2_pos_unique my 53)
    by (change (53 - 1) with 52; lia).
  replace (53 + ex - (53 + ey)) with (ex - ey) by lia.
  rewrite fexp_normal by lia.
  replace (Z.min (ex - ey - 53) (ex - ey)) with (ex - ey - 53) by lia.
  replace (ex - ey - (ex - ey - 53)) with 53 by lia.
  cbv zeta. rewrite Z.shiftl_mul_pow2 by lia.
  unfold Z.div, Z.modulo.
  destruct (Z.div_eucl (Zpos mx * 2 ^ 53) (Zpos my)) as [q r]. reflexivity.
Qed.

(** The quotient of two normal numbers, when it lies in the normal
    range. *)
Lemma div_spec (x y : spec_float) :
  normal x -> normal y ->
  (pow2 (-1020) <= value x / value y)%Q ->
  (value x / value y * (1 + pow2 (-53)) < pow2 1024)%Q ->
  normal (SFdiv 53 1024 x y)
  /\ (Qabs (value (SFdiv 53 1024 x y) - value x / value y)
      <= pow2 (-53) * (value x / value y))%Q.
Proof.
  intros Hx Hy.
  destruct x as [| | |[|] mx ex]; try (exfalso; exact Hx).
  destruct y as [| | |[|] my ey]; try (exfalso; exact Hy).
  destruct Hx as [Hmx Hex]. destruct Hy as [Hmy Hey].
  unfold value. intros Hunder Hover.
  pose proof (pow2_pos ex) as Hpx. pose proof (pow2_pos ey) as Hpy.
  assert (Hmx1 : (inject_Z (Zpos mx) < inject_Z (2 ^ 53))%Q)
    by (rewrite <- Zlt_Qlt; lia).
  assert (Hmx2 : (inject_Z (2 ^ 52) <= inject_Z (Zpos mx))%Q)
    by (rewrite <- Zle_Qle; lia).
  assert (Hmy1 : (inject_Z (Zpos my) < inject_Z (2 ^ 53))%Q)
    by (rewrite <- Zlt_Qlt; lia).
  assert (Hmy2 : (inject_Z (2 ^ 52) <= inject_Z (Zpos my))%Q)
    by (rewrite <- Zle_Qle; lia).
  change (inject_Z (2 ^ 53)) with (9007199254740992 # 1)%Q in *.
  change (inject_Z (2 ^ 52)) with (4503599627370496 # 1)%Q in *.
  set (X := inject_Z (Zpos mx)) in *. set (Y := inject_Z (Zpos my)) in *.
  set (D := (X * pow2 ex / (Y * pow2 ey))%Q) in *.
  assert (HD : (D * (Y * pow2 ey) == X * pow2 ex)%Q).
  { unfold D. field. split; lra. }
  (* the exponents are far enough from underflow *)
  assert (He : -1021 <= ex - ey).
  { assert (pow2 (-1020 + 52 + ey) < pow2 (53 + ex))%Q as H;
      [|apply pow2_exponent_lt in H; lia].
    rewrite !pow2_add.
    change (pow2 52) with (4503599627370496 # 1)%Q.
    change (pow2 53) with (9007199254740992 # 1)%Q.
    pose proof (pow2_pos (-1020)) as Hp.
    assert (HY : (0 < Y * pow2 ey)%Q) by (apply Qmult_lt_0_compat; lra).
    assert (H1 : (pow2 (-1020) * (Y * pow2 ey) <= D * (Y * pow2 ey))%Q)
      by (apply Qmult_le_compat_r; [exact Hunder|lra]).
    assert (H2 : ((4503599627370496 # 1) * pow2 ey <= Y * pow2 ey)%Q)
      by (apply Qmult_le_compat_r; lra).
    assert (H3 : (pow2 (-1020) * ((4503599627370496 # 1) * pow2 ey)
                  <= pow2 (-1020) * (Y * pow2 ey))%Q)
      by (rewrite !(Qmult_comm (pow2 (-1020))); apply Qmult_le_compat_r; lra).
    assert (H4 : (X * pow2 ex < (9007199254740992 # 1) * pow2 ex)%Q)
      by (apply Qmult_lt_compat_r; lra).
    lra. }
  unfold SFdiv. rewrite div_core_spec by assumption.
  change (xorb false false) with false.
  set (n := Zpos mx * 2 ^ 53) in *.
  pose proof (Z.div_mod n (Zpos my) ltac:(lia)) as Hdm.
  pose proof (Z.mod_pos_bound n (Zpos my) ltac:(lia)) as Hmod.
  set (q := n / Zpos my) in *. set (r := n mod Zpos my) in *.
  assert (Hq : 2 ^ 52 <= q) by (unfold n in Hdm; nia).
  destruct q as [|qp|qp] eqn:Eq; [lia| |lia].
  set (t := (inject_Z n / Y)%Q).
  assert (Htn : (t * Y == inject_Z n)%Q) by (unfold t; field; clear - Hmy2; lra).
  assert (Hloc : located (Zpos qp) (new_location (Zpos my) r) t).
  { apply new_location_located; [reflexivity|exact Hmod|].
    fold Y. rewrite Htn.
    replace (Zpos qp * Zpos my + r) with n
      by (rewrite Z.mul_comm; exact Hdm).
    reflexivity. }
  assert (Hval : (t * pow2 (ex - ey - 53) == D)%Q).
  { assert (E : (pow2 ex == pow2 (ex - ey - 53) * pow2 ey * pow2 53)%Q).
    { rewrite <- !pow2_add. replace (ex - ey - 53 + ey + 53) with ex by lia.
      reflexivity. }
    unfold t, D, n. rewrite inject_Z_mult. fold X.
    rewrite inject_Z_pow2 by lia. rewrite E. field. split; lra. }
  pose proof (digits_at_least qp 52 Hq) as Hdq.
  destruct (round_aux_normal false qp (ex - ey - 53)
              (new_location (Zpos my) r) t)
    as (m' & e' & Hrun & Hm' & He' & Herr);
    [exact Hloc|lia|lia|rewrite Hval; exact Hover|].
  rewrite Hrun. unfold normal, value. split; [split; assumption|].
  rewrite Hval in Herr. exact Herr.
Qed.
(** *** Valid floats *)

Lemma bounded_intro (m : positive) (e : Z) :
  Zpos m < 2 ^ 53 -> -1074 <= e <= 971 ->
  2 ^ 52 <= Zpos m \/ e = -1074 ->
  bounded 53 1024 m e = true.
Proof.
  intros Hm He Hn. unfold bounded, canonical_mantissa.
  pose proof (digits2_pos_spec m) as [Hlo Hhi].
  apply andb_true_intro. split; [|apply Z.leb_le; lia].
  apply Z.eqb_eq. destruct Hn as [Hn| ->].
  - rewrite (digits2_pos_unique m 53) by (change (53 - 1) with 52; lia).
    unfold fexp, emin. lia.
  - assert (Zpos (digits2_pos m) <= 53).
    { destruct (Z_le_gt_dec (Zpos (digits2_pos m)) 53) as [|Hgt]; [assumption|].
      assert (2 ^ 53 <= 2 ^ (Zpos (digits2_pos m) - 1))
        by (apply Z.pow_le_mono_r; lia). lia. }
    unfold fexp, emin. lia.
Qed.

Lemma normal_valid (x : spec_float) :
  normal x -> valid_binary 53 1024 x = true.
Proof.
  intros Hx. destruct x as [| | |[|] m e]; try (exfalso; exact Hx).
  destruct Hx as [Hm He]. apply bounded_intro; [lia|lia|left; lia].
Qed.

(** A valid float of the normal range is a normal number. *)
Lemma valid_normal (x : spec_float) :
  valid_binary 53 1024 x = true -> (pow2 (-1022) <= value x)%Q -> normal x.
Proof.
  intros Hv Hx. pose proof (pow2_pos (-1022)) as Hp.
  destruct x as [s|s| |s m e]; unfold value in Hx; try lra.
  pose proof (pow2_pos e) as Hpe.
  destruct s.
  { exfalso.
    assert (inject_Z (Zneg m) < 0)%Q by reflexivity.
    assert (inject_Z (Zneg m) * pow2 e < 0)%Q; [|lra].
    rewrite <- (Qmult_0_l (pow2 e)). apply Qmult_lt_compat_r; assumption. }
  unfold valid_binary, bounded, canonical_mantissa in Hv.
  apply andb_prop in Hv. destruct Hv as [Hc He].
  apply Z.eqb_eq in Hc. apply Z.leb_le in He.
  pose proof (digits2_pos_spec m) as [Hlo Hhi].
  unfold fexp, emin in Hc. unfold normal.
  destruct (Z_le_gt_dec (-1074) (Zpos (digits2_pos m) + e - 53)) as [Hn|Hn].
  - assert (Hd : Zpos (digits2_pos m) = 53) by lia.
    rewrite Hd in Hlo, Hhi. change (53 - 1) with 52 in Hlo. lia.
  - exfalso. assert (He' : e = -1074) by lia. subst e.
    assert (Hsmall : Zpos m < 2 ^ 52).
    { assert (2 ^ Zpos (digits2_pos m) <= 2 ^ 52)
        by (apply Z.pow_le_mono_r; lia). lia. }
    rewrite Zlt_Qlt in Hsmall.
    change (inject_Z (2 ^ 52)) with (pow2 52) in Hsmall.
    assert (inject_Z (Zpos m) * pow2 (-1074) < pow2 52 * pow2 (-1074))%Q
      by (apply Qmult_lt_compat_r; assumption).
    rewrite <- pow2_add in H. change (52 + -1074) with (-1022) in H. lra.
Qed.

(** *** Subtraction *)

Lemma round_valid (s : bool) (m : positive) (e : Z) (D : Q) :
  -1074 <= e ->
  (inject_Z (Zpos m) * pow2 e * (1 + pow2 (-53)) < pow2 1024)%Q ->
  (D == inject_Z (if s then Zneg m else Zpos m) * pow2 e)%Q ->
  finite (binary_round 53 1024 s m e) = true
  /\ valid_binary 53 1024 (binary_round 53 1024 s m e) = true
  /\ (Qabs (value (binary_round 53 1024 s m e) - D) <= pow2 (-53) * Qabs D)%Q.
Proof.
  intros He Hover HD.
  destruct (round_spec s m e He Hover)
    as (m' & e' & Hrun & Hm' & He' & Hnorm & Herr).
  rewrite Hrun. split; [reflexivity|]. split.
  { apply bounded_intro; [exact Hm'|exact He'|].
    destruct Hnorm as [|(_ & -> & _)]; [left; assumption|right; reflexivity]. }
  unfold value. rewrite HD.
  pose proof (pow2_pos e) as Hpe.
  assert (Hpos : (0 <= inject_Z (Zpos m) * pow2 e)%Q).
  { apply Qmult_le_0_compat; [|lra]. rewrite <- (Zle_Qle 0). lia. }
  destruct s.
  - assert (En : forall p : positive,
               (inject_Z (Zneg p) == - inject_Z (Zpos p))%Q)
      by (intros p; unfold Qeq; simpl; lia).
    rewrite !En.
    setoid_replace (- inject_Z (Zpos m') * pow2 e'
                    - - inject_Z (Zpos m) * pow2 e)%Q
      with (- (inject_Z (Zpos m') * pow2 e' - inject_Z (Zpos m) * pow2 e))%Q
      by ring.
    setoid_replace (- inject_Z (Zpos m) * pow2 e)%Q
      with (- (inject_Z (Zpos m) * pow2 e))%Q by ring.
    rewrite !Qabs_opp. rewrite (Qabs_pos _ Hpos). exact Herr.
  - rewrite (Qabs_pos _ Hpos). exact Herr.
Qed.

(** The difference of two normal numbers: a zero or a finite binary64
    number of either sign, within 2^-53 of the exact difference. *)
Lemma sub_spec (x y : spec_float) :
  normal x -> normal y ->
  finite (SFsub 53 1024 x y) = true
  /\ valid_binary 53 1024 (SFsub 53 1024 x y) = true
  /\ (Qabs (value (SFsub 53 1024 x y) - (value x - value y))
      <= pow2 (-53) * Qabs (value x - value y))%Q.
Proof.
  intros Hx Hy.
  pose proof (value_normal x Hx) as [_ Hxhi].
  pose proof (value_normal y Hy) as [_ Hyhi].
  destruct x as [| | |[|] mx ex]; try (exfalso; exact Hx).
  destruct y as [| | |[|] my ey]; try (exfalso; exact Hy).
  destruct Hx as [Hmx Hex]. destruct Hy as [Hmy Hey].
  unfold value in Hxhi, Hyhi. unfold value at 2 3 4 5.
  unfold SFsub. cbv zeta. unfold cond_Zopp.
  set (ez := Z.min ex ey) in *.
  rewrite !shl_align_spec by (unfold ez; lia). cbn [fst].
  rewrite !aligned_pos by (unfold ez; lia).
  assert (Hvx : (inject_Z (Zpos mx * 2 ^ (ex - ez)) * pow2 ez
                 == inject_Z (Zpos mx) * pow2 ex)%Q)
    by (apply aligned_value; unfold ez; lia).
  assert (Hvy : (inject_Z (Zpos my * 2 ^ (ey - ez)) * pow2 ez
                 == inject_Z (Zpos my) * pow2 ey)%Q)
    by (apply aligned_value; unfold ez; lia).
  set (ax := Zpos mx * 2 ^ (ex - ez)) in *.
  set (ay := Zpos my * 2 ^ (ey - ez)) in *.
  set (vx := (inject_Z (Zpos mx) * pow2 ex)%Q) in *.
  set (vy := (inject_Z (Zpos my) * pow2 ey)%Q) in *.
  assert (Hax : 0 < ax).
  { unfold ax. assert (0 < 2 ^ (ex - ez)) by (apply Z.pow_pos_nonneg; unfold ez; lia). lia. }
  assert (Hay : 0 < ay).
  { unfold ay. assert (0 < 2 ^ (ey - ez)) by (apply Z.pow_pos_nonneg; unfold ez; lia). lia. }
  assert (Hd : (inject_Z (ax - ay) * pow2 ez == vx - vy)%Q).
  { unfold Z.sub. rewrite inject_Z_plus, inject_Z_opp. rewrite <- Hvx, <- Hvy. ring. }
  pose proof (pow2_pos ez) as Hpz.
  assert (Hax' : (0 < inject_Z ax)%Q) by (rewrite <- (Zlt_Qlt 0); exact Hax).
  assert (Hay' : (0 < inject_Z ay)%Q) by (rewrite <- (Zlt_Qlt 0); exact Hay).
  assert (Hvx0 : (0 < vx)%Q) by (rewrite <- Hvx; apply Qmult_lt_0_compat; assumption).
  assert (Hvy0 : (0 < vy)%Q) by (rewrite <- Hvy; apply Qmult_lt_0_compat; assumption).
  destruct (ax - ay) as [|p|p] eqn:E.
  - unfold binary_normalize. split; [reflexivity|]. split; [reflexivity|].
    change (inject_Z 0) with 0%Q in Hd. unfold value.
    assert (E0 : (vx - vy == 0)%Q) by lra.
    rewrite E0. change (Qabs 0) with 0%Q.
    setoid_replace (0 - 0)%Q with 0%Q by ring. change (Qabs 0) with 0%Q. lra.
  - unfold binary_normalize.
    apply round_valid; [unfold ez; lia| |symmetry; exact Hd].
    change (pow2 (-53)) with (1 # 9007199254740992)%Q in *. lra.
  - unfold binary_normalize.
    apply round_valid; [unfold ez; lia| |symmetry; exact Hd].
    assert (En : (inject_Z (Zneg p) == - inject_Z (Zpos p))%Q)
      by (unfold Qeq; simpl; lia).
    rewrite En in Hd.
    change (pow2 (-53)) with (1 # 9007199254740992)%Q in *. lra.
Qed.
(** *** The constants of the model *)

Lemma million_normal : normal (B64.of_Z 1000000).
Proof. vm_compute. repeat split; discriminate. Qed.

Lemma million_value : (value (B64.of_Z 1000000) == 1000000)%Q.
Proof. vm_compute. reflexivity. Qed.

Lemma offset_normal : normal (B64.of_Z 125).
Proof. vm_compute. repeat split; discriminate. Qed.

Lemma offset_value : (value (B64.of_Z 125) == 125)%Q.
Proof. vm_compute. reflexivity. Qed.

Lemma pow2_1024 : (pow2 1024 == 16777216 * pow2 1000)%Q.
Proof. change 16777216%Q with (pow2 24). rewrite <- pow2_add. reflexivity. Qed.

Lemma pow2_m1000 : (pow2 (-1000) == 4194304 * pow2 (-1022))%Q.
Proof. change 4194304%Q with (pow2 22). rewrite <- pow2_add. reflexivity. Qed.

Lemma pow2_m1021 : (pow2 (-1021) == 2 * pow2 (-1022))%Q.
Proof. change 2%Q with (pow2 1). rewrite <- pow2_add. reflexivity. Qed.

Lemma pow2_m1020 : (pow2 (-1020) == 4 * pow2 (-1022))%Q.
Proof. change 4%Q with (pow2 2). rewrite <- pow2_add. reflexivity. Qed.

Lemma pow2_small : (pow2 (-1022) <= 1 /\ 1024 <= pow2 1000)%Q.
Proof.
  split.
  - change 1%Q with (pow2 0). apply pow2_le. lia.
  - change 1024%Q with (pow2 10). apply pow2_le. lia.
Qed.

End Rounding.

Ltac abs_split :=
  repeat match goal with
    | H : (Qabs _ <= _)%Q |- _ =>
        apply Qabs_Qle_condition in H; destruct H
    end.

Ltac pow2_facts :=
  pose proof pow2_1024; pose proof pow2_m1000; pose proof pow2_m1021;
  pose proof pow2_m1020; pose proof pow2_small as [? ?];
  pose proof (pow2_pos (-1022));
  change (pow2 (-53)) with (1 # 9007199254740992)%Q in *;
  change (pow2 (-51)) with (1 # 2251799813685248)%Q in *;
  change (pow2 (-50)) with (1 # 1125899906842624)%Q in *.

Section RoundTrip.

Local Open Scope Z_scope.

(** [(f + offset) * 1000000.0], the hertz handed to the tuner. *)
Lemma hertz_spec (f : spec_float) (off : Z) :
  off = 0 \/ off = 125 ->
  normal f -> (pow2 (-1000) <= value f /\ value f <= pow2 1000)%Q ->
  normal (SFmul 53 1024 (SFadd 53 1024 f (B64.of_Z off)) (B64.of_Z 1000000))
  /\ (Qabs (value (SFmul 53 1024 (SFadd 53 1024 f (B64.of_Z off)) (B64.of_Z 1000000))
            - (value f + inject_Z off) * 1000000)
      <= (3 # 9007199254740992) * ((value f + inject_Z off) * 1000000))%Q.
Proof.
  intros Hoff Hf [Hlo Hhi].
  pose proof million_normal as HM. pose proof million_value as HMv.
  assert (Ha : normal (SFadd 53 1024 f (B64.of_Z off))
               /\ (Qabs (value (SFadd 53 1024 f (B64.of_Z off))
                         - (value f + inject_Z off))
                   <= pow2 (-53) * (value f + inject_Z off))%Q).
  { destruct Hoff as [-> | ->].
    - replace (SFadd 53 1024 f (B64.of_Z 0)) with f
        by (destruct f as [| | |[|] m e]; try (exfalso; exact Hf); reflexivity).
      split; [exact Hf|]. change (inject_Z 0) with 0%Q.
      apply Qabs_Qle_condition. pow2_facts. lra.
    - pose proof offset_normal as HO. pose proof offset_value as HOv.
      change (inject_Z 125) with 125%Q. rewrite <- HOv.
      apply add_spec; [exact Hf|exact HO|].
      rewrite HOv. pow2_facts. lra. }
  destruct Ha as [Han Hav].
  assert (Hoff' : (inject_Z off == 0 \/ inject_Z off == 125)%Q)
    by (destruct Hoff as [-> | ->]; [left|right]; reflexivity).
  remember (SFadd 53 1024 f (B64.of_Z off)) as a eqn:Ea.
  destruct (mul_spec a (B64.of_Z 1000000) Han HM) as [Hhn Hhv].
  { rewrite HMv. abs_split. pow2_facts. destruct Hoff' as [E|E]; rewrite E in *; lra. }
  { rewrite HMv. abs_split. pow2_facts. destruct Hoff' as [E|E]; rewrite E in *; lra. }
  split; [exact Hhn|].
  rewrite HMv in Hhv. abs_split. apply Qabs_Qle_condition. pow2_facts.
  destruct Hoff' as [E|E]; rewrite E in *; lra.
Qed.
Lemma Qabs_bound (x r : Q) : (- r <= x)%Q -> (x <= r)%Q -> (Qabs x <= r)%Q.
Proof. intros H1 H2. apply Qabs_Qle_condition. split; assumption. Qed.

(** [hz / 1000000.0 - offset], the nominal frequency read back. *)
Lemma nominal_spec (h : spec_float) (off : Z) :
  off = 0 \/ off = 125 ->
  normal h -> (pow2 (-1000) <= value h /\ value h <= pow2 1024)%Q ->
  finite (SFsub 53 1024 (SFdiv 53 1024 h (B64.of_Z 1000000)) (B64.of_Z off)) = true
  /\ valid_binary 53 1024
       (SFsub 53 1024 (SFdiv 53 1024 h (B64.of_Z 1000000)) (B64.of_Z off)) = true
  /\ (Qabs (value (SFsub 53 1024 (SFdiv 53 1024 h (B64.of_Z 1000000)) (B64.of_Z off))
            - (value h / 1000000 - inject_Z off))
      <= (3 # 9007199254740992) * (value h / 1000000)
         + (1 # 9007199254740992) * inject_Z off)%Q.
Proof.
  intros Hoff Hh [Hlo Hhi].
  pose proof million_normal as HM. pose proof million_value as HMv.
  pose proof (value_normal h Hh) as [_ Hhmax].
  destruct (div_spec h (B64.of_Z 1000000) Hh HM) as [Hqn Hqv].
  { rewrite HMv. unfold Qdiv. change (/ 1000000)%Q with (1 # 1000000)%Q.
    pow2_facts. lra. }
  { rewrite HMv. unfold Qdiv. change (/ 1000000)%Q with (1 # 1000000)%Q.
    pow2_facts. lra. }
  rewrite HMv in Hqv.
  remember (SFdiv 53 1024 h (B64.of_Z 1000000)) as q eqn:Eq.
  unfold Qdiv in *. change (/ 1000000)%Q with (1 # 1000000)%Q in *.
  destruct Hoff as [-> | ->].
  - replace (SFsub 53 1024 q (B64.of_Z 0)) with q
      by (destruct q as [| | |[|] m e]; try (exfalso; exact Hqn); reflexivity).
    split; [destruct q as [| | |[|] m e]; try (exfalso; exact Hqn); reflexivity|].
    split; [apply normal_valid; exact Hqn|].
    change (inject_Z 0) with 0%Q. abs_split. pow2_facts.
    apply Qabs_bound; lra.
  - pose proof offset_normal as HO. pose proof offset_value as HOv.
    destruct (sub_spec q (B64.of_Z 125) Hqn HO) as (Hfin & Hval & Herr).
    split; [exact Hfin|]. split; [exact Hval|].
    rewrite HOv in Herr. change (inject_Z 125) with 125%Q.
    remember (SFsub 53 1024 q (B64.of_Z 125)) as n eqn:En.
    destruct (Qlt_le_dec (value q - 125) 0) as [Hneg|Hpos].
    + rewrite (Qabs_neg (value q - 125)) in Herr by lra.
      abs_split. pow2_facts. apply Qabs_bound; lra.
    + rewrite (Qabs_pos (value q - 125)) in Herr by lra.
      abs_split. pow2_facts. apply Qabs_bound; lra.
Qed.

(** Writing a frequency and reading it back. *)
Lemma round_trip (f : spec_float) (off : Z) :
  off = 0 \/ off = 125 ->
  normal f -> (pow2 (-1000) <= value f /\ value f <= pow2 1000)%Q ->
  let hz := SFmul 53 1024 (SFadd 53 1024 f (B64.of_Z off)) (B64.of_Z 1000000) in
  let back := SFsub 53 1024 (SFdiv 53 1024 hz (B64.of_Z 1000000)) (B64.of_Z off) in
  finite back = true
  /\ valid_binary 53 1024 back = true
  /\ (Qabs (value back - value f) <= pow2 (-50) * (value f + inject_Z off))%Q.
Proof.
  intros Hoff Hf [Hlo Hhi]. cbv zeta.
  destruct (hertz_spec f off Hoff Hf (conj Hlo Hhi)) as [Hhn Hhv].
  remember (SFmul 53 1024 (SFadd 53 1024 f (B64.of_Z off)) (B64.of_Z 1000000))
    as hz eqn:Eh.
  assert (Hoff' : (inject_Z off == 0 \/ inject_Z off == 125)%Q)
    by (destruct Hoff as [-> | ->]; [left|right]; reflexivity).
  pose proof (value_normal hz Hhn) as [_ Hmax].
  destruct (nominal_spec hz off Hoff Hhn) as (Hfin & Hval & Herr).
  { abs_split. pow2_facts. destruct Hoff' as [E|E]; rewrite E in *; lra. }
  split; [exact Hfin|]. split; [exact Hval|].
  remember (SFsub 53 1024 (SFdiv 53 1024 hz (B64.of_Z 1000000)) (B64.of_Z off))
    as back eqn:Eb.
  unfold Qdiv in *. change (/ 1000000)%Q with (1 # 1000000)%Q in *.
  abs_split. pow2_facts.
  destruct Hoff' as [E|E]; rewrite E in *; apply Qabs_bound; lra.
Qed.

End RoundTrip.

(** ** The nominal frequency, written and read back *)

Section NominalFrequency.

Context {Dev : Type}.
Context {np : Numpy spec_float} {drv : Driver spec_float complex Dev}.

Abbreviation model := (FreqShowModel spec_float Dev).

(** C6.  In binary64, for a frequency [f] between 2^-1000 and 2^1000
    megahertz: [set_nominal_center_freq f] hands to the driver the float
    [(f + offset) * 1000000.0], where the offset is 125 with the offset
    flag set and 0 otherwise, and this float is within a relative error
    of 2^-51 of the exact product; when the driver accepts it and reads
    back the value written, the call returns [None], the offset flag is
    unchanged, and [get_nominal_center_freq] returns a finite number
    that differs from [f] by at most 2^-50 * (f + offset). *)
Theorem set_then_get_nominal_center_freq
  (depth : nat) (f : spec_float) (s : model) (d' : Dev) :
  representable f = true ->
  (pow2 (-1000) <= value f /\ value f <= pow2 1000)%Q ->
  sdr_set_center_freq (actual_hz f s) (sdr s) = (Ok tt, d') ->
  sdr_get_center_freq d' = actual_hz f s ->
  exists s' : model,
    set_nominal_center_freq depth f s = (Ok None, s')
    /\ sdr s' = d'
    /\ offsetted s' = offsetted s
    /\ actual_hz f s
       = fmul (fadd f (of_int (if offsetted s then 125 else 0)%Z))
           (of_int 1000000)
    /\ (Qabs (value (actual_hz f s)
              - (value f + inject_Z (get_offset_mhz s)) * 1000000)
        <= pow2 (-51) * ((value f + inject_Z (get_offset_mhz s)) * 1000000))%Q
    /\ finite (get_nominal_center_freq s') = true
    /\ (Qabs (value (get_nominal_center_freq s') - value f)
        <= pow2 (-50) * (value f + inject_Z (get_offset_mhz s)))%Q.
Proof.
  intros Hrep [Hlo Hhi] Hset Hecho.
  assert (Hf : normal f).
  { apply valid_normal; [exact Hrep|]. pow2_facts. lra. }
  assert (Hoff : (get_offset_mhz s = 0 \/ get_offset_mhz s = 125)%Z).
  { unfold get_offset_mhz. destruct (is_offsetted s); [right|left]; reflexivity. }
  destruct (hertz_spec f (get_offset_mhz s) Hoff Hf (conj Hlo Hhi)) as [_ Hhz].
  pose proof (round_trip f (get_offset_mhz s) Hoff Hf (conj Hlo Hhi)) as Hrt.
  cbv zeta in Hrt. destruct Hrt as (Hfin & _ & Hback).
  exists (cleared (with_sdr d' s)).
  split; [apply set_nominal_center_freq_accepted; exact Hset|].
  split; [reflexivity|]. split; [reflexivity|]. split; [reflexivity|].
  assert (Hnom : get_nominal_center_freq (cleared (with_sdr d' s))
                 = SFsub 53 1024
                     (SFdiv 53 1024
                        (SFmul 53 1024
                           (SFadd 53 1024 f (B64.of_Z (get_offset_mhz s)))
                           (B64.of_Z 1000000))
                        (B64.of_Z 1000000))
                     (B64.of_Z (get_offset_mhz s))).
  { unfold get_nominal_center_freq. cbn [sdr cleared with_sdr].
    rewrite Hecho. reflexivity. }
  rewrite Hnom.
  change (actual_hz f s)
    with (SFmul 53 1024 (SFadd 53 1024 f (B64.of_Z (get_offset_mhz s)))
            (B64.of_Z 1000000)).
  split; [|split; [exact Hfin|exact Hback]].
  assert (Hoff' : (inject_Z (get_offset_mhz s) == 0
                   \/ inject_Z (get_offset_mhz s) == 125)%Q)
    by (destruct Hoff as [-> | ->]; [left|right]; reflexivity).
  abs_split. pow2_facts.
  destruct Hoff' as [E|E]; rewrite E in *; apply Qabs_bound; lra.
Qed.

(** C5.  In binary64, on a device tuned to a frequency between 2^-1000
    and 2^1000 hertz whose nominal frequency is at least 2^-1000
    megahertz, and which accepts the new frequency and reads back the
    value written: [set_offsetted enabled] returns [None], sets the
    flag, and leaves a nominal frequency that is finite and differs from
    the one before by at most 2^-50 * (nominal + new offset); the
    frequency of the device moves by the difference of the new and the
    old offset (125 MHz up or down on a toggle, nothing when the flag
    keeps its value) to within 2^-50 * (frequency + 125 MHz). *)
Theorem set_offsetted_preserves_nominal
  (depth : nat) (enabled : bool) (s : model) (d' : Dev) :
  representable (sdr_get_center_freq (sdr s)) = true ->
  (pow2 (-1000) <= value (sdr_get_center_freq (sdr s))
   /\ value (sdr_get_center_freq (sdr s)) <= pow2 1000)%Q ->
  (pow2 (-1000) <= value (get_nominal_center_freq s))%Q ->
  sdr_set_center_freq
    (actual_hz (get_nominal_center_freq s) (with_offsetted enabled s)) (sdr s)
  = (Ok tt, d') ->
  sdr_get_center_freq d'
  = actual_hz (get_nominal_center_freq s) (with_offsetted enabled s) ->
  exists s' : model,
    set_offsetted depth enabled s = (Ok None, s')
    /\ offsetted s' = enabled
    /\ finite (get_nominal_center_freq s') = true
    /\ (Qabs (value (get_nominal_center_freq s')
              - value (get_nominal_center_freq s))
        <= pow2 (-50)
           * (value (get_nominal_center_freq s)
              + inject_Z (if enabled then 125 else 0)))%Q
    /\ (Qabs (value (sdr_get_center_freq (sdr s'))
              - (value (sdr_get_center_freq (sdr s))
                 + (inject_Z (if enabled then 125 else 0)
                    - inject_Z (if offsetted s then 125 else 0)) * 1000000))
        <= pow2 (-50) * (value (sdr_get_center_freq (sdr s)) + 125000000))%Q.
Proof.
  intros Hrep [Hlo Hhi] Hnlo Hset Hecho.
  set (h0 := sdr_get_center_freq (sdr s)) in *.
  set (old := (if offsetted s then 125 else 0)%Z).
  set (new := (if enabled then 125 else 0)%Z).
  assert (Hold : (old = 0 \/ old = 125)%Z)
    by (unfold old; destruct (offsetted s); [right|left]; reflexivity).
  assert (Hnew : (new = 0 \/ new = 125)%Z)
    by (unfold new; destruct enabled; [right|left]; reflexivity).
  assert (Hh0 : normal h0).
  { apply valid_normal; [exact Hrep|]. pow2_facts. lra. }
  assert (Hn0 : get_nominal_center_freq s
                = SFsub 53 1024 (SFdiv 53 1024 h0 (B64.of_Z 1000000))
                    (B64.of_Z old)) by reflexivity.
  destruct (nominal_spec h0 old Hold Hh0) as (_ & Hval0 & Herr0).
  { split; [exact Hlo|]. pow2_facts. lra. }
  rewrite <- Hn0 in Hval0, Herr0.
  remember (get_nominal_center_freq s) as n0 eqn:En0.
  assert (Hnorm0 : normal n0).
  { apply valid_normal; [exact Hval0|]. pow2_facts. lra. }
  assert (Hold' : (inject_Z old == 0 \/ inject_Z old == 125)%Q)
    by (destruct Hold as [-> | ->]; [left|right]; reflexivity).
  assert (Hnew' : (inject_Z new == 0 \/ inject_Z new == 125)%Q)
    by (destruct Hnew as [-> | ->]; [left|right]; reflexivity).
  unfold Qdiv in Herr0. change (/ 1000000)%Q with (1 # 1000000)%Q in Herr0.
  assert (Hnhi : (value n0 <= pow2 1000)%Q).
  { abs_split. pow2_facts. destruct Hold' as [E|E]; rewrite E in *; lra. }
  destruct (hertz_spec n0 new Hnew Hnorm0 (conj Hnlo Hnhi)) as [_ Hhz].
  pose proof (round_trip n0 new Hnew Hnorm0 (conj Hnlo Hnhi)) as Hrt.
  cbv zeta in Hrt. destruct Hrt as (Hfin & _ & Hback).
  exists (cleared (with_sdr d' (with_offsetted enabled s))).
  split.
  { unfold set_offsetted. unfold bind at 1, get. unfold bind at 1, modify.
    rewrite <- En0. apply set_nominal_center_freq_accepted. exact Hset. }
  split; [reflexivity|].
  assert (Hdev : sdr_get_center_freq
                   (sdr (cleared (with_sdr d' (with_offsetted enabled s))))
                 = SFmul 53 1024 (SFadd 53 1024 n0 (B64.of_Z new))
                     (B64.of_Z 1000000)).
  { cbn [sdr cleared with_sdr]. rewrite Hecho. reflexivity. }
  assert (Hnom : get_nominal_center_freq
                   (cleared (with_sdr d' (with_offsetted enabled s)))
                 = SFsub 53 1024
                     (SFdiv 53 1024
                        (SFmul 53 1024 (SFadd 53 1024 n0 (B64.of_Z new))
                           (B64.of_Z 1000000))
                        (B64.of_Z 1000000))
                     (B64.of_Z new)).
  { unfold get_nominal_center_freq. rewrite Hdev. 
    unfold get_offset_mhz, is_offsetted.
    cbn [offsetted cleared with_sdr with_offsetted]. reflexivity. }
  rewrite Hnom, Hdev.
  split; [exact Hfin|]. split; [exact Hback|].
  abs_split. pow2_facts.
  destruct Hold' as [E1|E1]; destruct Hnew' as [E2|E2]; rewrite E1, E2 in *;
    apply Qabs_bound; lra.
Qed.

End NominalFrequency.

(** ** The methods on the bench *)

Section OnTheBench.

Lemma get_data_request_counterexample :
  let s := fresh 1280 working in
  sim_log (sdr (snd (get_data 1024 s))) = [ReadSamples 1024]
  /\ sim_log (sdr (snd (get_data 1024 s))) <> [ReadSamples (1280 + 2)]
  /\ exists frame : list f64,
       fst (get_data 1024 s) = Ok frame
       /\ List.length frame = 1022
       /\ List.length frame <> width s.
Proof.
  cbv zeta. split; [vm_compute; reflexivity|]. split.
  - vm_compute. discriminate.
  - destruct (get_data 1024 (fresh 1280 working)) as [[frame|e] s'] eqn:Hrun.
    + exists frame. split; [reflexivity|].
      assert (Hlen : match fst (get_data 1024 (fresh 1280 working)) with
                     | Ok a => List.length a
                     | Raise _ => 0
                     end = 1022) by (vm_compute; reflexivity).
      rewrite Hrun in Hlen. simpl in Hlen. rewrite Hlen.
      split; [reflexivity|simpl; lia].
    + exfalso.
      assert (Hok : match fst (get_data 1024 (fresh 1280 working)) with
                    | Ok _ => true
                    | Raise _ => false
                    end = true) by (vm_compute; reflexivity).
      rewrite Hrun in Hok. discriminate.
Qed.

Lemma get_data_frame_witness :
  exists (frame : list f64) (s' : FreqShowModel f64 (sim f64)),
    get_data 8 (fresh 4 working) = (Ok frame, s')
    /\ List.length frame = 4
    /\ nth_error frame 2 = Some (B64.of_Z 40)
    /\ nth_error frame 0 = Some (B64.of_Z 80).
Proof.
  destruct (get_data_frame 8 (fresh 4 working) (map signal (seq 0 8))
              (snd (sdr_read_samples 8 working)))
    as (frame & s' & Hrun & _ & _ & _ & Hlen & Hnth).
  - reflexivity.
  - simpl. lia.
  - simpl. lia.
  - discriminate.
  - discriminate.
  - exists frame, s'. split; [exact Hrun|]. split; [exact Hlen|]. split.
    + etransitivity; [apply (Hnth 0); simpl; lia|reflexivity].
    + etransitivity; [apply (Hnth 2); simpl; lia|reflexivity].
Defined.

Lemma set_sample_rate_truncation_counterexample :
  let s := fresh 320 working in
  let run := set_sample_rate 1 (B64.decimal 3000001 10000000) s in
  fst run = Ok None
  /\ fst run <> Ok (Some sample_rate_error)
  /\ sim_sample_rate (sdr s) = 2400000%Z
  /\ sim_sample_rate (sdr (snd run)) = 300000%Z
  /\ sim_log (sdr (snd run)) = [SetSampleRate 300000].
Proof.
  cbv zeta. repeat split; try (vm_compute; reflexivity).
  vm_compute. discriminate.
Qed.

Lemma set_sample_rate_validation_witness :
  to_int (fmul (B64.decimal 9 10) (of_int 1000000)) = Ok 900000%Z
  /\ fst (set_sample_rate 1 (B64.decimal 9 10) (fresh 320 working))
     = Ok (Some sample_rate_error)
  /\ snd (set_sample_rate 1 (B64.decimal 9 10) (fresh 320 working))
     = fresh 320 working.
Proof.
  destruct (set_sample_rate_validation 1 (B64.decimal 9 10) (fresh 320 working))
    as (Hgeneral & _ & _).
  destruct (Hgeneral 900000%Z eq_refl) as (Hiff & Hsame).
  split; [reflexivity|]. split.
  - apply Hiff. lia.
  - apply Hsame. lia.
Defined.

Lemma set_sample_rate_keeps_scaling_witness :
  exists s' : FreqShowModel f64 (sim f64),
    set_sample_rate 1 (B64.of_Z 1) (observed working) = (Ok None, s')
    /\ sim_sample_rate (sdr s') = 1000000%Z
    /\ min_auto_scale s' = true
    /\ min_intensity s' = Some (B64.of_Z 50)
    /\ range s' = Some (B64.of_Z 40).
Proof.
  destruct (set_sample_rate_keeps_scaling 1 (B64.of_Z 1) (observed working)
              1000000%Z (snd (sdr_set_sample_rate 1000000%Z working)))
    as (s' & Hrun & Hdev & Hmin & _ & Hrange);
    [reflexivity|reflexivity|reflexivity|].
  exists s'. split; [exact Hrun|]. split; [rewrite Hdev; reflexivity|].
  split; [|split; [rewrite Hmin; reflexivity|rewrite Hrange; reflexivity]].
  replace s' with (snd (set_sample_rate 1 (B64.of_Z 1) (observed working)))
    by (rewrite Hrun; reflexivity).
  reflexivity.
Defined.

Lemma set_offsetted_rounding_counterexample :
  let s := fresh 320 working in
  let run := set_offsetted 1 true s in
  fst run = Ok None
  /\ sdr_get_center_freq (sdr (snd run))
     = actual_hz (get_nominal_center_freq s) (with_offsetted true s)
  /\ sim_log (sdr (snd run)) = [SetCenterFreq (B64.of_Z 132100000)]
  /\ get_nominal_center_freq s = B64.decimal 71 10
  /\ get_nominal_center_freq (snd run)
     = S754_finite false 7993889338582624 (-50)
  /\ get_nominal_center_freq (snd run) <> get_nominal_center_freq s.
Proof.
  cbv zeta. repeat split; try (vm_compute; reflexivity).
  vm_compute. discriminate.
Qed.

Lemma set_offsetted_preserves_nominal_witness :
  exists s' : FreqShowModel f64 (sim f64),
    set_offsetted 1 true (fresh 320 working) = (Ok None, s')
    /\ offsetted s' = true
    /\ finite (get_nominal_center_freq s') = true
    /\ (Qabs (value (get_nominal_center_freq s')
              - value (get_nominal_center_freq (fresh 320 working)))
        <= pow2 (-50)
           * (value (get_nominal_center_freq (fresh 320 working)) + 125))%Q
    /\ (Qabs (value (sdr_get_center_freq (sdr s'))
              - (7100000 + (125 - 0) * 1000000))
        <= pow2 (-50) * (7100000 + 125000000))%Q.
Proof.
  destruct (set_offsetted_preserves_nominal 1 true (fresh 320 working)
              (snd (sdr_set_center_freq
                      (actual_hz (get_nominal_center_freq (fresh 320 working))
                         (with_offsetted true (fresh 320 working)))
                      working)))
    as (s' & Hrun & Hflag & Hfinite & Hnominal & Hdevice).
  - reflexivity.
  - split; apply Qle_bool_imp_le; vm_compute; reflexivity.
  - apply Qle_bool_imp_le. vm_compute. reflexivity.
  - reflexivity.
  - reflexivity.
  - exists s'. split; [exact Hrun|]. split; [exact Hflag|].
    split; [exact Hfinite|]. split; [exact Hnominal|].
    assert (E : (value (sdr_get_center_freq (sdr (fresh 320 working)))
                 == 7100000)%Q) by (vm_compute; reflexivity).
    rewrite E in Hdevice. exact Hdevice.
Defined.

Lemma set_then_get_nominal_center_freq_counterexample :
  let f := B64.of_Z (2 ^ 1020) in
  let s := fresh 320 working in
  let g := B64.decimal 1 (10 ^ 20) in
  let t := with_offsetted true (fresh 320 working) in
  (representable f = true
   /\ finite f = true
   /\ fst (set_nominal_center_freq 1 f s) = Ok None
   /\ offsetted (snd (set_nominal_center_freq 1 f s)) = offsetted s
   /\ sdr_get_center_freq (sdr (snd (set_nominal_center_freq 1 f s)))
      = actual_hz f s
   /\ get_nominal_center_freq (snd (set_nominal_center_freq 1 f s))
      = S754_infinity false
   /\ finite (get_nominal_center_freq (snd (set_nominal_center_freq 1 f s)))
      = false)
  /\ (representable g = true
      /\ SFltb (S754_zero false) g = true
      /\ fst (set_nominal_center_freq 1 g t) = Ok None
      /\ offsetted (snd (set_nominal_center_freq 1 g t)) = offsetted t
      /\ sdr_get_center_freq (sdr (snd (set_nominal_center_freq 1 g t)))
         = actual_hz g t
      /\ get_nominal_center_freq (snd (set_nominal_center_freq 1 g t))
         = S754_zero false).
Proof. cbv zeta. repeat split; vm_compute; reflexivity. Qed.

Lemma set_then_get_nominal_center_freq_witness :
  exists s' : FreqShowModel f64 (sim f64),
    set_nominal_center_freq 1 (B64.decimal 71 10)
      (with_offsetted true (fresh 320 working))
    = (Ok None, s')
    /\ sim_log (sdr s') = [SetCenterFreq (B64.of_Z 132100000)]
    /\ finite (get_nominal_center_freq s') = true
    /\ (Qabs (value (get_nominal_center_freq s') - value (B64.decimal 71 10))
        <= pow2 (-50) * (value (B64.decimal 71 10) + 125))%Q.
Proof.
  destruct (set_then_get_nominal_center_freq 1 (B64.decimal 71 10)
              (with_offsetted true (fresh 320 working))
              (snd (sdr_set_center_freq
                      (actual_hz (B64.decimal 71 10)
                         (with_offsetted true (fresh 320 working)))
                      working)))
    as (s' & Hrun & Hdev & _ & _ & _ & Hfinite & Hback).
  - reflexivity.
  - split; apply Qle_bool_imp_le; vm_compute; reflexivity.
  - reflexivity.
  - reflexivity.
  - exists s'. split; [exact Hrun|]. split; [rewrite Hdev; reflexivity|].
    split; [exact Hfinite|exact Hback].
Defined.

Lemma setters_can_raise_counterexample :
  fst (sdr_set_manual_gain_enabled false glitching)
  = Raise (IOError fault_detail)
  /\ fst (set_gain 1 AUTO (fresh 320 glitching)) = Raise (IOError fault_detail)
  /\ sim_log (sdr (snd (set_gain 1 AUTO (fresh 320 glitching))))
     = [SetManualGain false]
  /\ fst (sdr_set_center_freq
            (actual_hz (B64.of_Z 100) (fresh 320 unplugged)) unplugged)
     = Raise (IOError fault_detail)
  /\ fst (set_nominal_center_freq 1 (B64.of_Z 100) (fresh 320 unplugged))
     = Raise (IOError fault_detail)
  /\ sim_log (sdr (snd (set_nominal_center_freq 1 (B64.of_Z 100)
                          (fresh 320 unplugged))))
     = [SetCenterFreq (B64.of_Z 100000000); Open].
Proof. repeat split; vm_compute; reflexivity. Qed.

Lemma reopened_on_the_bench (d : sim f64) :
  sim_faults d = [] -> sim_broken d = false ->
  reopened d (reinitialised d).
Proof.
  intros Hf Hb. unfold reopened, reinitialised.
  destruct d as [cf sr gn mg faults broken log]; simpl in Hf, Hb; subst.
  eexists _, _, _. repeat split; reflexivity.
Qed.

Lemma setters_report_hardware_failure_witness :
  set_nominal_center_freq 1 (B64.of_Z 100) (fresh 320 glitching)
  = (Ok (Some ("Can't set center frequency", fault_detail)),
     defaults
       (reinitialised
          (snd (sdr_set_center_freq
                  (actual_hz (B64.of_Z 100) (fresh 320 glitching)) glitching)))
       (reported "set center frequency" fault_detail (fresh 320 glitching))).
Proof.
  destruct (setters_report_hardware_failure 0 (fresh 320 glitching))
    as (Hfreq & _).
  apply (Hfreq (B64.of_Z 100) fault_detail
           (snd (sdr_set_center_freq
                   (actual_hz (B64.of_Z 100) (fresh 320 glitching)) glitching))).
  - reflexivity.
  - apply reopened_on_the_bench; reflexivity.
Defined.

Lemma get_data_read_failure_witness :
  fst (get_data 8 (fresh 4 glitching)) = Raise (IOError fault_detail)
  /\ sim_log (sdr (snd (get_data 8 (fresh 4 glitching)))) = [ReadSamples 8].
Proof.
  rewrite (get_data_read_failure 8 (fresh 4 glitching) (IOError fault_detail)
             (snd (sdr_read_samples 8 glitching))) by reflexivity.
  split; reflexivity.
Defined.


End OnTheBench.

(** * Further properties of the methods *)

(** ** What a method keeps R *)

Section Keeping.

Context {F Dev : Type}.
Context {num : PyFloat F} {np : Numpy F} {drv : Driver F complex Dev}.

Abbreviation model := (FreqShowModel F Dev).
Abbreviation M' := (@M F Dev).

Variable R : model -> model -> Prop.
Hypothesis R_refl : forall s, R s s.
Hypothesis R_trans : forall s1 s2 s3, R s1 s2 -> R s2 s3 -> R s1 s3.

Lemma keeps_ret {A : Type} (a : A) : keeps R (ret a).
Proof. intros s. apply R_refl. Qed.

Lemma keeps_raise {A : Type} (e : exn) : keeps R (@raise F Dev A e).
Proof. intros s. apply R_refl. Qed.

Lemma keeps_lift {A : Type} (r : result A) : keeps R (lift r).
Proof. intros s. apply R_refl. Qed.

Lemma keeps_get : keeps R get.
Proof. intros s. apply R_refl. Qed.

Lemma keeps_bind {A B : Type} (c : M' A) (k : A -> M' B) :
  keeps R c -> (forall a, keeps R (k a)) -> keeps R (bind c k).
Proof.
  intros Hc Hk s. unfold bind.
  specialize (Hc s). destruct (c s) as [[a|e] s1]; simpl in *.
  - eapply R_trans; [exact Hc|apply Hk].
  - exact Hc.
Qed.

Lemma keeps_try {A : Type} (body : M' A) (handler : string -> M' A) :
  keeps R body -> (forall detail, keeps R (handler detail)) ->
  keeps R (try_except_IOError body handler).
Proof.
  intros Hb Hh s. unfold try_except_IOError.
  specialize (Hb s). destruct (body s) as [[a|e] s1]; simpl in *.
  - exact Hb.
  - destruct e; try exact Hb.
    eapply R_trans; [exact Hb|apply Hh].
Qed.

Lemma keeps_when (b : bool) (c : M' unit) : keeps R c -> keeps R (when b c).
Proof. intros Hc. destruct b; [exact Hc|apply keeps_ret]. Qed.

Lemma keeps_modify (f : model -> model) :
  (forall s, R s (f s)) -> keeps R (modify f).
Proof. intros Hf s. apply Hf. Qed.

Lemma keeps_call {A : Type} (op : hw Dev A) :
  (forall s d, R s (with_sdr d s)) -> keeps R (call op).
Proof.
  intros Hd s. unfold call. destruct (op (sdr s)) as [r d]. apply Hd.
Qed.

(** The relation is kept by the assignments the tuner methods make. *)
Hypothesis R_sdr : forall s d, R s (with_sdr d s).
Hypothesis R_offset_off : forall s, R s (with_offsetted false s).
Hypothesis R_auto_gain : forall s b, R s (with_auto_gain b s).
Hypothesis R_stdout : forall s out, R s (with_stdout out s).
Hypothesis R_cleared : forall s, R s (cleared s).

Lemma keeps_clear_intensity : keeps R _clear_intensity.
Proof. intros s. rewrite clear_intensity_run. apply R_cleared. Qed.

Lemma keeps_print (line : string) : keeps R (print line).
Proof. intros s. apply R_stdout. Qed.

Section OverReport.

Variable report : string -> string -> M' (string * string).
Hypothesis keeps_report : forall action error, keeps R (report action error).

Lemma keeps_set_nominal_center_freq_with (freq_mhz : F) :
  keeps R (set_nominal_center_freq_with report freq_mhz).
Proof.
  unfold set_nominal_center_freq_with.
  apply keeps_try.
  - apply keeps_bind; [apply keeps_get|]. intros s0.
    apply keeps_bind; [apply keeps_call, R_sdr|]. intros _.
    apply keeps_bind; [apply keeps_clear_intensity|]. intros _.
    apply keeps_ret.
  - intros detail. apply keeps_bind; [apply keeps_report|].
    intros e. apply keeps_ret.
Qed.

Lemma keeps_set_sample_rate_with (sample_rate_mhz : F) :
  keeps R (set_sample_rate_with report sample_rate_mhz).
Proof.
  unfold set_sample_rate_with.
  apply keeps_bind; [apply keeps_lift|]. intros n.
  destruct (negb (sample_rate_ok n)); [apply keeps_ret|].
  apply keeps_try.
  - apply keeps_bind; [apply keeps_call, R_sdr|]. intros _. apply keeps_ret.
  - intros detail. apply keeps_bind; [apply keeps_report|].
    intros e. apply keeps_ret.
Qed.

Lemma keeps_set_gain_with (gain_db : setting F) :
  keeps R (set_gain_with report gain_db).
Proof.
  unfold set_gain_with. destruct gain_db as [|g].
  - apply keeps_bind; [apply keeps_call, R_sdr|]. intros _.
    apply keeps_bind; [apply keeps_modify; intros s; apply R_auto_gain|].
    intros _. apply keeps_bind; [apply keeps_clear_intensity|]. intros _.
    apply keeps_ret.
  - apply keeps_bind; [apply keeps_modify; intros s; apply R_auto_gain|].
    intros _. apply keeps_bind; [apply keeps_clear_intensity|]. intros _.
    apply keeps_try.
    + apply keeps_bind; [apply keeps_call, R_sdr|]. intros _. apply keeps_ret.
    + intros detail. apply keeps_bind; [apply keeps_report|].
      intros e. apply keeps_ret.
Qed.

Lemma keeps_initialize_rtlsdr_with : keeps R (_initialize_rtlsdr_with report).
Proof.
  unfold _initialize_rtlsdr_with.
  apply keeps_bind; [apply keeps_call, R_sdr|]. intros _.
  apply keeps_bind; [apply keeps_modify, R_offset_off|]. intros _.
  apply keeps_bind; [apply keeps_set_nominal_center_freq_with|]. intros _.
  apply keeps_bind; [apply keeps_set_sample_rate_with|]. intros _.
  apply keeps_bind; [apply keeps_set_gain_with|]. intros _.
  apply keeps_ret.
Qed.

End OverReport.

Lemma keeps_report_error (depth : nat) (action error : string) :
  keeps R (report_error depth action error).
Proof.
  revert action error. induction depth as [|d IH]; intros action error.
  - apply keeps_raise.
  - cbn [report_error].
    apply keeps_bind; [apply keeps_print|]. intros _.
    apply keeps_bind; [apply keeps_initialize_rtlsdr_with, IH|]. intros _.
    apply keeps_ret.
Qed.

Lemma keeps_initialize_rtlsdr (depth : nat) : keeps R (_initialize_rtlsdr depth).
Proof. apply keeps_initialize_rtlsdr_with, keeps_report_error. Qed.

Lemma keeps_set_nominal_center_freq (depth : nat) (freq_mhz : F) :
  keeps R (set_nominal_center_freq depth freq_mhz).
Proof. apply keeps_set_nominal_center_freq_with, keeps_report_error. Qed.

Lemma keeps_set_sample_rate (depth : nat) (sample_rate_mhz : F) :
  keeps R (set_sample_rate depth sample_rate_mhz).
Proof. apply keeps_set_sample_rate_with, keeps_report_error. Qed.

Lemma keeps_set_gain (depth : nat) (gain_db : setting F) :
  keeps R (set_gain depth gain_db).
Proof. apply keeps_set_gain_with, keeps_report_error. Qed.

End Keeping.

(** ** The scaling state across the methods *)

Section ScalingBasics.

Context {F Dev : Type}.

Abbreviation model := (FreqShowModel F Dev).

Lemma scaling_kept_refl (s : model) : scaling_kept s s.
Proof. unfold scaling_kept. repeat split; reflexivity. Qed.

Lemma scaling_kept_trans (s1 s2 s3 : model) :
  scaling_kept s1 s2 -> scaling_kept s2 s3 -> scaling_kept s1 s3.
Proof.
  intros (Hw & Hh & Hmn & Hmx & Hlo & Hhi) (Hw' & Hh' & Hmn' & Hmx' & Hlo' & Hhi').
  unfold scaling_kept. repeat split; try congruence.
  - intros Hfixed. rewrite Hlo' by congruence. apply Hlo, Hfixed.
  - intros Hfixed. rewrite Hhi' by congruence. apply Hhi, Hfixed.
Qed.

Lemma scaling_kept_cleared (s : model) : scaling_kept s (cleared s).
Proof.
  unfold scaling_kept, cleared; simpl. repeat split; intros Hfixed;
    rewrite Hfixed; reflexivity.
Qed.

End ScalingBasics.

Ltac scaling_side :=
  first [ apply scaling_kept_refl | apply scaling_kept_trans
        | apply scaling_kept_cleared
        | intros; unfold scaling_kept; simpl; repeat split; reflexivity ].

Section ScalingKept.

Context {F Dev : Type}.
Context {num : PyFloat F} {fmt : PyFormat F}.
Context {np : Numpy F} {drv : Driver F complex Dev}.
Variable SDR_SAMPLE_SIZE : nat.

Abbreviation model := (FreqShowModel F Dev).

Lemma get_data_keeps_scaling : keeps scaling_kept (get_data SDR_SAMPLE_SIZE).
Proof.
  intros s. unfold get_data. unfold_monad.
  destruct s as [w h mn mx mi ma rg d0 o g out]; simpl.
  destruct (sdr_read_samples SDR_SAMPLE_SIZE d0) as [[block|e] d];
    [|unfold scaling_kept; simpl; repeat split; reflexivity].
  destruct (np_fft (firstn (w + 2) block)) as [spectrum|e];
    [|unfold scaling_kept; simpl; repeat split; reflexivity].
  cbv zeta. set (frame := map decibels _).
  destruct mn, mx; simpl;
    destruct (np_min frame) as [lo|e1];
    destruct (np_max frame) as [hi|e2];
    destruct mi as [p1|], ma as [p2|]; simpl;
    unfold scaling_kept; simpl; repeat split; intros; congruence.
Qed.

Lemma set_offsetted_keeps_scaling (depth : nat) (enabled : bool) :
  keeps scaling_kept (set_offsetted depth enabled).
Proof.
  intros s. unfold set_offsetted. unfold bind at 1, get.
  unfold bind at 1, modify.
  apply scaling_kept_trans with (s2 := with_offsetted enabled s).
  - unfold scaling_kept; simpl; repeat split; reflexivity.
  - apply keeps_set_nominal_center_freq;
      first [ apply scaling_kept_refl | apply scaling_kept_trans
            | apply scaling_kept_cleared
            | intros; unfold scaling_kept; simpl; repeat split; reflexivity ].
Qed.

(** X1.  The tuner setters, [set_offsetted], [_initialize_rtlsdr] and
    [get_data] leave the size of the display, the two scaling modes and
    every fixed bound as they were, however they end: through a
    recovery, with an exception, or normally. *)
Theorem scaling_changes_only_through_its_setters (depth : nat) (s : model) :
  (forall f, scaling_kept s (snd (set_nominal_center_freq depth f s)))
  /\ (forall r, scaling_kept s (snd (set_sample_rate depth r s)))
  /\ (forall g, scaling_kept s (snd (set_gain depth g s)))
  /\ (forall b, scaling_kept s (snd (set_offsetted depth b s)))
  /\ scaling_kept s (snd (_initialize_rtlsdr depth s))
  /\ scaling_kept s (snd (get_data SDR_SAMPLE_SIZE s)).
Proof.
  split; [|split; [|split; [|split; [|split]]]]; intros.
  - apply keeps_set_nominal_center_freq; scaling_side.
  - apply keeps_set_sample_rate; scaling_side.
  - apply keeps_set_gain; scaling_side.
  - apply set_offsetted_keeps_scaling.
  - apply keeps_initialize_rtlsdr; scaling_side.
  - apply get_data_keeps_scaling.
Qed.

Lemma strings_of_kept_scaling (s s' : model) :
  scaling_kept s s' ->
  get_min_string s' = get_min_string s /\ get_max_string s' = get_max_string s.
Proof.
  intros (_ & _ & Hmn & Hmx & Hlo & Hhi).
  unfold get_min_string, get_max_string. rewrite Hmn, Hmx.
  split.
  - destruct (min_auto_scale s); [reflexivity|]. rewrite Hlo; reflexivity.
  - destruct (max_auto_scale s); [reflexivity|]. rewrite Hhi; reflexivity.
Qed.

(** X2.  What [get_min_string] and [get_max_string] return is the same
    before and after a tuner setter, [set_offsetted] or [get_data],
    however the call ends. *)
Theorem shown_bounds_change_only_through_their_setters
  (depth : nat) (s : model) :
  (forall f,
     get_min_string (snd (set_nominal_center_freq depth f s)) = get_min_string s
     /\ get_max_string (snd (set_nominal_center_freq depth f s))
        = get_max_string s)
  /\ (forall r,
     get_min_string (snd (set_sample_rate depth r s)) = get_min_string s
     /\ get_max_string (snd (set_sample_rate depth r s)) = get_max_string s)
  /\ (forall g,
     get_min_string (snd (set_gain depth g s)) = get_min_string s
     /\ get_max_string (snd (set_gain depth g s)) = get_max_string s)
  /\ (forall b,
     get_min_string (snd (set_offsetted depth b s)) = get_min_string s
     /\ get_max_string (snd (set_offsetted depth b s)) = get_max_string s)
  /\ get_min_string (snd (get_data SDR_SAMPLE_SIZE s)) = get_min_string s
  /\ get_max_string (snd (get_data SDR_SAMPLE_SIZE s)) = get_max_string s.
Proof.
  split; [|split; [|split; [|split]]]; intros;
    apply strings_of_kept_scaling.
  - apply keeps_set_nominal_center_freq; scaling_side.
  - apply keeps_set_sample_rate; scaling_side.
  - apply keeps_set_gain; scaling_side.
  - apply set_offsetted_keeps_scaling.
  - apply get_data_keeps_scaling.
Qed.

End ScalingKept.

(** ** Fixed bounds have a value *)

Section WellScaled.

Context {F Dev : Type}.
Context {num : PyFloat F} {np : Numpy F} {drv : Driver F complex Dev}.
Variable SDR_SAMPLE_SIZE : nat.

Abbreviation model := (FreqShowModel F Dev).

Lemma well_scaled_of_kept (s s' : model) :
  scaling_kept s s' -> well_scaled s -> well_scaled s'.
Proof.
  intros (_ & _ & Hmn & Hmx & Hlo & Hhi) (Wlo & Whi).
  split; intros Hfixed.
  - rewrite Hmn in Hfixed. rewrite (Hlo Hfixed). apply Wlo, Hfixed.
  - rewrite Hmx in Hfixed. rewrite (Hhi Hfixed). apply Whi, Hfixed.
Qed.

Lemma set_min_intensity_run (intensity : setting F) (s : model) :
  set_min_intensity intensity s
  = (Ok tt,
     cleared match intensity with
             | AUTO => with_min_auto_scale true s
             | Value v => with_min_intensity (Some v)
                            (with_min_auto_scale false s)
             end).
Proof.
  unfold set_min_intensity, set_min_intensity_of.
  destruct intensity; unfold converted, bind, modify, lift;
    rewrite clear_intensity_run; reflexivity.
Qed.

Lemma set_max_intensity_run (intensity : setting F) (s : model) :
  set_max_intensity intensity s
  = (Ok tt,
     cleared match intensity with
             | AUTO => with_max_auto_scale true s
             | Value v => with_max_intensity (Some v)
                            (with_max_auto_scale false s)
             end).
Proof.
  unfold set_max_intensity, set_max_intensity_of.
  destruct intensity; unfold converted, bind, modify, lift;
    rewrite clear_intensity_run; reflexivity.
Qed.

Lemma set_min_intensity_well_scaled (intensity : setting F) (s : model) :
  well_scaled s -> well_scaled (snd (set_min_intensity intensity s)).
Proof.
  intros (Wlo & Whi). rewrite set_min_intensity_run.
  destruct s as [w h mn mx mi ma rg d o g out]; simpl in *.
  destruct intensity; unfold well_scaled; simpl; split; intros Hfixed;
    try discriminate; try rewrite Hfixed; auto.
Qed.

Lemma set_max_intensity_well_scaled (intensity : setting F) (s : model) :
  well_scaled s -> well_scaled (snd (set_max_intensity intensity s)).
Proof.
  intros (Wlo & Whi). rewrite set_max_intensity_run.
  destruct s as [w h mn mx mi ma rg d o g out]; simpl in *.
  destruct intensity; unfold well_scaled; simpl; split; intros Hfixed;
    try discriminate; try rewrite Hfixed; auto.
Qed.

Lemma init_modes (depth w h : nat) (dev : Dev) :
  min_auto_scale (snd (init depth w h dev)) = true
  /\ max_auto_scale (snd (init depth w h dev)) = true.
Proof.
  unfold init. unfold bind at 1. rewrite set_min_intensity_run.
  unfold bind at 1. rewrite set_max_intensity_run.
  match goal with
  | |- context [_initialize_rtlsdr depth ?s0] =>
      destruct (keeps_initialize_rtlsdr scaling_kept
                  scaling_kept_refl scaling_kept_trans
                  ltac:(scaling_side) ltac:(scaling_side) ltac:(scaling_side)
                  ltac:(scaling_side) ltac:(scaling_side) depth s0)
        as (_ & _ & Hmn & Hmx & _)
  end.
  split; (etransitivity; [first [exact Hmn|exact Hmx]|reflexivity]).
Qed.

Lemma set_min_intensity_of_converted (intensity : setting F) (s : model) :
  set_min_intensity_of (converted intensity) s = set_min_intensity intensity s.
Proof. destruct intensity; reflexivity. Qed.

Lemma set_max_intensity_of_converted (intensity : setting F) (s : model) :
  set_max_intensity_of (converted intensity) s = set_max_intensity intensity s.
Proof. destruct intensity; reflexivity. Qed.

Lemma set_min_intensity_of_returns
  (intensity : setting (result F)) (s s' : model) :
  set_min_intensity_of intensity s = (Ok tt, s') ->
  exists x : setting F,
    intensity = converted x /\ s' = snd (set_min_intensity x s).
Proof.
  destruct intensity as [|[v|e]]; intros H.
  - exists AUTO. split; [reflexivity|].
    rewrite <- (set_min_intensity_of_converted AUTO). simpl converted.
    rewrite H. reflexivity.
  - exists (Value v). split; [reflexivity|].
    rewrite <- (set_min_intensity_of_converted (Value v)). simpl converted.
    rewrite H. reflexivity.
  - discriminate H.
Qed.

Lemma set_max_intensity_of_returns
  (intensity : setting (result F)) (s s' : model) :
  set_max_intensity_of intensity s = (Ok tt, s') ->
  exists x : setting F,
    intensity = converted x /\ s' = snd (set_max_intensity x s).
Proof.
  destruct intensity as [|[v|e]]; intros H.
  - exists AUTO. split; [reflexivity|].
    rewrite <- (set_max_intensity_of_converted AUTO). simpl converted.
    rewrite H. reflexivity.
  - exists (Value v). split; [reflexivity|].
    rewrite <- (set_max_intensity_of_converted (Value v)). simpl converted.
    rewrite H. reflexivity.
  - discriminate H.
Qed.

(** X3.  A fixed bound has a value: this holds of the object the
    constructor leaves; [set_nominal_center_freq], [set_sample_rate],
    [set_gain], [set_offsetted] and [get_data] keep it however they
    end, and the two intensity setters keep it whenever they return.
    An intensity setter whose argument [float] rejects raises with the
    flag already [False] and the bound as it was: on an object whose
    bound was absent the fixed bound is then absent. *)
Theorem fixed_bounds_always_set :
  (forall (depth w h : nat) (dev : Dev),
     well_scaled (snd (init depth w h dev)))
  /\ (forall (depth : nat) (s : model),
        well_scaled s ->
        (forall f, well_scaled (snd (set_nominal_center_freq depth f s)))
        /\ (forall r, well_scaled (snd (set_sample_rate depth r s)))
        /\ (forall g, well_scaled (snd (set_gain depth g s)))
        /\ (forall b, well_scaled (snd (set_offsetted depth b s)))
        /\ well_scaled (snd (get_data SDR_SAMPLE_SIZE s))
        /\ (forall x s', set_min_intensity_of x s = (Ok tt, s') ->
              well_scaled s')
        /\ (forall x s', set_max_intensity_of x s = (Ok tt, s') ->
              well_scaled s'))
  /\ (forall (s : model) (e : exn),
        set_min_intensity_of (Value (Raise e)) s
        = (Raise e, with_min_auto_scale false s)
        /\ set_max_intensity_of (Value (Raise e)) s
           = (Raise e, with_max_auto_scale false s)
        /\ (min_intensity s = None ->
            ~ well_scaled (with_min_auto_scale false s))
        /\ (max_intensity s = None ->
            ~ well_scaled (with_max_auto_scale false s))).
Proof.
  split; [|split].
  - intros depth w h dev. destruct (init_modes depth w h dev) as [Hmn Hmx].
    split; intros Hfixed; congruence.
  - intros depth s Hs.
    split; [|split; [|split; [|split; [|split; [|split]]]]]; intros.
    + eapply well_scaled_of_kept; [|exact Hs].
      apply keeps_set_nominal_center_freq; scaling_side.
    + eapply well_scaled_of_kept; [|exact Hs].
      apply keeps_set_sample_rate; scaling_side.
    + eapply well_scaled_of_kept; [|exact Hs].
      apply keeps_set_gain; scaling_side.
    + eapply well_scaled_of_kept; [|exact Hs].
      apply set_offsetted_keeps_scaling.
    + eapply well_scaled_of_kept; [|exact Hs].
      apply get_data_keeps_scaling.
    + destruct (set_min_intensity_of_returns x s s' H) as (y & _ & ->).
      apply set_min_intensity_well_scaled, Hs.
    + destruct (set_max_intensity_of_returns x s s' H) as (y & _ & ->).
      apply set_max_intensity_well_scaled, Hs.
  - intros s e. split; [reflexivity|]. split; [reflexivity|].
    split; intros Hnone [Wlo Whi].
    + apply Wlo; [reflexivity|exact Hnone].
    + apply Whi; [reflexivity|exact Hnone].
Qed.

End WellScaled.

(** ** One acquisition *)

Section OneAcquisition.

Context {F Dev : Type}.
Context {num : PyFloat F} {np : Numpy F} {drv : Driver F complex Dev}.
Variable SDR_SAMPLE_SIZE : nat.

Abbreviation model := (FreqShowModel F Dev).

Lemma length_np_fft (samples spectrum : list complex) :
  np_fft samples = Ok spectrum -> List.length spectrum = List.length samples.
Proof.
  destruct samples as [|c rest]; [discriminate|].
  unfold np_fft. intros H. injection H as <-.
  simpl. rewrite length_map, length_seq. reflexivity.
Qed.

Lemma length_frame (spectrum : list complex) :
  List.length (map decibels (fftshift (slice_1_m1 (map absolute spectrum))))
  = List.length spectrum - 2.
Proof.
  rewrite length_map, length_fftshift, length_slice_1_m1, length_map.
  reflexivity.
Qed.

(** X4.  On an object whose fixed bounds have a value, once the read
    has returned a block: [get_data] returns a frame when at least 3
    samples are kept, or when at least one is and both bounds are
    fixed, and the frame has two values less than the samples kept,
    the smaller of [width + 2] and the size of the block.  It raises
    ValueError, leaving the object as it was but for the device, when
    the block is empty, or has at most 2 samples while a bound is
    automatic. *)
Theorem get_data_returns_or_raises
  (s : model) (block : list complex) (d' : Dev) :
  sdr_read_samples SDR_SAMPLE_SIZE (sdr s) = (Ok block, d') ->
  well_scaled s ->
  (3 <= Nat.min (width s + 2) (List.length block)
   \/ (1 <= List.length block
       /\ min_auto_scale s = false /\ max_auto_scale s = false) ->
   exists (frame : list F) (s' : model),
     get_data SDR_SAMPLE_SIZE s = (Ok frame, s')
     /\ List.length frame = Nat.min (width s + 2) (List.length block) - 2)
  /\ (List.length block = 0
      \/ (List.length block <= 2
          /\ (min_auto_scale s = true \/ max_auto_scale s = true)) ->
      get_data SDR_SAMPLE_SIZE s = (Raise ValueError, with_sdr d' s)).
Proof.
  intros Hread [Wlo Whi].
  unfold get_data. unfold_monad. rewrite Hread.
  assert (Hkept : List.length (firstn (width s + 2) block)
                  = Nat.min (width s + 2) (List.length block))
    by apply length_firstn.
  destruct (np_fft (firstn (width s + 2) block)) as [spectrum|e] eqn:Hfft.
  - assert (Hne : 1 <= List.length block).
    { destruct block; [|simpl; lia].
      rewrite firstn_nil in Hfft. discriminate. }
    apply length_np_fft in Hfft. cbv zeta.
    pose proof (length_frame spectrum) as Hlen.
    set (frame := map decibels _) in *.
    rewrite Hfft, Hkept in Hlen. clear Hfft.
    destruct s as [w h mn mx mi ma rg d0 o g out]; simpl in *.
    destruct frame as [|x rest] eqn:Hframe; simpl in Hlen.
    + (* no value left once the two ends are dropped *)
      split.
      * intros [Hthree|(_ & Hmn & Hmx)]; [lia|]. subst mn mx. simpl.
        destruct mi as [lo|]; [|exfalso; apply Wlo; reflexivity].
        destruct ma as [hi|]; [|exfalso; apply Whi; reflexivity].
        simpl. eexists _, _. split; [reflexivity|simpl; lia].
      * intros [Hzero|(_ & [Hmn|Hmx])]; [lia| |].
        -- subst mn. reflexivity.
        -- subst mx. destruct mn; reflexivity.
    + split.
      * intros _.
        destruct mn, mx; simpl;
          destruct mi as [lo|], ma as [hi|]; simpl;
          try (exfalso; (apply Wlo + apply Whi); reflexivity);
          eexists _, _; (split; [reflexivity|simpl; lia]).
      * intros [Hzero|(Htwo & _)]; lia.
  - destruct (firstn (width s + 2) block) as [|c rest] eqn:Hs;
      [|discriminate].
    inversion Hfft; subst; clear Hfft. simpl in Hkept.
    split.
    + intros [Hthree|(Hone & _)]; lia.
    + intros _. reflexivity.
Qed.

(** X5.  After a [get_data] that returns, both bounds have a value and
    the range is the maximum minus the minimum, whatever their order. *)
Theorem get_data_sets_range (s s' : model) (frame : list F) :
  get_data SDR_SAMPLE_SIZE s = (Ok frame, s') ->
  exists lo hi : F,
    min_intensity s' = Some lo
    /\ max_intensity s' = Some hi
    /\ range s' = Some (fsub hi lo).
Proof.
  unfold get_data. unfold_monad. intros Hrun.
  destruct (sdr_read_samples SDR_SAMPLE_SIZE (sdr s)) as [[block|e] d];
    [|discriminate].
  destruct (np_fft (firstn (width s + 2) block)) as [spectrum|e];
    [|discriminate].
  cbv zeta in Hrun. set (fr := map decibels _) in Hrun.
  destruct s as [w h mn mx mi ma rg d0 o g out]; simpl in *.
  destruct mn, mx; simpl in Hrun;
    destruct (np_min fr) as [lo|e1];
    destruct (np_max fr) as [hi|e2];
    destruct mi as [p1|], ma as [p2|]; simpl in Hrun;
    inversion Hrun; subst; clear Hrun; simpl;
    eexists _, _; repeat split; reflexivity.
Qed.

(** X6.  [get_data] makes one call on the device, the read, and leaves
    the offset flag, the gain mode and the output as they were, however
    it ends. *)
Theorem get_data_only_reads (s : model) :
  sdr (snd (get_data SDR_SAMPLE_SIZE s))
  = snd (sdr_read_samples SDR_SAMPLE_SIZE (sdr s))
  /\ offsetted (snd (get_data SDR_SAMPLE_SIZE s)) = offsetted s
  /\ auto_gain (snd (get_data SDR_SAMPLE_SIZE s)) = auto_gain s
  /\ stdout (snd (get_data SDR_SAMPLE_SIZE s)) = stdout s.
Proof.
  unfold get_data. unfold_monad.
  destruct s as [w h mn mx mi ma rg d0 o g out]; simpl.
  destruct (sdr_read_samples SDR_SAMPLE_SIZE d0) as [[block|e] d];
    [|simpl; repeat split; reflexivity].
  destruct (np_fft (firstn (w + 2) block)) as [spectrum|e];
    [|simpl; repeat split; reflexivity].
  cbv zeta. set (fr := map decibels _).
  destruct mn, mx; simpl;
    destruct (np_min fr) as [lo|e1];
    destruct (np_max fr) as [hi|e2];
    destruct mi as [p1|], ma as [p2|]; simpl;
    repeat split; reflexivity.
Qed.

(** X7.  The frame depends on the width and the device only: two
    objects of the same width on the same device get the same frame,
    whatever their scaling state. *)
Theorem frame_depends_on_samples_only
  (s1 s2 s1' s2' : model) (frame1 frame2 : list F) :
  width s1 = width s2 ->
  sdr s1 = sdr s2 ->
  get_data SDR_SAMPLE_SIZE s1 = (Ok frame1, s1') ->
  get_data SDR_SAMPLE_SIZE s2 = (Ok frame2, s2') ->
  frame1 = frame2 /\ sdr s1' = sdr s2'.
Proof.
  unfold get_data. unfold_monad. intros Hw Hd Hrun1 Hrun2.
  rewrite <- Hd, <- Hw in Hrun2.
  destruct (sdr_read_samples SDR_SAMPLE_SIZE (sdr s1)) as [[block|e] d];
    [|discriminate].
  destruct (np_fft (firstn (width s1 + 2) block)) as [spectrum|e];
    [|discriminate].
  cbv zeta in Hrun1, Hrun2. set (fr := map decibels _) in *.
  destruct s1 as [w h mn mx mi ma rg d0 o g out]; simpl in *.
  destruct s2 as [w2 h2 mn2 mx2 mi2 ma2 rg2 d2 o2 g2 out2]; simpl in *.
  destruct (np_min fr) as [lo|e1]; destruct (np_max fr) as [hi|e2];
    destruct mn, mx; simpl in Hrun1;
    destruct mi as [p1|], ma as [p2|]; simpl in Hrun1;
    inversion Hrun1; subst; clear Hrun1;
    destruct mn2, mx2; simpl in Hrun2;
    destruct mi2 as [q1|], ma2 as [q2|]; simpl in Hrun2;
    inversion Hrun2; subst; clear Hrun2; split; reflexivity.
Qed.

End OneAcquisition.

(** ** The recovery, whatever the device does *)

Section Recovery.

Context {F Dev : Type}.
Context {num : PyFloat F} {np : Numpy F} {drv : Driver F complex Dev}.

Abbreviation model := (FreqShowModel F Dev).
Abbreviation M' := (@M F Dev).

Lemma bind_returns {A B : Type} (c : M' A) (k : A -> M' B)
  (s s' : model) (b : B) :
  bind c k s = (Ok b, s') ->
  exists (a : A) (s1 : model), c s = (Ok a, s1) /\ k a s1 = (Ok b, s').
Proof.
  unfold bind. destruct (c s) as [[a|e] s1]; [|discriminate].
  intros H. exists a, s1. split; [reflexivity|exact H].
Qed.

Lemma offset_stays_off_refl (s : model) : offset_stays_off s s.
Proof. intros H. exact H. Qed.

Lemma offset_stays_off_trans (s1 s2 s3 : model) :
  offset_stays_off s1 s2 -> offset_stays_off s2 s3 -> offset_stays_off s1 s3.
Proof. intros H12 H23 H. apply H23, H12, H. Qed.

Ltac offset_side :=
  first [ apply offset_stays_off_refl | apply offset_stays_off_trans
        | intros; unfold offset_stays_off; simpl; intros; assumption
        | intros; unfold offset_stays_off; simpl; intros; reflexivity ].

Lemma set_gain_auto_returns
  (report : string -> string -> M' (string * string))
  (s s' : model) (r : option (string * string)) :
  set_gain_with report AUTO s = (Ok r, s') ->
  exists d' : Dev, s' = cleared (with_auto_gain true (with_sdr d' s)).
Proof.
  unfold set_gain_with. unfold bind at 1, call.
  destruct (sdr_set_manual_gain_enabled false (sdr s)) as [[[]|e] d'];
    [|discriminate].
  unfold bind at 1, modify. unfold bind. rewrite clear_intensity_run.
  unfold ret. intros H. injection H as _ <-. exists d'. reflexivity.
Qed.

(** A re-initialisation that returns leaves the defaults, whatever
    happened to the setters it called. *)
Lemma initialize_returns_at_defaults
  (report : string -> string -> M' (string * string)) (s s' : model) :
  (forall action error, keeps offset_stays_off (report action error)) ->
  _initialize_rtlsdr_with report s = (Ok tt, s') ->
  at_defaults s'.
Proof.
  intros Hreport. unfold _initialize_rtlsdr_with. intros Hrun.
  apply bind_returns in Hrun. destruct Hrun as (u1 & s1 & _ & Hrun).
  apply bind_returns in Hrun. destruct Hrun as (u2 & s2 & Hoff & Hrun).
  apply bind_returns in Hrun. destruct Hrun as (r3 & s3 & Hfreq & Hrun).
  apply bind_returns in Hrun. destruct Hrun as (r4 & s4 & Hrate & Hrun).
  apply bind_returns in Hrun. destruct Hrun as (r5 & s5 & Hgain & Hrun).
  unfold ret in Hrun. injection Hrun as <-.
  unfold modify in Hoff. injection Hoff as _ <-.
  assert (H3 : offsetted s3 = false).
  { pose proof (keeps_set_nominal_center_freq_with offset_stays_off
                  offset_stays_off_refl offset_stays_off_trans
                  ltac:(offset_side) ltac:(offset_side)
                  report Hreport (of_int 145) (with_offsetted false s1)) as H.
    rewrite Hfreq in H. apply H. reflexivity. }
  assert (H4 : offsetted s4 = false).
  { pose proof (keeps_set_sample_rate_with offset_stays_off
                  offset_stays_off_refl offset_stays_off_trans
                  ltac:(offset_side)
                  report Hreport (fdiv (of_int 24) (of_int 10)) s3) as H.
    rewrite Hrate in H. apply H. exact H3. }
  apply set_gain_auto_returns in Hgain. destruct Hgain as [d' ->].
  unfold at_defaults, cleared; simpl.
  split; [exact H4|]. split; [reflexivity|]. split; [reflexivity|].
  split; intros Hauto; rewrite Hauto; reflexivity.
Qed.

Lemma report_error_keeps_offset_off (depth : nat) (action error : string) :
  keeps offset_stays_off (report_error depth action error).
Proof.
  apply keeps_report_error; offset_side.
Qed.

Lemma report_error_returns
  (depth : nat) (action error : string) (s s' : model) (p : string * string) :
  report_error depth action error s = (Ok p, s') ->
  p = ("Can't " ++ action, error) /\ at_defaults s'.
Proof.
  destruct depth as [|d]; [discriminate|].
  rewrite report_error_step.
  destruct (_initialize_rtlsdr_with (report_error d) _) as [[[]|e] s1] eqn:Hinit;
    [|discriminate].
  intros H. injection H as <- <-. split; [reflexivity|].
  eapply initialize_returns_at_defaults; [|exact Hinit].
  intros a e. apply report_error_keeps_offset_off.
Qed.

Lemma reported_returns
  (depth : nat) (action detail : string) (s s' : model)
  (r : option (string * string)) :
  bind (report_error depth action detail) (fun e => ret (Some e)) s = (Ok r, s') ->
  r = Some ("Can't " ++ action, detail) /\ at_defaults s'.
Proof.
  intros Hrun. apply bind_returns in Hrun.
  destruct Hrun as (p & s1 & Hreport & Hret).
  unfold ret in Hret. injection Hret as <- <-.
  apply report_error_returns in Hreport. destruct Hreport as [-> Hdef].
  split; [reflexivity|exact Hdef].
Qed.

(** X8.  When the driver call guarded by a setter raises IOError and
    the setter returns all the same, it returns the summary and the
    detail of that first error, whatever failed again during the
    recovery, and the object is at its defaults: offset off, automatic
    gain, no range, automatic bounds absent.  So [set_offsetted(True)]
    that ends this way leaves the offset off. *)
Theorem recovery_leaves_defaults
  (depth : nat) (s s' : model) (detail : string) (d0 : Dev)
  (r : option (string * string)) :
  (forall f,
     sdr_set_center_freq (actual_hz f s) (sdr s) = (Raise (IOError detail), d0) ->
     set_nominal_center_freq depth f s = (Ok r, s') ->
     r = Some ("Can't set center frequency", detail) /\ at_defaults s')
  /\ (forall x n,
     to_int (fmul x (of_int 1000000)) = Ok n ->
     sample_rate_ok n = true ->
     sdr_set_sample_rate n (sdr s) = (Raise (IOError detail), d0) ->
     set_sample_rate depth x s = (Ok r, s') ->
     r = Some ("Can't set sample rate", detail) /\ at_defaults s')
  /\ (forall g,
     sdr_set_gain g (sdr s) = (Raise (IOError detail), d0) ->
     set_gain depth (Value g) s = (Ok r, s') ->
     r = Some ("Can't set gain", detail) /\ at_defaults s')
  /\ (forall enabled,
     sdr_set_center_freq
       (actual_hz (get_nominal_center_freq s) (with_offsetted enabled s)) (sdr s)
     = (Raise (IOError detail), d0) ->
     set_offsetted depth enabled s = (Ok r, s') ->
     r = Some ("Can't set center frequency", detail) /\ at_defaults s').
Proof.
  split; [|split; [|split]].
  - intros f Hset Hrun.
    rewrite (set_nominal_center_freq_failed depth f s detail d0 Hset) in Hrun.
    exact (reported_returns _ _ _ _ _ _ Hrun).
  - intros x n Hint Hok Hset Hrun.
    rewrite (set_sample_rate_failed depth x s n detail d0 Hint Hok Hset) in Hrun.
    exact (reported_returns _ _ _ _ _ _ Hrun).
  - intros g Hset Hrun.
    rewrite (set_gain_value_failed depth g s detail d0 Hset) in Hrun.
    exact (reported_returns _ _ _ _ _ _ Hrun).
  - intros enabled Hset Hrun.
    unfold set_offsetted in Hrun. unfold bind at 1, get in Hrun.
    unfold bind at 1, modify in Hrun.
    rewrite (set_nominal_center_freq_failed depth (get_nominal_center_freq s)
               (with_offsetted enabled s) detail d0 Hset) in Hrun.
    exact (reported_returns _ _ _ _ _ _ Hrun).
Qed.

(** A tuner that rejects every frequency, on a device that can always
    be opened again. *)
Section StuckTuner.

Hypothesis opens : forall d : Dev, exists d' : Dev, RtlSdr d = (Ok tt, d').
Hypothesis rejects :
  forall (hz : F) (d : Dev),
    exists (detail : string) (d' : Dev),
      sdr_set_center_freq hz d = (Raise (IOError detail), d').

Lemma set_nominal_center_freq_with_exhausts
  (report : string -> string -> M' (string * string)) (f : F) (s : model) :
  (forall action error s0, fst (report action error s0) = Raise RecursionError) ->
  fst (set_nominal_center_freq_with report f s) = Raise RecursionError.
Proof.
  intros Hreport. unfold set_nominal_center_freq_with.
  unfold try_except_IOError, bind at 1 2, get, call.
  destruct (rejects (fmul (fadd f (of_int (get_offset_mhz s))) (of_int 1000000))
              (sdr s)) as (detail & d' & Hset).
  rewrite Hset. unfold bind.
  specialize (Hreport "set center frequency" detail (with_sdr d' s)).
  destruct (report "set center frequency" detail (with_sdr d' s)) as [[p|e] s1];
    simpl in *; [discriminate|injection Hreport as ->; reflexivity].
Qed.

Lemma report_error_exhausts (depth : nat) (action error : string) (s : model) :
  fst (report_error depth action error s) = Raise RecursionError.
Proof.
  revert action error s. induction depth as [|d IH]; intros action error s.
  - reflexivity.
  - rewrite report_error_step.
    match goal with
    | |- context [_initialize_rtlsdr_with _ ?s0] => set (s1 := s0)
    end.
    assert (Hinit : fst (_initialize_rtlsdr_with (report_error d) s1)
                    = Raise RecursionError).
    { unfold _initialize_rtlsdr_with. unfold bind at 1, call.
      destruct (opens (sdr s1)) as [d' Hopen]. rewrite Hopen.
      unfold bind at 1, modify. unfold bind at 1.
      pose proof (set_nominal_center_freq_with_exhausts (report_error d)
                    (of_int 145) (with_offsetted false (with_sdr d' s1)) IH)
        as Hfreq.
      destruct (set_nominal_center_freq_with _ _ _) as [[r|e] s2];
        simpl in *; [discriminate|injection Hfreq as ->; reflexivity]. }
    destruct (_initialize_rtlsdr_with (report_error d) s1) as [[u|e] s2];
      simpl in *; [discriminate|injection Hinit as ->; reflexivity].
Qed.

(** X9.  On a device that can always be opened again but whose tuner
    rejects every frequency, [set_nominal_center_freq], [set_offsetted]
    and [_initialize_rtlsdr] never return: whatever recursion depth is
    allowed, the recovery re-enters itself until RecursionError. *)
Theorem stuck_tuner_exhausts_recursion
  (depth : nat) (f : F) (enabled : bool) (s : model) :
  fst (set_nominal_center_freq depth f s) = Raise RecursionError
  /\ fst (set_offsetted depth enabled s) = Raise RecursionError
  /\ fst (_initialize_rtlsdr depth s) = Raise RecursionError.
Proof.
  assert (Hfreq : forall f0 s0,
             fst (set_nominal_center_freq depth f0 s0) = Raise RecursionError).
  { intros f0 s0. apply set_nominal_center_freq_with_exhausts.
    intros action error s1. apply report_error_exhausts. }
  split; [apply Hfreq|]. split.
  - unfold set_offsetted. unfold bind at 1, get. unfold bind at 1, modify.
    apply Hfreq.
  - unfold _initialize_rtlsdr, _initialize_rtlsdr_with.
    unfold bind at 1, call.
    destruct (opens (sdr s)) as [d' Hopen]. rewrite Hopen.
    unfold bind at 1, modify. unfold bind at 1.
    specialize (Hfreq (of_int 145) (with_offsetted false (with_sdr d' s))).
    unfold set_nominal_center_freq in Hfreq.
    destruct (set_nominal_center_freq_with _ _ _) as [[r|e] s2];
      simpl in *; [discriminate|injection Hfreq as ->; reflexivity].
Qed.

End StuckTuner.

End Recovery.

(** ** Construction and odd inputs, in binary64 *)

Section Binary64More.

Context {Dev : Type}.
Context {np : Numpy spec_float} {drv : Driver spec_float complex Dev}.

Abbreviation model := (FreqShowModel spec_float Dev).

(** X10.  The constructor.  When the driver calls of the
    initialisation succeed, the object has the size given, both bounds
    automatic and absent, no range, the offset off, automatic gain, and
    nothing printed; when [RtlSdr()] raises, the constructor raises the
    same exception. *)
Theorem init_outcome (depth w h : nat) (d0 : Dev) :
  (forall d4 : Dev,
     reopened d0 d4 ->
     init depth w h d0
     = (Ok tt, mkModel w h true true None None None d4 false true []))
  /\ (forall (e : exn) (d1 : Dev),
        RtlSdr d0 = (Raise e, d1) ->
        fst (init depth w h d0) = Raise e).
Proof.
  split.
  - intros d4 Hre. unfold init.
    unfold bind at 1. rewrite set_min_intensity_run.
    unfold bind at 1. rewrite set_max_intensity_run.
    unfold _initialize_rtlsdr.
    rewrite initialize_rtlsdr_run with (d4 := d4) by exact Hre.
    reflexivity.
  - intros e d1 Hopen. unfold init.
    unfold bind at 1. rewrite set_min_intensity_run.
    unfold bind at 1. rewrite set_max_intensity_run.
    unfold _initialize_rtlsdr.
    rewrite initialize_rtlsdr_cannot_open with (e := e) (d1 := d1)
      by exact Hopen.
    reflexivity.
Qed.

Lemma set_sample_rate_conversion_raises
  (depth : nat) (r : spec_float) (s : model) (e : exn) :
  to_int (fmul r (of_int 1000000)) = Raise e ->
  set_sample_rate depth r s = (Raise e, s).
Proof.
  intros Hint. unfold set_sample_rate, set_sample_rate_with.
  unfold bind at 1, lift. rewrite Hint. reflexivity.
Qed.

(** X11.  [set_sample_rate] on NaN raises ValueError and on an infinity
    OverflowError, from [int]; no validation error is returned and the
    object, the device included, is untouched. *)
Theorem set_sample_rate_of_no_number (depth : nat) (r : spec_float) (s : model) :
  (B64.is_nan r = true ->
   set_sample_rate depth r s = (Raise ValueError, s))
  /\ (forall sign : bool,
        r = S754_infinity sign ->
        set_sample_rate depth r s = (Raise OverflowError, s)).
Proof.
  split.
  - intros Hnan. apply set_sample_rate_conversion_raises.
    destruct r; try discriminate. reflexivity.
  - intros sign ->. apply set_sample_rate_conversion_raises.
    destruct sign; reflexivity.
Qed.

End Binary64More.

(** ** What the getters show *)

Section Shown.

Context {F Dev : Type}.
Context {num : PyFloat F} {fmt : PyFormat F}.
Context {np : Numpy F} {drv : Driver F complex Dev}.

Abbreviation model := (FreqShowModel F Dev).

(** X13.  After [set_min_intensity x], [get_min_string] returns ['AUTO']
    when [x] is ['AUTO'] and [x] with no decimals otherwise; the same
    for the maximum.  After an accepted [set_gain('AUTO')], [get_gain]
    returns ['AUTO']; after an accepted [set_gain g] on a device that
    reads back the gain written, it returns [g] with one decimal. *)
Theorem shown_values_follow_setters (depth : nat) (s : model) :
  (forall x : setting F,
     get_min_string (snd (set_min_intensity x s))
     = Ok match x with AUTO => "AUTO" | Value v => format_f 0 v end)
  /\ (forall x : setting F,
        get_max_string (snd (set_max_intensity x s))
        = Ok match x with AUTO => "AUTO" | Value v => format_f 0 v end)
  /\ (forall d' : Dev,
        sdr_set_manual_gain_enabled false (sdr s) = (Ok tt, d') ->
        get_gain (snd (set_gain depth AUTO s)) = "AUTO")
  /\ (forall (g : F) (d' : Dev),
        sdr_set_gain g (sdr s) = (Ok tt, d') ->
        sdr_get_gain d' = g ->
        get_gain (snd (set_gain depth (Value g) s)) = format_f 1 g).
Proof.
  split; [|split; [|split]].
  - intros x. rewrite set_min_intensity_run. destruct x; reflexivity.
  - intros x. rewrite set_max_intensity_run. destruct x; reflexivity.
  - intros d' Hset. unfold set_gain.
    rewrite (set_gain_auto_accepted _ s d' Hset). reflexivity.
  - intros g d' Hset Hecho.
    rewrite (set_gain_value_accepted depth g s d' Hset).
    unfold get_gain. simpl. rewrite Hecho. reflexivity.
Qed.

End Shown.

(** ** Whole numbers of megahertz, in binary64 *)

Section WholeMegahertz.

Context {Dev : Type}.
Context {np : Numpy spec_float} {drv : Driver spec_float complex Dev}.

Abbreviation model := (FreqShowModel spec_float Dev).

Lemma same_float_eq (x y : spec_float) : same_float x y = true -> x = y.
Proof.
  destruct x as [s|s| |s m e], y as [s'|s'| |s' m' e']; simpl;
    try discriminate; try reflexivity.
  - intros H. apply Bool.eqb_prop in H. congruence.
  - intros H. apply Bool.eqb_prop in H. congruence.
  - rewrite !andb_true_iff. intros [[Hs Hm] He].
    apply Bool.eqb_prop in Hs. apply Pos.eqb_eq in Hm. apply Z.eqb_eq in He.
    congruence.
Qed.

Lemma whole_megahertz_checked :
  forallb (fun n => whole_megahertz_exact 0 n && whole_megahertz_exact 125 n)
    (seq 0 3001) = true.
Proof. vm_compute. reflexivity. Qed.

Lemma whole_megahertz (offset_on : bool) (n : nat) :
  n <= 3000 ->
  let offset := if offset_on then 125%Z else 0%Z in
  let hz := B64.mul (B64.add (B64.of_Z (Z.of_nat n)) (B64.of_Z offset))
              (B64.of_Z 1000000) in
  hz = B64.of_Z ((Z.of_nat n + offset) * 1000000)
  /\ B64.sub (B64.div hz (B64.of_Z 1000000)) (B64.of_Z offset)
     = B64.of_Z (Z.of_nat n).
Proof.
  intros Hn. cbv zeta.
  pose proof whole_megahertz_checked as Hall.
  rewrite forallb_forall in Hall.
  specialize (Hall n). rewrite in_seq in Hall.
  assert (Hin : 0 <= n < 0 + 3001) by lia.
  apply Hall in Hin. apply andb_true_iff in Hin. destruct Hin as [H0 H125].
  destruct offset_on; [clear H0; rename H125 into H|clear H125; rename H0 into H];
    unfold whole_megahertz_exact in H; cbv zeta in H;
    apply andb_true_iff in H; destruct H as [Hhz Hback];
    apply same_float_eq in Hhz; apply same_float_eq in Hback;
    split; assumption.
Qed.

(** X14.  In binary64, for a whole number of megahertz up to 3000 and
    either state of the offset: the value handed to the driver is
    exactly the number of hertz, and on a device that accepts it and
    reads it back [get_nominal_center_freq] returns exactly the number
    set. *)
Theorem whole_megahertz_round_trip
  (depth n : nat) (s : model) (d' : Dev) :
  n <= 3000 ->
  sdr_set_center_freq (actual_hz (B64.of_Z (Z.of_nat n)) s) (sdr s)
  = (Ok tt, d') ->
  sdr_get_center_freq d' = actual_hz (B64.of_Z (Z.of_nat n)) s ->
  actual_hz (B64.of_Z (Z.of_nat n)) s
  = B64.of_Z ((Z.of_nat n + get_offset_mhz s) * 1000000)
  /\ get_nominal_center_freq
       (snd (set_nominal_center_freq depth (B64.of_Z (Z.of_nat n)) s))
     = B64.of_Z (Z.of_nat n).
Proof.
  intros Hn Hset Hecho.
  destruct (whole_megahertz (offsetted s) n Hn) as [Hhz Hback].
  cbv zeta in Hhz, Hback.
  split.
  - exact Hhz.
  - unfold set_nominal_center_freq.
    rewrite (set_nominal_center_freq_accepted _ _ s d' Hset).
    unfold get_nominal_center_freq. simpl sdr. rewrite Hecho.
    exact Hback.
Qed.

(** X15.  In binary64, on a device tuned to a whole number of megahertz
    (up to 3000, offset included or not) that accepts the new frequency
    and reads it back, [set_offsetted] leaves the nominal frequency
    exactly as it was and tunes the device to exactly that number plus
    the new offset. *)
Theorem set_offsetted_exact_on_whole_megahertz
  (depth n : nat) (enabled : bool) (s : model) (d' : Dev) :
  n <= 3000 ->
  sdr_get_center_freq (sdr s)
  = B64.of_Z ((Z.of_nat n + get_offset_mhz s) * 1000000) ->
  sdr_set_center_freq
    (actual_hz (get_nominal_center_freq s) (with_offsetted enabled s)) (sdr s)
  = (Ok tt, d') ->
  sdr_get_center_freq d'
  = actual_hz (get_nominal_center_freq s) (with_offsetted enabled s) ->
  get_nominal_center_freq s = B64.of_Z (Z.of_nat n)
  /\ get_nominal_center_freq (snd (set_offsetted depth enabled s))
     = B64.of_Z (Z.of_nat n)
  /\ sdr_get_center_freq (sdr (snd (set_offsetted depth enabled s)))
     = B64.of_Z ((Z.of_nat n + (if enabled then 125 else 0)) * 1000000).
Proof.
  intros Hn Htuned Hset Hecho.
  assert (Hbefore : get_nominal_center_freq s = B64.of_Z (Z.of_nat n)).
  { unfold get_nominal_center_freq. rewrite Htuned.
    unfold get_offset_mhz, is_offsetted.
    destruct (whole_megahertz (offsetted s) n Hn) as [Hhz Hback].
    cbv zeta in Hhz, Hback. rewrite <- Hhz. exact Hback. }
  split; [exact Hbefore|].
  destruct (whole_megahertz enabled n Hn) as [Hhz Hback].
  cbv zeta in Hhz, Hback.
  assert (Hrun : set_offsetted depth enabled s
                 = (Ok None, cleared (with_sdr d' (with_offsetted enabled s)))).
  { unfold set_offsetted. unfold bind at 1, get. unfold bind at 1, modify.
    apply set_nominal_center_freq_accepted. exact Hset. }
  rewrite Hrun. cbn [snd].
  unfold get_nominal_center_freq, get_offset_mhz, is_offsetted.
  cbn [sdr offsetted cleared with_sdr with_offsetted].
  rewrite Hecho. unfold actual_hz, get_offset_mhz, is_offsetted.
  cbn [offsetted with_offsetted]. rewrite Hbefore.
  split; [exact Hback|exact Hhz].
Qed.

(** X12.  In binary64, on a tuner that accepts every frequency and
    reads back what was written, tuned to a whole number of megahertz
    (up to 3000, offset included or not): [set_offsetted enabled]
    followed by [set_offsetted] with the flag the object had returns
    [None] twice, tunes the device to exactly that number plus the new
    offset in between, and brings the flag and the frequency of the
    device back to exactly what they were. *)
Theorem set_offsetted_there_and_back
  (depth n : nat) (enabled : bool) (s : model) :
  n <= 3000 ->
  sdr_get_center_freq (sdr s)
  = B64.of_Z ((Z.of_nat n + get_offset_mhz s) * 1000000) ->
  (forall (hz : spec_float) (d : Dev),
     exists d' : Dev,
       sdr_set_center_freq hz d = (Ok tt, d') /\ sdr_get_center_freq d' = hz) ->
  exists s1 s2 : model,
    set_offsetted depth enabled s = (Ok None, s1)
    /\ set_offsetted depth (offsetted s) s1 = (Ok None, s2)
    /\ offsetted s1 = enabled
    /\ offsetted s2 = offsetted s
    /\ sdr_get_center_freq (sdr s1)
       = B64.of_Z ((Z.of_nat n + (if enabled then 125 else 0)) * 1000000)
    /\ sdr_get_center_freq (sdr s2) = sdr_get_center_freq (sdr s).
Proof.
  intros Hn Htuned Hideal.
  destruct (whole_megahertz (offsetted s) n Hn) as [Hhz0 Hback0].
  destruct (whole_megahertz enabled n Hn) as [Hhz1 Hback1].
  cbv zeta in Hhz0, Hback0, Hhz1, Hback1.
  assert (Hbefore : get_nominal_center_freq s = B64.of_Z (Z.of_nat n)).
  { unfold get_nominal_center_freq. rewrite Htuned.
    unfold get_offset_mhz, is_offsetted. rewrite <- Hhz0. exact Hback0. }
  destruct (Hideal (actual_hz (get_nominal_center_freq s)
                      (with_offsetted enabled s)) (sdr s))
    as (d1 & Hset1 & Hecho1).
  set (s1 := cleared (with_sdr d1 (with_offsetted enabled s))).
  assert (Hhz : sdr_get_center_freq (sdr s1)
                = B64.of_Z ((Z.of_nat n + (if enabled then 125 else 0))
                            * 1000000)).
  { unfold s1. cbn [sdr cleared with_sdr]. rewrite Hecho1.
    unfold actual_hz, get_offset_mhz, is_offsetted.
    cbn [offsetted with_offsetted]. rewrite Hbefore. exact Hhz1. }
  assert (Hbetween : get_nominal_center_freq s1 = B64.of_Z (Z.of_nat n)).
  { unfold get_nominal_center_freq. rewrite Hhz.
    unfold get_offset_mhz, is_offsetted, s1.
    cbn [offsetted cleared with_sdr with_offsetted].
    rewrite <- Hhz1. exact Hback1. }
  destruct (Hideal (actual_hz (get_nominal_center_freq s1)
                      (with_offsetted (offsetted s) s1)) (sdr s1))
    as (d2 & Hset2 & Hecho2).
  exists s1, (cleared (with_sdr d2 (with_offsetted (offsetted s) s1))).
  split; [|split; [|split; [|split; [|split]]]].
  - unfold set_offsetted. unfold bind at 1, get. unfold bind at 1, modify.
    apply set_nominal_center_freq_accepted. exact Hset1.
  - unfold set_offsetted. unfold bind at 1, get. unfold bind at 1, modify.
    apply set_nominal_center_freq_accepted. exact Hset2.
  - reflexivity.
  - reflexivity.
  - exact Hhz.
  - cbn [sdr cleared with_sdr]. rewrite Hecho2, Htuned.
    unfold actual_hz, get_offset_mhz, is_offsetted.
    cbn [offsetted with_offsetted]. rewrite Hbetween. exact Hhz0.
Qed.

End WholeMegahertz.

(** ** Successive acquisitions, in binary64 *)

Section Successive.

Context {Dev : Type}.
Context {np : Numpy spec_float} {drv : Driver spec_float complex Dev}.
Variable SDR_SAMPLE_SIZE : nat.

Abbreviation model := (FreqShowModel spec_float Dev).

Ltac order_cases :=
  repeat match goal with
         | |- context [Z.compare ?a ?b] =>
             destruct (Z.compare_spec a b); subst
         | |- context [Pos.compare_cont Eq ?a ?b] =>
             change (Pos.compare_cont Eq a b) with (Pos.compare a b);
             destruct (Pos.compare_spec a b); subst
         end.

(** [not (x < y)] and [not (y < z)] give [not (x < z)] when [y] is a
    number. *)
Lemma not_below_trans (x y z : spec_float) :
  B64.is_nan y = false ->
  SFltb x y = false -> SFltb y z = false -> SFltb x z = false.
Proof.
  unfold SFltb.
  destruct x as [sx|sx| |sx mx ex], y as [sy|sy| |sy my ey],
           z as [sz|sz| |sz mz ez]; simpl; intros Hnan;
    try discriminate Hnan; clear Hnan;
    try destruct sx; try destruct sy; try destruct sz; simpl;
    try (intros; reflexivity); try (intros; discriminate);
    order_cases; simpl; intros; try reflexivity; try discriminate; lia.
Qed.

(** [<=] on floats: reflexive and total on numbers, transitive. *)
Lemma SFleb_refl (x : spec_float) : B64.is_nan x = false -> SFleb x x = true.
Proof.
  unfold SFleb. destruct x as [s|s| |s m e]; simpl; intros H;
    try discriminate H; try reflexivity.
  - destruct s; reflexivity.
  - rewrite Z.compare_refl, compare_cont_refl. destruct s; reflexivity.
Qed.

Lemma SFleb_number (x y : spec_float) :
  SFleb x y = true -> B64.is_nan x = false /\ B64.is_nan y = false.
Proof.
  unfold SFleb. destruct x as [sx|sx| |sx mx ex], y as [sy|sy| |sy my ey];
    simpl; intros H; try discriminate H; split; reflexivity.
Qed.

Lemma SFleb_total (x y : spec_float) :
  B64.is_nan x = false -> B64.is_nan y = false ->
  SFleb x y = true \/ SFleb y x = true.
Proof.
  unfold SFleb.
  destruct x as [sx|sx| |sx mx ex], y as [sy|sy| |sy my ey]; simpl;
    intros Hx Hy; try discriminate Hx; try discriminate Hy;
    try destruct sx; try destruct sy; simpl; auto;
    order_cases; simpl; auto; lia.
Qed.

Lemma SFleb_trans (x y z : spec_float) :
  SFleb x y = true -> SFleb y z = true -> SFleb x z = true.
Proof.
  unfold SFleb.
  destruct x as [sx|sx| |sx mx ex], y as [sy|sy| |sy my ey],
           z as [sz|sz| |sz mz ez]; simpl;
    try destruct sx; try destruct sy; try destruct sz; simpl;
    try (intros; reflexivity); try (intros; discriminate);
    order_cases; simpl; intros; try reflexivity; try discriminate; lia.
Qed.

Lemma SFltb_leb (x y : spec_float) : SFltb x y = true -> SFleb x y = true.
Proof.
  unfold SFltb, SFleb. destruct (SFcompare x y) as [[| |]|]; intros H;
    try discriminate H; reflexivity.
Qed.

Lemma not_SFltb_leb (x y : spec_float) :
  B64.is_nan x = false -> B64.is_nan y = false ->
  SFltb y x = false -> SFleb x y = true.
Proof.
  intros Hx Hy Hlt. destruct (SFleb_total x y Hx Hy) as [H|H]; [exact H|].
  revert Hlt H. unfold SFltb, SFleb.
  destruct x as [sx|sx| |sx mx ex], y as [sy|sy| |sy my ey]; simpl;
    try discriminate Hx; try discriminate Hy;
    try destruct sx; try destruct sy; simpl;
    try (intros; reflexivity); try (intros; discriminate);
    order_cases; simpl; intros; try reflexivity; try discriminate; lia.
Qed.

(** The builtins [min] and [max] on numbers. *)
Lemma py_min_least (a b : spec_float) :
  B64.is_nan a = false -> B64.is_nan b = false ->
  SFleb (py_min a b) a = true /\ SFleb (py_min a b) b = true.
Proof.
  intros Ha Hb. unfold py_min. simpl flt.
  destruct (SFltb b a) eqn:E.
  - split; [apply SFltb_leb; exact E|apply SFleb_refl; exact Hb].
  - split; [apply SFleb_refl; exact Ha|apply not_SFltb_leb; assumption].
Qed.

Lemma py_max_greatest (a b : spec_float) :
  B64.is_nan a = false -> B64.is_nan b = false ->
  SFleb a (py_max a b) = true /\ SFleb b (py_max a b) = true.
Proof.
  intros Ha Hb. unfold py_max. simpl flt.
  destruct (SFltb a b) eqn:E.
  - split; [apply SFltb_leb; exact E|apply SFleb_refl; exact Hb].
  - split; [apply SFleb_refl; exact Ha|apply not_SFltb_leb; assumption].
Qed.

(** The reductions of [np.min] and [np.max] over numbers. *)
Lemma fold_minimum_least (rest : list spec_float) :
  forall acc : spec_float,
    B64.is_nan acc = false ->
    (forall y, In y rest -> B64.is_nan y = false) ->
    In (fold_left np_minimum rest acc) (acc :: rest)
    /\ SFleb (fold_left np_minimum rest acc) acc = true
    /\ (forall y, In y rest -> SFleb (fold_left np_minimum rest acc) y = true).
Proof.
  induction rest as [|a rest IH]; intros acc Hacc Hrest.
  - simpl. split; [left; reflexivity|]. split; [apply SFleb_refl; exact Hacc|].
    intros y [].
  - assert (Ha : B64.is_nan a = false) by (apply Hrest; left; reflexivity).
    assert (Hrest' : forall y, In y rest -> B64.is_nan y = false)
      by (intros y Hy; apply Hrest; right; exact Hy).
    assert (Hstep : np_minimum acc a = if SFleb acc a then acc else a)
      by (unfold np_minimum; simpl; rewrite Hacc, orb_false_r; reflexivity).
    cbn [fold_left]. rewrite Hstep.
    destruct (SFleb acc a) eqn:E.
    + destruct (IH acc Hacc Hrest') as (Hin & Hle & Hall).
      split; [destruct Hin as [<-|Hin]; [left; reflexivity|right; right; exact Hin]|].
      split; [exact Hle|].
      intros y [<-|Hy]; [|apply Hall; exact Hy].
      apply SFleb_trans with (y := acc); assumption.
    + destruct (IH a Ha Hrest') as (Hin & Hle & Hall).
      split; [right; exact Hin|].
      split.
      * apply SFleb_trans with (y := a); [exact Hle|].
        destruct (SFleb_total acc a Hacc Ha) as [H|H]; [congruence|exact H].
      * intros y [<-|Hy]; [exact Hle|apply Hall; exact Hy].
Qed.

Lemma fold_maximum_greatest (rest : list spec_float) :
  forall acc : spec_float,
    B64.is_nan acc = false ->
    (forall y, In y rest -> B64.is_nan y = false) ->
    In (fold_left np_maximum rest acc) (acc :: rest)
    /\ SFleb acc (fold_left np_maximum rest acc) = true
    /\ (forall y, In y rest -> SFleb y (fold_left np_maximum rest acc) = true).
Proof.
  induction rest as [|a rest IH]; intros acc Hacc Hrest.
  - simpl. split; [left; reflexivity|]. split; [apply SFleb_refl; exact Hacc|].
    intros y [].
  - assert (Ha : B64.is_nan a = false) by (apply Hrest; left; reflexivity).
    assert (Hrest' : forall y, In y rest -> B64.is_nan y = false)
      by (intros y Hy; apply Hrest; right; exact Hy).
    assert (Hstep : np_maximum acc a = if SFleb a acc then acc else a)
      by (unfold np_maximum; simpl; rewrite Hacc, orb_false_r; reflexivity).
    cbn [fold_left]. rewrite Hstep.
    destruct (SFleb a acc) eqn:E.
    + destruct (IH acc Hacc Hrest') as (Hin & Hle & Hall).
      split; [destruct Hin as [<-|Hin]; [left; reflexivity|right; right; exact Hin]|].
      split; [exact Hle|].
      intros y [<-|Hy]; [|apply Hall; exact Hy].
      apply SFleb_trans with (y := acc); assumption.
    + destruct (IH a Ha Hrest') as (Hin & Hle & Hall).
      split; [right; exact Hin|].
      split.
      * apply SFleb_trans with (y := a); [|exact Hle].
        destruct (SFleb_total a acc Ha Hacc) as [H|H]; [congruence|exact H].
      * intros y [<-|Hy]; [exact Hle|apply Hall; exact Hy].
Qed.

(** A NaN met by the reduction reaches the result. *)
Lemma fold_minimum_nan (rest : list spec_float) :
  forall acc : spec_float,
    B64.is_nan acc = true \/ (exists y, In y rest /\ B64.is_nan y = true) ->
    B64.is_nan (fold_left np_minimum rest acc) = true.
Proof.
  induction rest as [|a rest IH]; intros acc H.
  - destruct H as [H|(y & [] & _)]. exact H.
  - cbn [fold_left]. apply IH. unfold np_minimum. simpl fle. simpl isnan.
    destruct H as [H|(y & [<-|Hy] & Hnan)].
    + rewrite H, orb_true_r. left. exact H.
    + destruct (B64.is_nan acc) eqn:Hacc.
      * rewrite orb_true_r. left. exact Hacc.
      * replace (SFleb acc a) with false
          by (destruct acc as [|[|]| |], a; simpl in *; try discriminate; reflexivity).
        left. exact Hnan.
    + right. exists y. split; assumption.
Qed.

Lemma fold_maximum_nan (rest : list spec_float) :
  forall acc : spec_float,
    B64.is_nan acc = true \/ (exists y, In y rest /\ B64.is_nan y = true) ->
    B64.is_nan (fold_left np_maximum rest acc) = true.
Proof.
  induction rest as [|a rest IH]; intros acc H.
  - destruct H as [H|(y & [] & _)]. exact H.
  - cbn [fold_left]. apply IH. unfold np_maximum. simpl fle. simpl isnan.
    destruct H as [H|(y & [<-|Hy] & Hnan)].
    + rewrite H, orb_true_r. left. exact H.
    + destruct (B64.is_nan acc) eqn:Hacc.
      * rewrite orb_true_r. left. exact Hacc.
      * replace (SFleb a acc) with false
          by (destruct a, acc as [|[|]| |]; simpl in *; try discriminate; reflexivity).
        left. exact Hnan.
    + right. exists y. split; assumption.
Qed.

(** [np.min] of a frame of numbers is its least element, [np.max] its
    greatest; with a NaN in the frame both are NaN. *)
Lemma np_min_least (frame : list spec_float) (lo : spec_float) :
  np_min frame = Ok lo ->
  ((forall x, In x frame -> B64.is_nan x = false) ->
   In lo frame /\ forall x, In x frame -> SFleb lo x = true)
  /\ ((exists x, In x frame /\ B64.is_nan x = true) -> B64.is_nan lo = true).
Proof.
  destruct frame as [|x rest]; [discriminate|].
  unfold np_min. intros H. injection H as <-. split.
  - intros Hnum.
    destruct (fold_minimum_least rest x) as (Hin & Hle & Hall).
    + apply Hnum. left. reflexivity.
    + intros y Hy. apply Hnum. right. exact Hy.
    + split; [exact Hin|]. intros y [<-|Hy]; [exact Hle|apply Hall; exact Hy].
  - intros (y & [<-|Hy] & Hnan); apply fold_minimum_nan.
    + left. exact Hnan.
    + right. exists y. split; assumption.
Qed.

Lemma np_max_greatest (frame : list spec_float) (hi : spec_float) :
  np_max frame = Ok hi ->
  ((forall x, In x frame -> B64.is_nan x = false) ->
   In hi frame /\ forall x, In x frame -> SFleb x hi = true)
  /\ ((exists x, In x frame /\ B64.is_nan x = true) -> B64.is_nan hi = true).
Proof.
  destruct frame as [|x rest]; [discriminate|].
  unfold np_max. intros H. injection H as <-. split.
  - intros Hnum.
    destruct (fold_maximum_greatest rest x) as (Hin & Hle & Hall).
    + apply Hnum. left. reflexivity.
    + intros y Hy. apply Hnum. right. exact Hy.
    + split; [exact Hin|]. intros y [<-|Hy]; [exact Hle|apply Hall; exact Hy].
  - intros (y & [<-|Hy] & Hnan); apply fold_maximum_nan.
    + left. exact Hnan.
    + right. exists y. split; assumption.
Qed.

Lemma get_data_step_min
  (s : model) (p : spec_float) :
  min_intensity s = Some p ->
  exists q, min_intensity (snd (get_data SDR_SAMPLE_SIZE s)) = Some q
            /\ SFltb p q = false.
Proof.
  intros Hp. unfold get_data. unfold_monad.
  destruct s as [w h mn mx mi ma rg d0 o g out]; simpl in *. subst mi.
  destruct (sdr_read_samples SDR_SAMPLE_SIZE d0) as [[block|e] d];
    [|simpl; eexists; split; [reflexivity|apply SFltb_irrefl]].
  destruct (np_fft (firstn (w + 2) block)) as [spectrum|e];
    [|simpl; eexists; split; [reflexivity|apply SFltb_irrefl]].
  cbv zeta. set (fr := map decibels _).
  destruct mn, mx; simpl;
    destruct (np_min fr) as [lo|e1];
    destruct (np_max fr) as [hi|e2];
    destruct ma as [p2|]; simpl;
    eexists; (split; [reflexivity|]);
    first [apply SFltb_irrefl | apply py_min_not_above].
Qed.

Lemma get_data_step_max
  (s : model) (p : spec_float) :
  max_intensity s = Some p ->
  exists q, max_intensity (snd (get_data SDR_SAMPLE_SIZE s)) = Some q
            /\ SFltb q p = false.
Proof.
  intros Hp. unfold get_data. unfold_monad.
  destruct s as [w h mn mx mi ma rg d0 o g out]; simpl in *. subst ma.
  destruct (sdr_read_samples SDR_SAMPLE_SIZE d0) as [[block|e] d];
    [|simpl; eexists; split; [reflexivity|apply SFltb_irrefl]].
  destruct (np_fft (firstn (w + 2) block)) as [spectrum|e];
    [|simpl; eexists; split; [reflexivity|apply SFltb_irrefl]].
  cbv zeta. set (fr := map decibels _).
  destruct mn, mx; simpl;
    destruct (np_min fr) as [lo|e1];
    destruct (np_max fr) as [hi|e2];
    destruct mi as [p1|]; simpl;
    eexists; (split; [reflexivity|]);
    first [apply SFltb_irrefl | apply py_max_not_below].
Qed.

(** C2.  One call of [get_data] leaves a bound that is not automatic as
    it is, however the call ends.  When the call returns a frame, an
    automatic minimum becomes the builtin [min] of [np.min] of the frame
    and the previous minimum, an absent one counting as plus infinity:
    [np.min] is the least element of a frame of numbers and NaN for a
    frame that holds a NaN, and [min] of two numbers is below both;
    symmetrically for the maximum.  After one call a minimum that was
    set is still set and does not compare greater than before (a
    maximum not smaller).  Over any number of successive calls, as long
    as no bound met on the way is NaN, a minimum that was set is at most
    what it was at the start and a maximum at least what it was. *)
Theorem get_data_auto_scale :
  (forall (s s' : model) (r : result (list spec_float)),
     get_data SDR_SAMPLE_SIZE s = (r, s') ->
     (min_auto_scale s = false -> min_intensity s' = min_intensity s)
     /\ (max_auto_scale s = false -> max_intensity s' = max_intensity s)
     /\ (forall frame, r = Ok frame -> min_auto_scale s = true ->
           exists lo, np_min frame = Ok lo
             /\ frame_minimum frame lo
             /\ min_intensity s'
                = Some (py_min lo (previous_or B64.infinity (min_intensity s)))
             /\ (forall p, min_intensity s = Some p ->
                   B64.is_nan lo = false -> B64.is_nan p = false ->
                   SFleb (py_min lo p) lo = true
                   /\ SFleb (py_min lo p) p = true))
     /\ (forall frame, r = Ok frame -> max_auto_scale s = true ->
           exists hi, np_max frame = Ok hi
             /\ frame_maximum frame hi
             /\ max_intensity s'
                = Some (py_max hi
                          (previous_or (SFopp B64.infinity) (max_intensity s)))
             /\ (forall p, max_intensity s = Some p ->
                   B64.is_nan hi = false -> B64.is_nan p = false ->
                   SFleb hi (py_max hi p) = true
                   /\ SFleb p (py_max hi p) = true))
     /\ (forall p, min_intensity s = Some p ->
           exists q, min_intensity s' = Some q /\ SFltb p q = false)
     /\ (forall p, max_intensity s = Some p ->
           exists q, max_intensity s' = Some q /\ SFltb q p = false))
  /\ (forall (n : nat) (s : model),
        (forall k q, k <= n ->
           min_intensity (acquire SDR_SAMPLE_SIZE k s) = Some q ->
           B64.is_nan q = false) ->
        (forall k q, k <= n ->
           max_intensity (acquire SDR_SAMPLE_SIZE k s) = Some q ->
           B64.is_nan q = false) ->
        (forall p, min_intensity s = Some p ->
           exists q, min_intensity (acquire SDR_SAMPLE_SIZE n s) = Some q
                     /\ SFleb q p = true)
        /\ (forall p, max_intensity s = Some p ->
              exists q, max_intensity (acquire SDR_SAMPLE_SIZE n s) = Some q
                        /\ SFleb p q = true)).
Proof.
  split.
  - intros s s' r Hrun.
    destruct (get_data_bounds SDR_SAMPLE_SIZE s s' r Hrun)
      as (Hfmin & Hfmax & Hmin & Hmax & Hsmin & Hsmax).
    split; [exact Hfmin|]. split; [exact Hfmax|].
    split; [|split; [|split; [exact Hsmin|exact Hsmax]]].
    + intros frame Hr Hauto.
      destruct (Hmin frame Hr Hauto) as (lo & Hlo & Hset).
      exists lo. split; [exact Hlo|].
      split; [exact (np_min_least frame lo Hlo)|]. split; [exact Hset|].
      intros p _ Hnlo Hnp. apply py_min_least; assumption.
    + intros frame Hr Hauto.
      destruct (Hmax frame Hr Hauto) as (hi & Hhi & Hset).
      exists hi. split; [exact Hhi|].
      split; [exact (np_max_greatest frame hi Hhi)|]. split; [exact Hset|].
      intros p _ Hnhi Hnp. apply py_max_greatest; assumption.
  - intros n s Hmin Hmax.
    assert (Hstep :
      (forall p, min_intensity s = Some p ->
         exists q, min_intensity (acquire SDR_SAMPLE_SIZE n s) = Some q
                   /\ SFltb p q = false)
      /\ (forall p, max_intensity s = Some p ->
            exists q, max_intensity (acquire SDR_SAMPLE_SIZE n s) = Some q
                      /\ SFltb q p = false)).
    { induction n as [|n IH].
      - split; intros p Hp; exists p; (split; [exact Hp|apply SFltb_irrefl]).
      - destruct IH as [IHmin IHmax].
        + intros k q Hk. apply Hmin. lia.
        + intros k q Hk. apply Hmax. lia.
        + split; intros p Hp.
          * destruct (IHmin p Hp) as (q1 & Hq1 & Hle1).
            destruct (get_data_step_min _ q1 Hq1) as (q2 & Hq2 & Hle2).
            exists q2. split; [exact Hq2|].
            apply not_below_trans with (y := q1); try assumption.
            apply (Hmin n q1); [lia|exact Hq1].
          * destruct (IHmax p Hp) as (q1 & Hq1 & Hle1).
            destruct (get_data_step_max _ q1 Hq1) as (q2 & Hq2 & Hle2).
            exists q2. split; [exact Hq2|].
            apply not_below_trans with (y := q1); try assumption.
            apply (Hmax n q1); [lia|exact Hq1]. }
    destruct Hstep as [Hsmin Hsmax].
    split; intros p Hp.
    + destruct (Hsmin p Hp) as (q & Hq & Hlt). exists q. split; [exact Hq|].
      apply not_SFltb_leb; [apply (Hmin n q); [lia|exact Hq]| |exact Hlt].
      apply (Hmin 0 p); [lia|exact Hp].
    + destruct (Hsmax p Hp) as (q & Hq & Hlt). exists q. split; [exact Hq|].
      apply not_SFltb_leb; [|apply (Hmax n q); [lia|exact Hq]|exact Hlt].
      apply (Hmax 0 p); [lia|exact Hp].
Qed.

(** X16.  Over any number of successive calls of [get_data], however
    each ends, a minimum that was set is still set and not greater
    than at the start, and a maximum that was set is not smaller,
    provided no bound met on the way is NaN. *)
Theorem bounds_only_widen (n : nat) (s : model) :
  (forall k q, k <= n ->
     min_intensity (acquire SDR_SAMPLE_SIZE k s) = Some q ->
     B64.is_nan q = false) ->
  (forall k q, k <= n ->
     max_intensity (acquire SDR_SAMPLE_SIZE k s) = Some q ->
     B64.is_nan q = false) ->
  (forall p, min_intensity s = Some p ->
     exists q, min_intensity (acquire SDR_SAMPLE_SIZE n s) = Some q
               /\ SFltb p q = false)
  /\ (forall p, max_intensity s = Some p ->
        exists q, max_intensity (acquire SDR_SAMPLE_SIZE n s) = Some q
                  /\ SFltb q p = false).
Proof.
  induction n as [|n IH]; intros Hmin Hmax.
  - split; intros p Hp; exists p; (split; [exact Hp|apply SFltb_irrefl]).
  - destruct IH as [IHmin IHmax].
    + intros k q Hk. apply Hmin. lia.
    + intros k q Hk. apply Hmax. lia.
    + split; intros p Hp.
      * destruct (IHmin p Hp) as (q1 & Hq1 & Hle1).
        destruct (get_data_step_min _ q1 Hq1) as (q2 & Hq2 & Hle2).
        exists q2. split; [exact Hq2|].
        apply not_below_trans with (y := q1); try assumption.
        apply (Hmin n q1); [lia|exact Hq1].
      * destruct (IHmax p Hp) as (q1 & Hq1 & Hle1).
        destruct (get_data_step_max _ q1 Hq1) as (q2 & Hq2 & Hle2).
        exists q2. split; [exact Hq2|].
        apply not_below_trans with (y := q1); try assumption.
        apply (Hmax n q1); [lia|exact Hq1].
Qed.

End Successive.

(** ** Further runs on the bench *)

Section MoreOnTheBench.

Lemma get_data_auto_scale_counterexample :
  min_auto_scale (after_dropout 0) = true
  /\ max_auto_scale (after_dropout 0) = true
  /\ min_intensity (after_dropout 0) = Some (B64.of_Z 10)
  /\ max_intensity (after_dropout 0) = Some (B64.of_Z 2000)
  /\ fst (get_data (np := @loopback f64 binary64) (drv := dropout) 8
            (after_dropout 0))
     = Ok [S754_nan; S754_nan; S754_nan; S754_nan]
  /\ min_intensity (after_dropout 1) = Some S754_nan
  /\ max_intensity (after_dropout 1) = Some S754_nan
  /\ fst (get_data (np := @loopback f64 binary64) (drv := dropout) 8
            (after_dropout 1))
     = Ok [B64.of_Z 80; B64.of_Z 100; B64.of_Z 40; B64.of_Z 60]
  /\ min_intensity (after_dropout 2) = Some (B64.of_Z 40)
  /\ max_intensity (after_dropout 2) = Some (B64.of_Z 100)
  /\ SFltb (B64.of_Z 10) (B64.of_Z 40) = true
  /\ SFltb (B64.of_Z 100) (B64.of_Z 2000) = true.
Proof. repeat split; vm_compute; reflexivity. Qed.

Lemma get_data_auto_scale_witness :
  min_intensity (snd (get_data 8 (scanning working))) = Some (B64.of_Z 40)
  /\ max_intensity (snd (get_data 8 (scanning working))) = Some (B64.of_Z 100)
  /\ (exists q : f64,
        min_intensity (acquire 8 2 (scanning working)) = Some q
        /\ SFleb q (B64.of_Z 50) = true)
  /\ (exists q : f64,
        max_intensity (acquire 8 2 (scanning working)) = Some q
        /\ SFleb (B64.of_Z 90) q = true).
Proof.
  destruct (@get_data_auto_scale (sim f64) _ _ 8) as [Hone Hmany].
  assert (Hrun : get_data 8 (scanning working)
                 = (Ok [B64.of_Z 80; B64.of_Z 100; B64.of_Z 40; B64.of_Z 60],
                    snd (get_data 8 (scanning working))))
    by (vm_compute; reflexivity).
  destruct (Hone (scanning working) _ _ Hrun) as (_ & _ & Hlo & Hhi & _ & _).
  split; [|split].
  - destruct (Hlo _ eq_refl eq_refl) as (lo & Hmin & _ & Hset & _).
    rewrite Hset. vm_compute in Hmin. inversion Hmin. reflexivity.
  - destruct (Hhi _ eq_refl eq_refl) as (hi & Hmax & _ & Hset & _).
    rewrite Hset. vm_compute in Hmax. inversion Hmax. reflexivity.
  - destruct (Hmany 2 (scanning working)) as [Hmin Hmax].
    + intros k q Hk Hq.
      destruct k as [|[|[|k]]]; [| | |lia];
        vm_compute in Hq; injection Hq as <-; reflexivity.
    + intros k q Hk Hq.
      destruct k as [|[|[|k]]]; [| | |lia];
        vm_compute in Hq; injection Hq as <-; reflexivity.
    + split; [apply Hmin; reflexivity|apply Hmax; reflexivity].
Defined.

Lemma fixed_bounds_always_set_witness :
  well_scaled (observed working)
  /\ well_scaled (snd (get_data 8 (observed working)))
  /\ well_scaled (snd (set_min_intensity_of (Value (Ok (B64.of_Z 10)))
                         (observed working)))
  /\ well_scaled (snd (init 1 320 240 working))
  /\ fst (set_min_intensity_of (Value (Raise ValueError)) (fresh 320 working))
     = Raise ValueError
  /\ ~ well_scaled (snd (set_min_intensity_of (Value (Raise ValueError))
                           (fresh 320 working))).
Proof.
  assert (Hs : well_scaled (observed working)).
  { split; intros H; simpl; discriminate. }
  destruct (@fixed_bounds_always_set f64 (sim f64) _ _ _ 8)
    as (Hinit & Hkeep & Hraise).
  destruct (Hkeep 1 (observed working) Hs)
    as (_ & _ & _ & _ & Hdata & Hmin & _).
  destruct (Hraise (fresh 320 working) ValueError) as (Hrun & _ & Hbroken & _).
  split; [exact Hs|]. split; [exact Hdata|].
  split; [apply (Hmin (Value (Ok (B64.of_Z 10)))); reflexivity|].
  split; [apply Hinit|]. rewrite Hrun.
  split; [reflexivity|apply Hbroken; reflexivity].
Defined.

Lemma get_data_returns_or_raises_witness :
  (exists (frame : list f64) (s' : FreqShowModel f64 (sim f64)),
     get_data 8 (fresh 4 working) = (Ok frame, s')
     /\ List.length frame = 4)
  /\ get_data 2 (fresh 4 working)
     = (Raise ValueError,
        with_sdr (snd (sdr_read_samples 2 working)) (fresh 4 working)).
Proof.
  split.
  - destruct (get_data_returns_or_raises 8 (fresh 4 working)
                (map signal (seq 0 8)) (snd (sdr_read_samples 8 working)))
      as [Hreturns _].
    + reflexivity.
    + split; intros H; discriminate H.
    + apply Hreturns. left. simpl. lia.
  - destruct (get_data_returns_or_raises 2 (fresh 4 working)
                (map signal (seq 0 2)) (snd (sdr_read_samples 2 working)))
      as [_ Hraises].
    + reflexivity.
    + split; intros H; discriminate H.
    + apply Hraises. right. simpl. split; [lia|left; reflexivity].
Defined.

Lemma get_data_sets_range_witness :
  exists lo hi : f64,
    min_intensity (snd (get_data 8 (fresh 4 working))) = Some lo
    /\ max_intensity (snd (get_data 8 (fresh 4 working))) = Some hi
    /\ range (snd (get_data 8 (fresh 4 working))) = Some (fsub hi lo).
Proof.
  apply (get_data_sets_range 8 (fresh 4 working)
           (snd (get_data 8 (fresh 4 working)))
           [B64.of_Z 80; B64.of_Z 100; B64.of_Z 40; B64.of_Z 60]).
  vm_compute. reflexivity.
Defined.

Lemma frame_depends_on_samples_only_witness :
  fst (get_data 8 (fresh 4 working)) = fst (get_data 8 (observed working)).
Proof.
  destruct (frame_depends_on_samples_only 8
              (fresh 4 working) (observed working)
              (snd (get_data 8 (fresh 4 working)))
              (snd (get_data 8 (observed working)))
              [B64.of_Z 80; B64.of_Z 100; B64.of_Z 40; B64.of_Z 60]
              [B64.of_Z 80; B64.of_Z 100; B64.of_Z 40; B64.of_Z 60])
    as [_ _]; try reflexivity; try (vm_compute; reflexivity).
Defined.

Lemma recovery_leaves_defaults_witness :
  set_offsetted 1 true (fresh 320 glitching)
  = (Ok (Some ("Can't set center frequency", fault_detail)),
     snd (set_offsetted 1 true (fresh 320 glitching)))
  /\ at_defaults (snd (set_offsetted 1 true (fresh 320 glitching)))
  /\ is_offsetted (snd (set_offsetted 1 true (fresh 320 glitching))) = false.
Proof.
  assert (Hrun : set_offsetted 1 true (fresh 320 glitching)
                 = (Ok (Some ("Can't set center frequency", fault_detail)),
                    snd (set_offsetted 1 true (fresh 320 glitching))))
    by (vm_compute; reflexivity).
  destruct (recovery_leaves_defaults 1 (fresh 320 glitching)
              (snd (set_offsetted 1 true (fresh 320 glitching)))
              fault_detail
              (snd (sdr_set_center_freq
                      (actual_hz (get_nominal_center_freq (fresh 320 glitching))
                         (with_offsetted true (fresh 320 glitching)))
                      glitching))
              (Some ("Can't set center frequency", fault_detail)))
    as (_ & _ & _ & Hoffset).
  destruct (Hoffset true) as [_ Hdef]; [reflexivity|exact Hrun|].
  split; [exact Hrun|]. split; [exact Hdef|]. destruct Hdef as [Hoff _].
  exact Hoff.
Defined.

Lemma stuck_tuner_exhausts_recursion_witness :
  fst (set_nominal_center_freq (np := @loopback f64 binary64) (drv := stuck_tuner) 50 (B64.of_Z 100)
         on_stuck_tuner)
  = Raise RecursionError.
Proof.
  destruct (stuck_tuner_exhausts_recursion (np := @loopback f64 binary64) (drv := stuck_tuner)
              (fun d => ex_intro _ (S d) eq_refl)
              (fun hz d => ex_intro _ _ (ex_intro _ (S d) eq_refl))
              50 (B64.of_Z 100) true on_stuck_tuner) as [Hfreq _].
  exact Hfreq.
Defined.

Lemma init_outcome_witness :
  init 1 320 240 working
  = (Ok tt,
     mkModel 320 240 true true None None None (reinitialised working)
       false true []).
Proof.
  destruct (init_outcome 1 320 240 working) as [Hworks _].
  apply Hworks. apply reopened_on_the_bench; reflexivity.
Defined.

Lemma set_sample_rate_of_no_number_witness :
  set_sample_rate 1 S754_nan (fresh 320 working)
  = (Raise ValueError, fresh 320 working)
  /\ set_sample_rate 1 (S754_infinity false) (fresh 320 working)
     = (Raise OverflowError, fresh 320 working).
Proof.
  split.
  - destruct (set_sample_rate_of_no_number 1 S754_nan (fresh 320 working))
      as [Hnan _].
    apply Hnan. reflexivity.
  - destruct (set_sample_rate_of_no_number 1 (S754_infinity false)
                (fresh 320 working)) as [_ Hinf].
    apply (Hinf false). reflexivity.
Defined.

Lemma set_offsetted_there_and_back_witness :
  exists s1 s2 : FreqShowModel f64 f64,
    set_offsetted (np := @loopback f64 binary64) (drv := ideal_tuner) 1 true
      on_ideal_tuner
    = (Ok None, s1)
    /\ set_offsetted (np := @loopback f64 binary64) (drv := ideal_tuner) 1 false
         s1
       = (Ok None, s2)
    /\ sdr s1 = B64.of_Z 558000000
    /\ sdr s2 = sdr on_ideal_tuner.
Proof.
  destruct (set_offsetted_there_and_back
              (np := @loopback f64 binary64) (drv := ideal_tuner)
              1 433 true on_ideal_tuner)
    as (s1 & s2 & Hrun1 & Hrun2 & _ & _ & Hbetween & Hback).
  - lia.
  - reflexivity.
  - intros hz d. exists hz. split; reflexivity.
  - exists s1, s2. split; [exact Hrun1|]. split; [exact Hrun2|].
    split; [exact Hbetween|exact Hback].
Defined.

Lemma shown_values_follow_setters_witness :
  get_min_string
    (snd (set_min_intensity (Value (B64.decimal (-125) 10)) (fresh 320 working)))
  = Ok "-12"
  /\ get_gain
       (snd (set_gain 1 (Value (B64.decimal 207 10)) (fresh 320 working)))
     = "20.7".
Proof.
  destruct (shown_values_follow_setters 1 (fresh 320 working))
    as (Hmin & _ & _ & Hgain).
  split.
  - rewrite (Hmin (Value (B64.decimal (-125) 10))). reflexivity.
  - rewrite (Hgain (B64.decimal 207 10)
               (snd (sdr_set_gain (B64.decimal 207 10) working)));
      reflexivity.
Defined.

Lemma whole_megahertz_round_trip_witness :
  actual_hz (B64.of_Z 145) (fresh 320 working) = B64.of_Z 145000000
  /\ get_nominal_center_freq
       (snd (set_nominal_center_freq 1 (B64.of_Z 145) (fresh 320 working)))
     = B64.of_Z 145.
Proof.
  apply (whole_megahertz_round_trip 1 145 (fresh 320 working)
           (snd (sdr_set_center_freq
                   (actual_hz (B64.of_Z 145) (fresh 320 working)) working)));
    [lia|reflexivity|reflexivity].
Defined.

Lemma set_offsetted_exact_on_whole_megahertz_witness :
  get_nominal_center_freq (fresh 320 tuned_145) = B64.of_Z 145
  /\ get_nominal_center_freq (snd (set_offsetted 1 true (fresh 320 tuned_145)))
     = B64.of_Z 145
  /\ sdr_get_center_freq (sdr (snd (set_offsetted 1 true (fresh 320 tuned_145))))
     = B64.of_Z 270000000.
Proof.
  exact (set_offsetted_exact_on_whole_megahertz 1 145 true
           (fresh 320 tuned_145)
           (snd (sdr_set_center_freq
                   (actual_hz (get_nominal_center_freq (fresh 320 tuned_145))
                      (with_offsetted true (fresh 320 tuned_145)))
                   tuned_145))
           ltac:(lia) eq_refl eq_refl eq_refl).
Defined.

Lemma bounds_only_widen_witness :
  exists q : f64,
    min_intensity (acquire 8 2 (observed working)) = Some q
    /\ SFltb (B64.of_Z 50) q = false.
Proof.
  destruct (bounds_only_widen 8 2 (observed working)) as [Hmin _].
  - intros k q Hk Hq.
    destruct k as [|[|[|k]]]; [| | |lia];
      vm_compute in Hq; injection Hq as <-; reflexivity.
  - intros k q Hk Hq.
    destruct k as [|[|[|k]]]; [| | |lia];
      vm_compute in Hq; injection Hq as <-; reflexivity.
  - apply Hmin. reflexivity.
Defined.

End MoreOnTheBench.
